(** * Feishu media tools: a shallow embedding of [src/media-tools.ts]

    The file embeds the media transfer facade of the plugin: the helpers
    [json] and [errResult], the six pipelines [doUploadImage] ...
    [doSendFile], the six tool entry points registered by
    [registerFeishuMediaTools], and the older variant of the same facade
    ([doFeishuUploadImage] ... [doFeishuSendFile]) that the repository
    carries next to it.

    JavaScript strings are modelled as [string], a [Buffer] as a list of
    bytes, numbers as [Z].  An optional property ([x?: T], or a property
    read from [params: any]) is an [option]: [None] is [undefined].  The
    remote primitives of [media.js] and the local filesystem are not part
    of the embedded code: they are the fields of a [World], and every
    pipeline records the calls it makes to them. *)

From Stdlib Require Import String Ascii List ZArith NArith Lia Bool.
From Stdlib.Strings Require Import Byte.
From Stdlib Require Import DecimalString.
Import ListNotations.
Local Open Scope string_scope.

(** ** JavaScript built-ins used by the facade *)

Module JS.

(** [s.startsWith(p)] *)
Definition startsWith (s p : string) : bool := String.prefix p s.

(** [s.includes(c)] for a one-character needle. *)
Fixpoint includesChar (s : string) (c : ascii) : bool :=
  match s with
  | EmptyString => false
  | String d s' => Ascii.eqb d c || includesChar s' c
  end.

(** [GetSubstitution] of ECMA-262 for a string pattern (no capture groups,
    no named groups): in the replacement text, [$$] stands for [$], [$&] for
    the matched text, [$`] for the text before the match and [$'] for the
    text after it; every other [$] is kept. *)
Fixpoint getSubstitution (matched before after replacement : string) : string :=
  match replacement with
  | EmptyString => EmptyString
  | String "$" (String "$" r) =>
      String "$" (getSubstitution matched before after r)
  | String "$" (String "&" r) =>
      matched ++ getSubstitution matched before after r
  | String "$" (String "`" r) =>
      before ++ getSubstitution matched before after r
  | String "$" (String "'" r) =>
      after ++ getSubstitution matched before after r
  | String c r => String c (getSubstitution matched before after r)
  end.

(** Splits [s] at the first occurrence of [pat]: the text before it and the
    text after it ([s.indexOf(pat)]). *)
Fixpoint splitFirst (pat s : string) : option (string * string) :=
  if String.prefix pat s
  then Some (EmptyString, String.substring (String.length pat)
                                           (String.length s - String.length pat) s)
  else match s with
       | EmptyString => None
       | String c s' =>
           match splitFirst pat s' with
           | Some (b, a) => Some (String c b, a)
           | None => None
           end
       end.

(** [s.replace(pat, replacement)] with a string pattern: only the first
    occurrence is replaced. *)
Definition replace (s pat replacement : string) : string :=
  match splitFirst pat s with
  | Some (before, after) =>
      before ++ getSubstitution pat before after replacement ++ after
  | None => s
  end.

(** The decimal digits of a natural number. *)
Definition decimal (z : Z) : string := NilZero.string_of_int (Z.to_int z).

(** The Number that stands for a positive integer: the integer itself up to
    53 significant bits, otherwise the nearest value with 53 significant
    bits, ties to the even one.  (An integer literal with more bits denotes
    that Number.) *)
Definition nearestNumber (z : Z) : Z :=
  let b := Z.log2 z in
  if (b <=? 52)%Z then z
  else
    let e := (b - 52)%Z in
    let q := Z.shiftr z e in
    let r := (z - Z.shiftl q e)%Z in
    let half := Z.shiftl 1 (e - 1) in
    let q' := if (half <? r)%Z || ((r =? half)%Z && Z.odd q)
              then (q + 1)%Z else q in
    Z.shiftl q' e.

(** [Number::toString] looks for the fewest significant digits that read
    back as the Number [x].  With [k] digits for an [x] of [n] digits the
    two decimals next to [x] are tried; of two that read back as [x] the
    closer one is taken, the one with the even last digit on a tie. *)
Definition candidate (x : Z) (n k : nat) : option Z :=
  let p := (10 ^ Z.of_nat (n - k))%Z in
  let lo := (x / p * p)%Z in
  let hi := (lo + p)%Z in
  let okLo := (nearestNumber lo =? x)%Z in
  let okHi := (nearestNumber hi =? x)%Z in
  if okLo && okHi
  then if (x - lo <? hi - x)%Z then Some lo
       else if (hi - x <? x - lo)%Z then Some hi
       else if Z.even (lo / p) then Some lo else Some hi
  else if okLo then Some lo
  else if okHi then Some hi
  else None.

Fixpoint shortest (fuel : nat) (x : Z) (n k : nat) : Z :=
  match fuel with
  | O => x
  | S fuel' =>
      match candidate x n k with
      | Some v => v
      | None => shortest fuel' x n (S k)
      end
  end.

Fixpoint stripZeros (l : list ascii) : list ascii :=
  match l with
  | c :: l' => if Ascii.eqb c "0" then stripZeros l' else l
  | [] => []
  end.

(** The exponent form of a decimal of more than 21 digits: the first
    significant digit, the other significant digits after a point, [e+] and
    the exponent. *)
Definition exponentForm (v : Z) : string :=
  let digits := decimal v in
  let exponent := decimal (Z.of_nat (String.length digits - 1)) in
  match rev (stripZeros (rev (list_ascii_of_string digits))) with
  | [] => "0"
  | [ d ] => String d ("e+" ++ exponent)
  | d :: more => String d ("." ++ string_of_list_ascii more ++ "e+" ++ exponent)
  end.

Definition showPositive (z : Z) : string :=
  if (z <? 9007199254740992)%Z then decimal z
  else
    let x := nearestNumber z in
    if (2 ^ 1024 <=? x)%Z then "Infinity"
    else
      let v := shortest 17 x (String.length (decimal x)) 1 in
      if Nat.leb (String.length (decimal v)) 21 then decimal v
      else exponentForm v.

(** The text of an integer-valued Number, as in [`${n}`] and [String(n)]:
    all its digits below 2^53; above, the shortest digits that identify the
    Number, filled up with zeros, and in exponent form from 10^21 on. *)
Definition showZ (z : Z) : string :=
  if (z <? 0)%Z then "-" ++ showPositive (- z) else showPositive z.

(** [a || b] on optional strings: [undefined] and the empty string are
    falsy. *)
Definition orElse (a : option string) (b : string) : string :=
  match a with
  | Some (String c s) => String c s
  | _ => b
  end.

(** [!a] on an optional string. *)
Definition falsy (a : option string) : bool :=
  match a with
  | Some (String _ _) => false
  | _ => true
  end.

(** [a ?? b]; also the default of a destructured property ([{ x = b }]),
    which applies when the property is [undefined]. *)
Definition nullish (a : option string) (b : string) : string :=
  match a with
  | Some s => s
  | None => b
  end.

End JS.

(** ** Node's [path.basename] (POSIX flavour, no extension argument) *)

Module NodePath.

Definition slash : ascii := "/"%char.

Fixpoint dropSlashes (l : list ascii) : list ascii :=
  match l with
  | c :: l' => if Ascii.eqb c slash then dropSlashes l' else l
  | [] => []
  end.

Fixpoint takeComponent (l : list ascii) : list ascii :=
  match l with
  | c :: l' => if Ascii.eqb c slash then [] else c :: takeComponent l'
  | [] => []
  end.

(** The scan of [basename] runs from the end of the path: trailing
    separators are skipped, then characters are kept up to the next
    separator. *)
Definition basename (p : string) : string :=
  string_of_list_ascii
    (rev (takeComponent (dropSlashes (rev (list_ascii_of_string p))))).

End NodePath.

(** ** [Buffer.prototype.toString("base64")] and its inverse *)

Module Base64.

Definition alphabet : string :=
  "ABCDEFGHIJKLMNOPQRSTUVWXYZabcdefghijklmnopqrstuvwxyz0123456789+/".

Definition pad : ascii := "="%char.

Definition digit (n : N) : ascii :=
  match String.get (N.to_nat n) alphabet with
  | Some c => c
  | None => pad
  end.

Definition value (c : ascii) : option N :=
  let n := N_of_ascii c in
  if ((65 <=? n) && (n <=? 90))%N then Some (n - 65)%N
  else if ((97 <=? n) && (n <=? 122))%N then Some (n - 71)%N
  else if ((48 <=? n) && (n <=? 57))%N then Some (n + 4)%N
  else if (n =? 43)%N then Some 62%N
  else if (n =? 47)%N then Some 63%N
  else None.

(** The sixty-four sextet values. *)
Definition sextets : list N := map N.of_nat (seq 0 64).

(** The 24-bit group of three octets. *)
Definition group (a b c : N) : N := (a * 65536 + b * 256 + c)%N.

(** The [i]-th sextet of a group, [i = 0] the most significant. *)
Definition sextet (i : N) (g : N) : N :=
  N.land (N.shiftr g (6 * (3 - i))) 63.

(** The [i]-th octet of a group, [i = 0] the most significant. *)
Definition octet (i : N) (g : N) : N :=
  N.land (N.shiftr g (8 * (2 - i))) 255.

Definition byteOf (n : N) : byte :=
  match Byte.of_N n with
  | Some b => b
  | None => x00
  end.

Fixpoint encode (bs : list byte) : string :=
  match bs with
  | [] => EmptyString
  | [a] =>
      let g := group (Byte.to_N a) 0 0 in
      String (digit (sextet 0 g)) (String (digit (sextet 1 g))
        (String pad (String pad EmptyString)))
  | [a; b] =>
      let g := group (Byte.to_N a) (Byte.to_N b) 0 in
      String (digit (sextet 0 g)) (String (digit (sextet 1 g))
        (String (digit (sextet 2 g)) (String pad EmptyString)))
  | a :: b :: c :: rest =>
      let g := group (Byte.to_N a) (Byte.to_N b) (Byte.to_N c) in
      String (digit (sextet 0 g)) (String (digit (sextet 1 g))
        (String (digit (sextet 2 g)) (String (digit (sextet 3 g))
          (encode rest))))
  end.

Definition ungroup (s0 s1 s2 s3 : N) : N :=
  (s0 * 262144 + s1 * 4096 + s2 * 64 + s3)%N.

Fixpoint decode (s : string) : option (list byte) :=
  match s with
  | EmptyString => Some []
  | String c0 (String c1 (String c2 (String c3 rest))) =>
      match value c0, value c1 with
      | Some s0, Some s1 =>
          if Ascii.eqb c2 pad then
            if Ascii.eqb c3 pad && String.eqb rest EmptyString
            then Some [byteOf (octet 0 (ungroup s0 s1 0 0))]
            else None
          else
            match value c2 with
            | Some s2 =>
                if Ascii.eqb c3 pad then
                  if String.eqb rest EmptyString
                  then let g := ungroup s0 s1 s2 0 in
                       Some [byteOf (octet 0 g); byteOf (octet 1 g)]
                  else None
                else
                  match value c3, decode rest with
                  | Some s3, Some bs =>
                      let g := ungroup s0 s1 s2 s3 in
                      Some (byteOf (octet 0 g) :: byteOf (octet 1 g)
                              :: byteOf (octet 2 g) :: bs)
                  | _, _ => None
                  end
            | None => None
            end
      | _, _ => None
      end
  | _ => None
  end.

End Base64.

(** ** JavaScript values, [String(v)] and [JSON.stringify(v, null, 2)] *)

#[warnings="-register-all"]
Inductive JsValue : Type :=
| JUndefined
| JNull
| JBool (b : bool)
| JNum (z : Z)
| JStr (s : string)
| JArr (elems : list JsValue)
| JObj (props : list (string * JsValue)).

(** An object: its own enumerable properties, in enumeration order. *)
Definition JsObject : Type := list (string * JsValue).

Module JSON.

Definition newline : string := String (ascii_of_nat 10) EmptyString.

Definition dquote : ascii := ascii_of_nat 34.

Definition hexDigit (n : nat) : ascii :=
  match String.get n "0123456789abcdef" with
  | Some c => c
  | None => "0"%char
  end.

(** One character of [QuoteJSONString]. *)
Definition quoteChar (c : ascii) : string :=
  let n := nat_of_ascii c in
  if Nat.eqb n 8 then "\b"
  else if Nat.eqb n 9 then "\t"
  else if Nat.eqb n 10 then "\n"
  else if Nat.eqb n 12 then "\f"
  else if Nat.eqb n 13 then "\r"
  else if Nat.eqb n 34 then String "\" (String dquote EmptyString)
  else if Nat.eqb n 92 then "\\"
  else if Nat.ltb n 32
       then "\u00" ++ String (hexDigit (n / 16)) (String (hexDigit (n mod 16)) EmptyString)
       else String c EmptyString.

Fixpoint quoteBody (s : string) : string :=
  match s with
  | EmptyString => EmptyString
  | String c s' => quoteChar c ++ quoteBody s'
  end.

Definition quote (s : string) : string :=
  String dquote (quoteBody s ++ String dquote EmptyString).

(** The bracketed, indented layout shared by arrays and objects. *)
Definition layout (opening closing stepback : string) (items : list string) : string :=
  match items with
  | [] => opening ++ closing
  | _ :: _ =>
      let indent := stepback ++ "  " in
      opening ++ newline ++ indent
        ++ String.concat ("," ++ newline ++ indent) items
        ++ newline ++ stepback ++ closing
  end.

(** [SerializeJSONProperty] with a gap of two spaces: [None] is
    [undefined].  An [undefined] array element is written [null], an
    [undefined] property is left out. *)
Fixpoint serialize (stepback : string) (v : JsValue) : option string :=
  match v with
  | JUndefined => None
  | JNull => Some "null"
  | JBool true => Some "true"
  | JBool false => Some "false"
  | JNum z => Some (JS.showZ z)
  | JStr s => Some (quote s)
  | JArr elems =>
      let items :=
        (fix each (l : list JsValue) : list string :=
           match l with
           | [] => []
           | x :: l' =>
               match serialize (stepback ++ "  ") x with
               | Some t => t
               | None => "null"
               end :: each l'
           end) elems in
      Some (layout "[" "]" stepback items)
  | JObj props =>
      let items :=
        (fix each (l : list (string * JsValue)) : list string :=
           match l with
           | [] => []
           | (k, x) :: l' =>
               match serialize (stepback ++ "  ") x with
               | Some t => (quote k ++ ": " ++ t) :: each l'
               | None => each l'
               end
           end) props in
      Some (layout "{" "}" stepback items)
  end.

(** [JSON.stringify(data, null, 2)] of an object. *)
Definition stringify (data : JsObject) : string :=
  match serialize EmptyString (JObj data) with
  | Some t => t
  | None => "undefined"
  end.

End JSON.

Module JSString.

(** The object has an own property [k]. *)
Fixpoint hasOwn (props : list (string * JsValue)) (k : string) : bool :=
  match props with
  | [] => false
  | (k', _) :: props' => String.eqb k' k || hasOwn props' k
  end.

(** The message of the [TypeError] that [String(v)] throws (as V8 words
    it). *)
Definition unconvertible : string := "Cannot convert object to primitive value".

(** [String(v)], and the conversion inside a template literal; [None] when
    it throws a [TypeError].  An array is its elements joined by commas,
    with [undefined] and [null] elements empty.  An object is converted by
    its [toString]: the inherited one gives ["[object Object]"]; an own
    property [toString] hides it, and since no value of the model is a
    function, neither that property nor [valueOf] yields a primitive and the
    conversion throws. *)
Fixpoint toString (v : JsValue) : option string :=
  match v with
  | JUndefined => Some "undefined"
  | JNull => Some "null"
  | JBool true => Some "true"
  | JBool false => Some "false"
  | JNum z => Some (JS.showZ z)
  | JStr s => Some s
  | JArr elems =>
      option_map (String.concat ",")
        ((fix each (l : list JsValue) : option (list string) :=
            match l with
            | [] => Some []
            | x :: l' =>
                match
                  match x with
                  | JUndefined | JNull => Some EmptyString
                  | _ => toString x
                  end
                with
                | Some t =>
                    match each l' with
                    | Some ts => Some (t :: ts)
                    | None => None
                    end
                | None => None
                end
            end) elems)
  | JObj props =>
      if hasOwn props "toString" then None else Some "[object Object]"
  end.

(** [l.map((x) => String(x))]; [None] when one of the conversions throws. *)
Fixpoint each (l : list JsValue) : option (list string) :=
  match l with
  | [] => Some []
  | x :: l' =>
      match toString x with
      | Some t =>
          match each l' with
          | Some ts => Some (t :: ts)
          | None => None
          end
      | None => None
      end
  end.

End JSString.

(** ** Thrown values and outcomes *)

(** A value of type [unknown] reaching [errResult]: either an instance of
    [Error] with its [message] (a string), or any other value: a primitive,
    an array or a plain object. *)
Inductive ErrValue : Type :=
| AnError (message : string)
| NotAnError (v : JsValue).

(** What an awaited call does: it returns, or it throws (a rejected promise
    throws at its [await]).  A call that never settles is outside the
    model. *)
Inductive Outcome (A : Type) : Type :=
| Returned (a : A)
| Raised (err : ErrValue).

Arguments Returned {A} a.
Arguments Raised {A} err.

(** The [TypeError] of a failed conversion to a string. *)
Definition typeError : ErrValue := AnError JSString.unconvertible.

(** [String(v)] as a step that may throw. *)
Definition stringOf (v : JsValue) : Outcome string :=
  match JSString.toString v with
  | Some s => Returned s
  | None => Raised typeError
  end.

(** ** Configuration and results of the primitives *)

(** Modelled from the spec: [FeishuConfig] is declared in [types.js], which is
    missing; the credential record of the spec has an application identity, a
    secret and a domain selector, and the registration code also reads its
    [tools] property. *)
Record FeishuConfig : Type := {
  appId : option string;
  appSecret : option string;
  domain : option string;
  tools : option JsValue
}.

(** The configuration object handed to the media helpers:
    [{ channels: { [key]: feishuCfg } }]. *)
Record ClawdbotConfig : Type := {
  channels : list (string * FeishuConfig)
}.

(** Modelled from the spec: [DownloadImageResult] is declared in [media.js],
    which is missing; a download result is the raw byte payload and an
    optional declared content type. *)
Record DownloadImageResult : Type := {
  img_buffer : list byte;
  img_contentType : option string
}.

(** Modelled from the spec: [DownloadMessageResourceResult] is declared in
    [media.js], which is missing; a message attachment also carries an
    optional original file name. *)
Record DownloadMessageResourceResult : Type := {
  res_buffer : list byte;
  res_contentType : option string;
  res_fileName : option string
}.

(** ** The result envelope *)

Record ContentItem : Type := {
  type : string;
  text : string
}.

(** The [details] of a success: the data given to [json], or a download
    result spread together with its [dataUrl]. *)
Inductive Details : Type :=
| DataDetails (data : JsObject)
| ImageDetails (result : DownloadImageResult) (dataUrl : string)
| FileDetails (result : DownloadMessageResourceResult) (dataUrl : string).

(** The object returned to the host: [details] and [error] are optional
    properties, [None] when the object literal does not have them. *)
Record Envelope : Type := {
  content : list ContentItem;
  details : option Details;
  error : option string
}.

(** ** Calls to the outside, and the world that answers them *)

Inductive Call : Type :=
| ExistsSync (path : string)
| UploadImage (cfg : ClawdbotConfig) (image imageType : string)
| UploadFile (cfg : ClawdbotConfig) (file fileName fileType : string)
             (duration : option Z)
| DownloadImage (cfg : ClawdbotConfig) (imageKey : option string)
| DownloadMessageResource (cfg : ClawdbotConfig)
                          (messageId fileKey : option string) (kind : string)
| SendImage (cfg : ClawdbotConfig) (to imageKey replyToMessageId : option string)
| SendFile (cfg : ClawdbotConfig) (to fileKey replyToMessageId : option string).

(** The calls that reach the remote service (all but the existence probe). *)
Definition isTransferCall (c : Call) : bool :=
  match c with
  | ExistsSync _ => false
  | _ => true
  end.

(** The type of the value a call returns. *)
Definition Reply (c : Call) : Type :=
  match c with
  | ExistsSync _ => bool
  | UploadImage _ _ _ => JsObject
  | UploadFile _ _ _ _ _ => JsObject
  | DownloadImage _ _ => DownloadImageResult
  | DownloadMessageResource _ _ _ _ => DownloadMessageResourceResult
  | SendImage _ _ _ _ => JsObject
  | SendFile _ _ _ _ => JsObject
  end.

(** Everything the facade imports: the environment, the filesystem probe,
    the six primitives of [media.js] with [detectFileType], and
    [resolveToolsConfig] of [tools-config.js] (its [media] flag).  The
    primitives take one object argument; its properties are the arguments
    here, in the order of the [Call] constructors. *)
Record World : Type := {
  HOME : option string;
  existsSync : string -> bool;
  uploadImageFeishu : ClawdbotConfig -> string -> string -> Outcome JsObject;
  uploadFileFeishu :
    ClawdbotConfig -> string -> string -> string -> option Z -> Outcome JsObject;
  downloadImageFeishu :
    ClawdbotConfig -> option string -> Outcome DownloadImageResult;
  downloadMessageResourceFeishu :
    ClawdbotConfig -> option string -> option string -> string ->
    Outcome DownloadMessageResourceResult;
  sendImageFeishu :
    ClawdbotConfig -> option string -> option string -> option string ->
    Outcome JsObject;
  sendFileFeishu :
    ClawdbotConfig -> option string -> option string -> option string ->
    Outcome JsObject;
  detectFileType : string -> Outcome string;
  resolveToolsConfig_media : option JsValue -> bool
}.

(** The answer of the world to a call; [fs.existsSync] never throws. *)
Definition perform (w : World) (c : Call) : Outcome (Reply c) :=
  match c with
  | ExistsSync p => Returned (existsSync w p)
  | UploadImage cfg image imageType => uploadImageFeishu w cfg image imageType
  | UploadFile cfg file fileName fileType duration =>
      uploadFileFeishu w cfg file fileName fileType duration
  | DownloadImage cfg imageKey => downloadImageFeishu w cfg imageKey
  | DownloadMessageResource cfg messageId fileKey kind =>
      downloadMessageResourceFeishu w cfg messageId fileKey kind
  | SendImage cfg to imageKey replyTo => sendImageFeishu w cfg to imageKey replyTo
  | SendFile cfg to fileKey replyTo => sendFileFeishu w cfg to fileKey replyTo
  end.

(** ** The monad of the pipelines: a log of calls, and exceptions *)

Definition M (A : Type) : Type := list Call -> Outcome A * list Call.

Definition ret {A : Type} (a : A) : M A :=
  fun log => (Returned a, log).

Definition bind {A B : Type} (m : M A) (k : A -> M B) : M B :=
  fun log =>
    match m log with
    | (Returned a, log') => k a log'
    | (Raised err, log') => (Raised err, log')
    end.

(** [try { body } catch (err) { handler }] *)
Definition tryCatch {A : Type} (body : M A) (handler : ErrValue -> M A) : M A :=
  fun log =>
    match body log with
    | (Returned a, log') => (Returned a, log')
    | (Raised err, log') => handler err log'
    end.

(** A value computed by imported pure code, which may throw. *)
Definition lift {A : Type} (o : Outcome A) : M A :=
  fun log => (o, log).

(** A logged call to the outside. *)
Definition call (w : World) (c : Call) : M (Reply c) :=
  fun log => (perform w c, (log ++ [c])%list).

(** Runs a pipeline from an empty log. *)
Definition run {A : Type} (m : M A) : Outcome A * list Call := m [].

Declare Scope facade_scope.
Delimit Scope facade_scope with facade.
Notation "x <- m ;; k" := (bind m (fun x => k))
  (at level 61, m at next level, right associativity) : facade_scope.
Local Open Scope facade_scope.

(** ** Parameters of the pipelines and of the tools *)

Module UploadImageParams.
Record t : Type := { path : string; imageType : option string }.
End UploadImageParams.

Module UploadFileParams.
Record t : Type := {
  path : string;
  fileName : option string;
  fileType : option string;
  duration : option Z
}.
End UploadFileParams.

(** The keys of the download and send pipelines are declared [string], but
    the entry points forward [params.imageKey] and the like unchecked, so
    [undefined] reaches the pipeline: the keys are optional here. *)
Module DownloadImageParams.
Record t : Type := { imageKey : option string }.
End DownloadImageParams.

Module DownloadFileParams.
Record t : Type := {
  messageId : option string;
  fileKey : option string;
  type : option string
}.
End DownloadFileParams.

Module SendImageParams.
Record t : Type := {
  to : option string;
  imageKey : option string;
  replyToMessageId : option string
}.
End SendImageParams.

Module SendFileParams.
Record t : Type := {
  to : option string;
  fileKey : option string;
  replyToMessageId : option string
}.
End SendFileParams.

(** [params: any] of an [execute]: the properties the six tools read, each
    one possibly absent. *)
Module ToolParams.
Record t : Type := {
  path : option string;
  imageType : option string;
  fileName : option string;
  fileType : option string;
  duration : option Z;
  imageKey : option string;
  messageId : option string;
  fileKey : option string;
  type : option string;
  to : option string;
  replyToMessageId : option string
}.

(** The empty object [{}]. *)
Definition empty : t :=
  {| path := None; imageType := None; fileName := None; fileType := None;
     duration := None; imageKey := None; messageId := None; fileKey := None;
     type := None; to := None; replyToMessageId := None |}.
End ToolParams.

(** ** Helpers *)

(** The channel key used in config. *)
Definition CH : string := "feishu-new".

Definition json (data : JsObject) : Envelope :=
  {| content := [ {| type := "text"; text := JSON.stringify data |} ];
     details := Some (DataDetails data);
     error := None |}.

(** [String(err)] is the one step of [errResult] that can throw. *)
Definition errResult (err : ErrValue) : Outcome Envelope :=
  match
    match err with
    | AnError m => Returned m
    | NotAnError v => stringOf v
    end
  with
  | Returned message =>
      Returned
        {| content := [ {| type := "text"; text := "Error: " ++ message |} ];
           details := None;
           error := Some message |}
  | Raised thrown => Raised thrown
  end.

Definition buildCfg (feishuCfg : FeishuConfig) : ClawdbotConfig :=
  {| channels := [ (CH, feishuCfg) ] |}.

(** The home-directory expansion both upload pipelines start with. *)
Definition resolvePath (home : option string) (p : string) : string :=
  if JS.startsWith p "~"
  then JS.replace p "~" (JS.nullish home EmptyString)
  else p.

(** ** Tool implementations *)

Section Facade.

Variable w : World.
Variable feishuCfg : FeishuConfig.

Definition doUploadImage (params : UploadImageParams.t) : M Envelope :=
  tryCatch
    (let imagePath := UploadImageParams.path params in
     let imageType := JS.nullish (UploadImageParams.imageType params) "message" in
     let resolvedPath := resolvePath (HOME w) imagePath in
     found <- call w (ExistsSync resolvedPath) ;;
     if negb found
     then lift (errResult (AnError ("Image file not found: " ++ resolvedPath)))
     else
       result <- call w (UploadImage (buildCfg feishuCfg) resolvedPath imageType) ;;
       ret (json result))
    (fun err => lift (errResult err)).

Definition doUploadFile (params : UploadFileParams.t) : M Envelope :=
  tryCatch
    (let filePath := UploadFileParams.path params in
     let fileName := UploadFileParams.fileName params in
     let fileType := UploadFileParams.fileType params in
     let duration := UploadFileParams.duration params in
     let resolvedPath := resolvePath (HOME w) filePath in
     found <- call w (ExistsSync resolvedPath) ;;
     if negb found
     then lift (errResult (AnError ("File not found: " ++ resolvedPath)))
     else
       let name := JS.orElse fileName (NodePath.basename resolvedPath) in
       kind <- (if JS.falsy fileType
                then lift (detectFileType w name)
                else ret (JS.orElse fileType EmptyString)) ;;
       result <- call w (UploadFile (buildCfg feishuCfg) resolvedPath name kind
                                    duration) ;;
       ret (json result))
    (fun err => lift (errResult err)).

Definition doDownloadImage (params : DownloadImageParams.t) : M Envelope :=
  tryCatch
    (result <- call w (DownloadImage (buildCfg feishuCfg)
                                     (DownloadImageParams.imageKey params)) ;;
     let base64 := Base64.encode (img_buffer result) in
     let dataUrl :=
       "data:" ++ JS.orElse (img_contentType result) "image/png"
               ++ ";base64," ++ base64 in
     ret {| content :=
              [ {| type := "text";
                   text := "Downloaded image ("
                     ++ JS.showZ (Z.of_nat (List.length (img_buffer result)))
                     ++ " bytes, type: "
                     ++ JS.orElse (img_contentType result) "unknown" ++ ")" |} ];
            details := Some (ImageDetails result dataUrl);
            error := None |})
    (fun err => lift (errResult err)).

Definition doDownloadFile (params : DownloadFileParams.t) : M Envelope :=
  tryCatch
    (let messageId := DownloadFileParams.messageId params in
     let fileKey := DownloadFileParams.fileKey params in
     let kind := JS.nullish (DownloadFileParams.type params) "file" in
     result <- call w (DownloadMessageResource (buildCfg feishuCfg)
                                               messageId fileKey kind) ;;
     let base64 := Base64.encode (res_buffer result) in
     let dataUrl :=
       "data:" ++ JS.orElse (res_contentType result) "application/octet-stream"
               ++ ";base64," ++ base64 in
     ret {| content :=
              [ {| type := "text";
                   text := "Downloaded file ("
                     ++ JS.showZ (Z.of_nat (List.length (res_buffer result)))
                     ++ " bytes, type: "
                     ++ JS.orElse (res_contentType result) "unknown"
                     ++ ", name: "
                     ++ JS.orElse (res_fileName result) "unknown" ++ ")" |} ];
            details := Some (FileDetails result dataUrl);
            error := None |})
    (fun err => lift (errResult err)).

Definition doSendImage (params : SendImageParams.t) : M Envelope :=
  tryCatch
    (result <- call w (SendImage (buildCfg feishuCfg)
                                 (SendImageParams.to params)
                                 (SendImageParams.imageKey params)
                                 (SendImageParams.replyToMessageId params)) ;;
     ret (json result))
    (fun err => lift (errResult err)).

Definition doSendFile (params : SendFileParams.t) : M Envelope :=
  tryCatch
    (result <- call w (SendFile (buildCfg feishuCfg)
                                (SendFileParams.to params)
                                (SendFileParams.fileKey params)
                                (SendFileParams.replyToMessageId params)) ;;
     ret (json result))
    (fun err => lift (errResult err)).

(** *** The [execute] of each registered tool *)

Definition feishu_upload_image (params : ToolParams.t) : M Envelope :=
  match ToolParams.path params with
  | Some (String c s) =>
      doUploadImage
        {| UploadImageParams.path := String c s;
           UploadImageParams.imageType := ToolParams.imageType params |}
  | _ => lift (errResult (NotAnError (JStr "'path' is required")))
  end.

Definition feishu_upload_file (params : ToolParams.t) : M Envelope :=
  match ToolParams.path params with
  | Some (String c s) =>
      doUploadFile
        {| UploadFileParams.path := String c s;
           UploadFileParams.fileName := ToolParams.fileName params;
           UploadFileParams.fileType := ToolParams.fileType params;
           UploadFileParams.duration := ToolParams.duration params |}
  | _ => lift (errResult (NotAnError (JStr "'path' is required")))
  end.

Definition feishu_download_image (params : ToolParams.t) : M Envelope :=
  doDownloadImage
    {| DownloadImageParams.imageKey := ToolParams.imageKey params |}.

Definition feishu_download_file (params : ToolParams.t) : M Envelope :=
  doDownloadFile
    {| DownloadFileParams.messageId := ToolParams.messageId params;
       DownloadFileParams.fileKey := ToolParams.fileKey params;
       DownloadFileParams.type := ToolParams.type params |}.

Definition feishu_send_image (params : ToolParams.t) : M Envelope :=
  doSendImage
    {| SendImageParams.to := ToolParams.to params;
       SendImageParams.imageKey := ToolParams.imageKey params;
       SendImageParams.replyToMessageId := ToolParams.replyToMessageId params |}.

Definition feishu_send_file (params : ToolParams.t) : M Envelope :=
  doSendFile
    {| SendFileParams.to := ToolParams.to params;
       SendFileParams.fileKey := ToolParams.fileKey params;
       SendFileParams.replyToMessageId := ToolParams.replyToMessageId params |}.

End Facade.

(** ** Tool registration *)

Record Tool : Type := {
  name : string;
  execute : ToolParams.t -> M Envelope
}.

Fixpoint lookupChannel (key : string) (l : list (string * FeishuConfig))
  : option FeishuConfig :=
  match l with
  | [] => None
  | (k, c) :: l' => if String.eqb k key then Some c else lookupChannel key l'
  end.

(** The tools handed to [api.registerTool], in registration order; none when
    the credentials are missing or the media tools are switched off.  The
    optional logger calls are left out. *)
Definition registerFeishuMediaTools (w : World) (config : option ClawdbotConfig)
  : list Tool :=
  match config with
  | None => []
  | Some c =>
      match lookupChannel CH (channels c) with
      | None => []
      | Some feishuCfg =>
          if JS.falsy (appId feishuCfg) || JS.falsy (appSecret feishuCfg)
          then []
          else if negb (resolveToolsConfig_media w (tools feishuCfg))
          then []
          else
            [ {| name := "feishu_upload_image";
                 execute := feishu_upload_image w feishuCfg |};
              {| name := "feishu_upload_file";
                 execute := feishu_upload_file w feishuCfg |};
              {| name := "feishu_download_image";
                 execute := feishu_download_image w feishuCfg |};
              {| name := "feishu_download_file";
                 execute := feishu_download_file w feishuCfg |};
              {| name := "feishu_send_image";
                 execute := feishu_send_image w feishuCfg |};
              {| name := "feishu_send_file";
                 execute := feishu_send_file w feishuCfg |} ]
      end
  end.

(** ** The older variant of the facade

    The second copy of [media-tools.ts]: the helper is called [error], the
    pipelines [doFeishu...], the configuration is stored under the channel
    key [feishu], and the two upload tools answer a missing [path] with a
    text of their own. *)

Module Legacy.

Definition json (data : JsObject) : Envelope :=
  {| content := [ {| type := "text"; text := JSON.stringify data |} ];
     details := Some (DataDetails data);
     error := None |}.

Definition error (err : ErrValue) : Outcome Envelope :=
  match
    match err with
    | AnError m => Returned m
    | NotAnError v => stringOf v
    end
  with
  | Returned message =>
      Returned
        (Build_Envelope
           [ {| type := "text"; text := "Error: " ++ message |} ] None (Some message))
  | Raised thrown => Raised thrown
  end.

(** [{ channels: { feishu: feishuCfg } }] *)
Definition cfgOf (feishuCfg : FeishuConfig) : ClawdbotConfig :=
  {| channels := [ ("feishu", feishuCfg) ] |}.

Section Pipelines.

Variable w : World.
Variable feishuCfg : FeishuConfig.

Definition doFeishuUploadImage (params : UploadImageParams.t) : M Envelope :=
  tryCatch
    (let imagePath := UploadImageParams.path params in
     let imageType := JS.nullish (UploadImageParams.imageType params) "message" in
     let resolvedPath :=
       if JS.startsWith imagePath "~"
       then JS.replace imagePath "~" (JS.nullish (HOME w) EmptyString)
       else imagePath in
     found <- call w (ExistsSync resolvedPath) ;;
     if negb found
     then lift (error (AnError ("Image file not found: " ++ resolvedPath)))
     else
       result <- call w (UploadImage (cfgOf feishuCfg) resolvedPath imageType) ;;
       ret (json result))
    (fun err => lift (error err)).

Definition doFeishuUploadFile (params : UploadFileParams.t) : M Envelope :=
  tryCatch
    (let filePath := UploadFileParams.path params in
     let fileName := UploadFileParams.fileName params in
     let fileType := UploadFileParams.fileType params in
     let duration := UploadFileParams.duration params in
     let resolvedPath :=
       if JS.startsWith filePath "~"
       then JS.replace filePath "~" (JS.nullish (HOME w) EmptyString)
       else filePath in
     found <- call w (ExistsSync resolvedPath) ;;
     if negb found
     then lift (error (AnError ("File not found: " ++ resolvedPath)))
     else
       let name := JS.orElse fileName (NodePath.basename resolvedPath) in
       kind <- (if JS.falsy fileType
                then lift (detectFileType w name)
                else ret (JS.orElse fileType EmptyString)) ;;
       result <- call w (UploadFile (cfgOf feishuCfg) resolvedPath name kind
                                    duration) ;;
       ret (json result))
    (fun err => lift (error err)).

Definition doFeishuDownloadImage (params : DownloadImageParams.t) : M Envelope :=
  tryCatch
    (let imageKey := DownloadImageParams.imageKey params in
     result <- call w (DownloadImage (cfgOf feishuCfg) imageKey) ;;
     let base64 := Base64.encode (img_buffer result) in
     let dataUrl :=
       "data:" ++ JS.orElse (img_contentType result) "image/png"
               ++ ";base64," ++ base64 in
     ret (Build_Envelope
            [ {| type := "text";
                 text := "Downloaded image ("
                   ++ JS.showZ (Z.of_nat (List.length (img_buffer result)))
                   ++ " bytes, type: "
                   ++ JS.orElse (img_contentType result) "unknown" ++ ")" |} ]
            (Some (ImageDetails result dataUrl))
            None))
    (fun err => lift (error err)).

Definition doFeishuDownloadFile (params : DownloadFileParams.t) : M Envelope :=
  tryCatch
    (let messageId := DownloadFileParams.messageId params in
     let fileKey := DownloadFileParams.fileKey params in
     let kind := JS.nullish (DownloadFileParams.type params) "file" in
     result <- call w (DownloadMessageResource (cfgOf feishuCfg)
                                               messageId fileKey kind) ;;
     let base64 := Base64.encode (res_buffer result) in
     let dataUrl :=
       "data:" ++ JS.orElse (res_contentType result) "application/octet-stream"
               ++ ";base64," ++ base64 in
     ret (Build_Envelope
            [ {| type := "text";
                 text := "Downloaded file ("
                   ++ JS.showZ (Z.of_nat (List.length (res_buffer result)))
                   ++ " bytes, type: "
                   ++ JS.orElse (res_contentType result) "unknown"
                   ++ ", name: "
                   ++ JS.orElse (res_fileName result) "unknown" ++ ")" |} ]
            (Some (FileDetails result dataUrl))
            None))
    (fun err => lift (error err)).

Definition doFeishuSendImage (params : SendImageParams.t) : M Envelope :=
  tryCatch
    (let to := SendImageParams.to params in
     let imageKey := SendImageParams.imageKey params in
     let replyToMessageId := SendImageParams.replyToMessageId params in
     result <- call w (SendImage (cfgOf feishuCfg) to imageKey replyToMessageId) ;;
     ret (json result))
    (fun err => lift (error err)).

Definition doFeishuSendFile (params : SendFileParams.t) : M Envelope :=
  tryCatch
    (let to := SendFileParams.to params in
     let fileKey := SendFileParams.fileKey params in
     let replyToMessageId := SendFileParams.replyToMessageId params in
     result <- call w (SendFile (cfgOf feishuCfg) to fileKey replyToMessageId) ;;
     ret (json result))
    (fun err => lift (error err)).

(** *** The [execute] of each tool of the older variant *)

Definition feishu_upload_image (toolInput : ToolParams.t) : M Envelope :=
  match ToolParams.path toolInput with
  | Some (String c s) =>
      doFeishuUploadImage
        {| UploadImageParams.path := String c s;
           UploadImageParams.imageType := ToolParams.imageType toolInput |}
  | _ =>
      ret (Build_Envelope
             [ {| type := "text";
                  text := "Error: 'path' parameter is required (local file path to the image)" |} ]
             None
             (Some "Missing required parameter"))
  end.

Definition feishu_upload_file (toolInput : ToolParams.t) : M Envelope :=
  match ToolParams.path toolInput with
  | Some (String c s) =>
      doFeishuUploadFile
        {| UploadFileParams.path := String c s;
           UploadFileParams.fileName := ToolParams.fileName toolInput;
           UploadFileParams.fileType := ToolParams.fileType toolInput;
           UploadFileParams.duration := ToolParams.duration toolInput |}
  | _ =>
      ret (Build_Envelope
             [ {| type := "text";
                  text := "Error: 'path' parameter is required (local file path)" |} ]
             None
             (Some "Missing required parameter"))
  end.

Definition feishu_download_image (toolInput : ToolParams.t) : M Envelope :=
  doFeishuDownloadImage
    {| DownloadImageParams.imageKey := ToolParams.imageKey toolInput |}.

Definition feishu_download_file (toolInput : ToolParams.t) : M Envelope :=
  doFeishuDownloadFile
    {| DownloadFileParams.messageId := ToolParams.messageId toolInput;
       DownloadFileParams.fileKey := ToolParams.fileKey toolInput;
       DownloadFileParams.type := ToolParams.type toolInput |}.

Definition feishu_send_image (toolInput : ToolParams.t) : M Envelope :=
  doFeishuSendImage
    {| SendImageParams.to := ToolParams.to toolInput;
       SendImageParams.imageKey := ToolParams.imageKey toolInput;
       SendImageParams.replyToMessageId := ToolParams.replyToMessageId toolInput |}.

Definition feishu_send_file (toolInput : ToolParams.t) : M Envelope :=
  doFeishuSendFile
    {| SendFileParams.to := ToolParams.to toolInput;
       SendFileParams.fileKey := ToolParams.fileKey toolInput;
       SendFileParams.replyToMessageId := ToolParams.replyToMessageId toolInput |}.

End Pipelines.

(** [api.config?.channels?.feishu] selects the credentials of the older
    variant. *)
Definition registerFeishuMediaTools (w : World) (config : option ClawdbotConfig)
  : list Tool :=
  match config with
  | None => []
  | Some c =>
      match lookupChannel "feishu" (channels c) with
      | None => []
      | Some feishuCfg =>
          if JS.falsy (appId feishuCfg) || JS.falsy (appSecret feishuCfg)
          then []
          else if negb (resolveToolsConfig_media w (tools feishuCfg))
          then []
          else
            [ {| name := "feishu_upload_image";
                 execute := feishu_upload_image w feishuCfg |};
              {| name := "feishu_upload_file";
                 execute := feishu_upload_file w feishuCfg |};
              {| name := "feishu_download_image";
                 execute := feishu_download_image w feishuCfg |};
              {| name := "feishu_download_file";
                 execute := feishu_download_file w feishuCfg |};
              {| name := "feishu_send_image";
                 execute := feishu_send_image w feishuCfg |};
              {| name := "feishu_send_file";
                 execute := feishu_send_file w feishuCfg |} ]
      end
  end.

End Legacy.

(** ** The type classifier of [media.js] *)

Module MediaJs.

Definition lower (c : ascii) : ascii :=
  let n := nat_of_ascii c in
  if Nat.leb 65 n && Nat.leb n 90 then ascii_of_nat (n + 32) else c.

(** The text after the last ["."] of [s], when [s] has one. *)
Fixpoint extension (s : string) : option string :=
  match s with
  | EmptyString => None
  | String c s' =>
      match extension s' with
      | Some e => Some e
      | None => if Ascii.eqb c "." then Some s' else None
      end
  end.

Fixpoint lowercase (s : string) : string :=
  match s with
  | EmptyString => EmptyString
  | String c s' => String (lower c) (lowercase s')
  end.

(** Modelled from the spec: [detectFileType] lives in [media.js], which is
    missing.  Given a file name it looks the extension up, case-insensitive,
    in a fixed table ([.pdf] gives pdf, [.mp4] mp4, [.opus] opus,
    [.doc]/[.docx] doc, [.xls]/[.xlsx] xls, [.ppt]/[.pptx] ppt); an unknown
    or missing extension gives stream.  It never fails. *)
Definition detectFileType (fileName : string) : string :=
  match extension fileName with
  | None => "stream"
  | Some e =>
      let e := lowercase e in
      if String.eqb e "opus" then "opus"
      else if String.eqb e "mp4" then "mp4"
      else if String.eqb e "pdf" then "pdf"
      else if String.eqb e "doc" || String.eqb e "docx" then "doc"
      else if String.eqb e "xls" || String.eqb e "xlsx" then "xls"
      else if String.eqb e "ppt" || String.eqb e "pptx" then "ppt"
      else "stream"
  end.

End MediaJs.

(** ** Sample worlds and inputs *)

Module Sample.

Definition feishuCfg : FeishuConfig :=
  {| appId := Some "cli_a1"; appSecret := Some "s3cret";
     domain := Some "feishu"; tools := None |}.

(** Seventeen octets. *)
Definition payload : list byte :=
  [x89; x50; x4e; x47; x0d; x0a; x1a; x0a; x00; x00; x00; x0d; x49; x48;
   x44; x52; xff].

(** A world in the manner of a test double: the paths [found] accepts
    exist, uploads and sends answer with a key, downloads answer with
    [payload] and the content type [declared]; the classifier is the one
    modelled from the spec. *)
Definition stub (home : option string) (found : string -> bool)
                (declared : option string) : World :=
  {| HOME := home;
     existsSync := found;
     uploadImageFeishu := fun _ _ _ => Returned [("imageKey", JStr "img_123")];
     uploadFileFeishu := fun _ _ _ _ _ => Returned [("fileKey", JStr "file_456")];
     downloadImageFeishu := fun _ _ =>
       Returned {| img_buffer := payload; img_contentType := declared |};
     downloadMessageResourceFeishu := fun _ _ _ _ =>
       Returned {| res_buffer := payload; res_contentType := declared;
                   res_fileName := Some "report.pdf" |};
     sendImageFeishu := fun _ _ _ _ => Returned [("messageId", JStr "om_1")];
     sendFileFeishu := fun _ _ _ _ => Returned [("messageId", JStr "om_2")];
     detectFileType := fun n => Returned (MediaJs.detectFileType n);
     resolveToolsConfig_media := fun _ => true |}.

Definition world : World :=
  stub (Some "/home/u") (fun _ => true) (Some "image/png").

(** A world whose remote service rejects every request. *)
Definition failing : World :=
  {| HOME := None;
     existsSync := fun _ => true;
     uploadImageFeishu := fun _ _ _ => Raised (AnError "remote rejected");
     uploadFileFeishu := fun _ _ _ _ _ => Raised (AnError "remote rejected");
     downloadImageFeishu := fun _ _ => Raised (AnError "not found");
     downloadMessageResourceFeishu := fun _ _ _ _ => Raised (AnError "not found");
     sendImageFeishu := fun _ _ _ _ => Raised (NotAnError (JNum 404));
     sendFileFeishu := fun _ _ _ _ => Raised (NotAnError JUndefined);
     detectFileType := fun _ => Raised (AnError "classifier failed");
     resolveToolsConfig_media := fun _ => true |}.

End Sample.

(** ** Requests: the six operations as one tagged variant *)

Inductive Request : Type :=
| UploadImageRequest (params : UploadImageParams.t)
| UploadFileRequest (params : UploadFileParams.t)
| DownloadImageRequest (params : DownloadImageParams.t)
| DownloadFileRequest (params : DownloadFileParams.t)
| SendImageRequest (params : SendImageParams.t)
| SendFileRequest (params : SendFileParams.t).

(** The pipeline of the newer variant that serves a request. *)
Definition pipeline (w : World) (feishuCfg : FeishuConfig) (r : Request)
  : M Envelope :=
  match r with
  | UploadImageRequest p => doUploadImage w feishuCfg p
  | UploadFileRequest p => doUploadFile w feishuCfg p
  | DownloadImageRequest p => doDownloadImage w feishuCfg p
  | DownloadFileRequest p => doDownloadFile w feishuCfg p
  | SendImageRequest p => doSendImage w feishuCfg p
  | SendFileRequest p => doSendFile w feishuCfg p
  end.

(** Its counterpart in the older variant. *)
Definition legacyPipeline (w : World) (feishuCfg : FeishuConfig) (r : Request)
  : M Envelope :=
  match r with
  | UploadImageRequest p => Legacy.doFeishuUploadImage w feishuCfg p
  | UploadFileRequest p => Legacy.doFeishuUploadFile w feishuCfg p
  | DownloadImageRequest p => Legacy.doFeishuDownloadImage w feishuCfg p
  | DownloadFileRequest p => Legacy.doFeishuDownloadFile w feishuCfg p
  | SendImageRequest p => Legacy.doFeishuSendImage w feishuCfg p
  | SendFileRequest p => Legacy.doFeishuSendFile w feishuCfg p
  end.

(** ** Vocabulary of the properties *)

(** The envelope has a [details] property. *)
Definition hasDetails (e : Envelope) : bool :=
  match details e with Some _ => true | None => false end.

(** The envelope has an [error] property. *)
Definition hasError (e : Envelope) : bool :=
  match error e with Some _ => true | None => false end.

(** The first element of [content] is a text item. *)
Definition startsWithText (e : Envelope) : bool :=
  match content e with
  | item :: _ => String.eqb (type item) "text"
  | [] => false
  end.

(** The two shapes: exactly one of [details] and [error], and a text item
    first. *)
Definition wellShaped (e : Envelope) : bool :=
  xorb (hasDetails e) (hasError e) && startsWithText e.

(** The failure shape for a message. *)
Definition failureEnvelope (message : string) : Envelope :=
  {| content := [ {| type := "text"; text := "Error: " ++ message |} ];
     details := None;
     error := Some message |}.

(** The message of a failure: the [message] of an [Error], the string
    conversion of any other thrown value; none when that conversion
    throws. *)
Definition failureMessage (err : ErrValue) : option string :=
  match err with
  | AnError m => Some m
  | NotAnError v => JSString.toString v
  end.

(** What a thrown value leads to in a [catch] block that hands it to
    [errResult]: the failure envelope of its message, or the [TypeError] of
    the conversion. *)
Definition handled (err : ErrValue) : Outcome Envelope :=
  match failureMessage err with
  | Some message => Returned (failureEnvelope message)
  | None => Raised typeError
  end.

(** The primitives of a world throw only values that have a message. *)
Definition throwsPrintable {A : Type} (o : Outcome A) : Prop :=
  match o with
  | Returned _ => True
  | Raised err => failureMessage err <> None
  end.

Definition tame (w : World) : Prop :=
  (forall cfg image imageType,
      throwsPrintable (uploadImageFeishu w cfg image imageType))
  /\ (forall cfg file fileName fileType duration,
         throwsPrintable (uploadFileFeishu w cfg file fileName fileType duration))
  /\ (forall cfg imageKey, throwsPrintable (downloadImageFeishu w cfg imageKey))
  /\ (forall cfg messageId fileKey kind,
         throwsPrintable (downloadMessageResourceFeishu w cfg messageId fileKey kind))
  /\ (forall cfg to imageKey replyTo,
         throwsPrintable (sendImageFeishu w cfg to imageKey replyTo))
  /\ (forall cfg to fileKey replyTo,
         throwsPrintable (sendFileFeishu w cfg to fileKey replyTo))
  /\ (forall fileName, throwsPrintable (detectFileType w fileName)).

(** The file name [doUploadFile] uploads under. *)
Definition effectiveName (w : World) (p : UploadFileParams.t) : string :=
  JS.orElse (UploadFileParams.fileName p)
    (NodePath.basename (resolvePath (HOME w) (UploadFileParams.path p))).

(** The failures raised inside the pipeline of a request: by the path
    resolver (the file is not there), by the type classifier, or by the
    transfer primitive the pipeline reaches. *)
Inductive raisedInside (w : World) (feishuCfg : FeishuConfig)
  : Request -> ErrValue -> Prop :=
| ImageNotFound p :
    existsSync w (resolvePath (HOME w) (UploadImageParams.path p)) = false ->
    raisedInside w feishuCfg (UploadImageRequest p)
      (AnError ("Image file not found: "
                  ++ resolvePath (HOME w) (UploadImageParams.path p)))
| ImageUploadRaised p err :
    existsSync w (resolvePath (HOME w) (UploadImageParams.path p)) = true ->
    uploadImageFeishu w (buildCfg feishuCfg)
      (resolvePath (HOME w) (UploadImageParams.path p))
      (JS.nullish (UploadImageParams.imageType p) "message") = Raised err ->
    raisedInside w feishuCfg (UploadImageRequest p) err
| FileNotFound p :
    existsSync w (resolvePath (HOME w) (UploadFileParams.path p)) = false ->
    raisedInside w feishuCfg (UploadFileRequest p)
      (AnError ("File not found: "
                  ++ resolvePath (HOME w) (UploadFileParams.path p)))
| ClassifierRaised p err :
    existsSync w (resolvePath (HOME w) (UploadFileParams.path p)) = true ->
    JS.falsy (UploadFileParams.fileType p) = true ->
    detectFileType w (effectiveName w p) = Raised err ->
    raisedInside w feishuCfg (UploadFileRequest p) err
| FileUploadRaised p kind err :
    existsSync w (resolvePath (HOME w) (UploadFileParams.path p)) = true ->
    (if JS.falsy (UploadFileParams.fileType p)
     then detectFileType w (effectiveName w p)
     else Returned (JS.orElse (UploadFileParams.fileType p) EmptyString))
      = Returned kind ->
    uploadFileFeishu w (buildCfg feishuCfg)
      (resolvePath (HOME w) (UploadFileParams.path p))
      (effectiveName w p) kind (UploadFileParams.duration p) = Raised err ->
    raisedInside w feishuCfg (UploadFileRequest p) err
| ImageDownloadRaised p err :
    downloadImageFeishu w (buildCfg feishuCfg) (DownloadImageParams.imageKey p)
      = Raised err ->
    raisedInside w feishuCfg (DownloadImageRequest p) err
| FileDownloadRaised p err :
    downloadMessageResourceFeishu w (buildCfg feishuCfg)
      (DownloadFileParams.messageId p) (DownloadFileParams.fileKey p)
      (JS.nullish (DownloadFileParams.type p) "file") = Raised err ->
    raisedInside w feishuCfg (DownloadFileRequest p) err
| ImageSendRaised p err :
    sendImageFeishu w (buildCfg feishuCfg) (SendImageParams.to p)
      (SendImageParams.imageKey p) (SendImageParams.replyToMessageId p)
      = Raised err ->
    raisedInside w feishuCfg (SendImageRequest p) err
| FileSendRaised p err :
    sendFileFeishu w (buildCfg feishuCfg) (SendFileParams.to p)
      (SendFileParams.fileKey p) (SendFileParams.replyToMessageId p)
      = Raised err ->
    raisedInside w feishuCfg (SendFileRequest p) err.

(** The base64 portion of a data URL: the text after its last comma (the
    base64 alphabet has no comma). *)
Fixpoint base64Portion (url : string) : string :=
  match url with
  | EmptyString => EmptyString
  | String c s =>
      if JS.includesChar s ","
      then base64Portion s
      else if Ascii.eqb c "," then s else EmptyString
  end.

(** [s.includes(t)] *)
Fixpoint includes (s t : string) : bool :=
  String.prefix t s
  || match s with
     | EmptyString => false
     | String _ s' => includes s' t
     end.

(** A pipeline short-circuits when it returns a failure envelope without
    having called anything. *)
Definition shortCircuits (m : M Envelope) : Prop :=
  exists e, run m = (Returned e, []) /\ hasError e = true /\ hasDetails e = false.

(** The same outcomes for both variants: the world [wn] the newer variant
    runs in and the world [wo] the older one runs in have the same
    environment and filesystem, and their primitives answer alike, the newer
    one given the configuration under the channel key of the newer variant,
    the older one given it under the key of the older variant. *)
Definition sameOutcomes (wn wo : World) (feishuCfg : FeishuConfig) : Prop :=
  HOME wn = HOME wo
  /\ (forall p, existsSync wn p = existsSync wo p)
  /\ (forall fileName, detectFileType wn fileName = detectFileType wo fileName)
  /\ (forall image imageType,
      uploadImageFeishu wn (buildCfg feishuCfg) image imageType
      = uploadImageFeishu wo (Legacy.cfgOf feishuCfg) image imageType)
  /\ (forall file fileName fileType duration,
      uploadFileFeishu wn (buildCfg feishuCfg) file fileName fileType duration
      = uploadFileFeishu wo (Legacy.cfgOf feishuCfg) file fileName fileType duration)
  /\ (forall imageKey,
      downloadImageFeishu wn (buildCfg feishuCfg) imageKey
      = downloadImageFeishu wo (Legacy.cfgOf feishuCfg) imageKey)
  /\ (forall messageId fileKey kind,
      downloadMessageResourceFeishu wn (buildCfg feishuCfg) messageId fileKey kind
      = downloadMessageResourceFeishu wo (Legacy.cfgOf feishuCfg) messageId fileKey kind)
  /\ (forall to imageKey replyTo,
      sendImageFeishu wn (buildCfg feishuCfg) to imageKey replyTo
      = sendImageFeishu wo (Legacy.cfgOf feishuCfg) to imageKey replyTo)
  /\ (forall to fileKey replyTo,
      sendFileFeishu wn (buildCfg feishuCfg) to fileKey replyTo
      = sendFileFeishu wo (Legacy.cfgOf feishuCfg) to fileKey replyTo).

(** The same configuration under the channel key of the older variant. *)
Definition rekey (cfg : ClawdbotConfig) : ClawdbotConfig :=
  {| channels := map (fun entry => ("feishu", snd entry)) (channels cfg) |}.

(** The world in which the newer variant meets what the older variant meets
    in [w]: every primitive is the one of [w], given the configuration under
    the older key. *)
Definition rekeyed (w : World) : World :=
  {| HOME := HOME w;
     existsSync := existsSync w;
     uploadImageFeishu := fun cfg => uploadImageFeishu w (rekey cfg);
     uploadFileFeishu := fun cfg => uploadFileFeishu w (rekey cfg);
     downloadImageFeishu := fun cfg => downloadImageFeishu w (rekey cfg);
     downloadMessageResourceFeishu :=
       fun cfg => downloadMessageResourceFeishu w (rekey cfg);
     sendImageFeishu := fun cfg => sendImageFeishu w (rekey cfg);
     sendFileFeishu := fun cfg => sendFileFeishu w (rekey cfg);
     detectFileType := detectFileType w;
     resolveToolsConfig_media := resolveToolsConfig_media w |}.

(** What a download request obtains from the transfer client, when the
    primitive returns: the payload and the declared content type. *)
Definition downloaded (w : World) (feishuCfg : FeishuConfig) (r : Request)
  : option (list byte * option string) :=
  match r with
  | DownloadImageRequest p =>
      match downloadImageFeishu w (buildCfg feishuCfg)
              (DownloadImageParams.imageKey p) with
      | Returned result => Some (img_buffer result, img_contentType result)
      | Raised _ => None
      end
  | DownloadFileRequest p =>
      match downloadMessageResourceFeishu w (buildCfg feishuCfg)
              (DownloadFileParams.messageId p) (DownloadFileParams.fileKey p)
              (JS.nullish (DownloadFileParams.type p) "file") with
      | Returned result => Some (res_buffer result, res_contentType result)
      | Raised _ => None
      end
  | _ => None
  end.

(** The content type a download falls back on. *)
Definition defaultContentType (r : Request) : string :=
  match r with
  | DownloadImageRequest _ => "image/png"
  | _ => "application/octet-stream"
  end.

(** [details.dataUrl] of an envelope. *)
Definition dataUrlOf (e : Envelope) : option string :=
  match details e with
  | Some (ImageDetails _ url) => Some url
  | Some (FileDetails _ url) => Some url
  | _ => None
  end.

(** The summary text: [content[0].text]. *)
Definition summaryOf (e : Envelope) : option string :=
  match content e with
  | item :: _ => Some (text item)
  | [] => None
  end.

(** The transfer calls of a log. *)
Definition transferCalls (log : list Call) : list Call :=
  filter isTransferCall log.

Module Scenario.

(** [upload_file({path: "/tmp/report.pdf"})] *)
Definition uploadReport : UploadFileParams.t :=
  {| UploadFileParams.path := "/tmp/report.pdf";
     UploadFileParams.fileName := None;
     UploadFileParams.fileType := None;
     UploadFileParams.duration := None |}.

(** The same call with an empty [fileType]. *)
Definition uploadReportEmptyType : UploadFileParams.t :=
  {| UploadFileParams.path := "/tmp/report.pdf";
     UploadFileParams.fileName := None;
     UploadFileParams.fileType := Some EmptyString;
     UploadFileParams.duration := None |}.

(** [download_image({imageKey: "img_123"})] *)
Definition downloadImage : DownloadImageParams.t :=
  {| DownloadImageParams.imageKey := Some "img_123" |}.

(** [download_file({messageId: "om_9", fileKey: "file_456"})] *)
Definition downloadFile : DownloadFileParams.t :=
  {| DownloadFileParams.messageId := Some "om_9";
     DownloadFileParams.fileKey := Some "file_456";
     DownloadFileParams.type := None |}.

(** [upload_image({path: "~/photo.png"})] *)
Definition uploadPhoto : UploadImageParams.t :=
  {| UploadImageParams.path := "~/photo.png";
     UploadImageParams.imageType := None |}.

(** [send_image({to: "oc_1", imageKey: "img_123"})] *)
Definition sendImage : SendImageParams.t :=
  {| SendImageParams.to := Some "oc_1";
     SendImageParams.imageKey := Some "img_123";
     SendImageParams.replyToMessageId := None |}.

(** A world whose filesystem is empty. *)
Definition emptyDisk : World :=
  Sample.stub (Some "/home/u") (fun _ => false) (Some "image/png").

(** The world of the older variant: its primitives read the credentials
    under the channel key [feishu] and reject any other configuration. *)
Definition legacyWorld : World :=
  let known (cfg : ClawdbotConfig) : bool :=
    match lookupChannel "feishu" (channels cfg) with
    | Some _ => true
    | None => false
    end in
  let missing {A : Type} : Outcome A :=
    Raised (AnError "Feishu credentials not configured") in
  {| HOME := Some "/home/u";
     existsSync := fun _ => true;
     uploadImageFeishu := fun cfg _ _ =>
       if known cfg then Returned [("imageKey", JStr "img_123")] else missing;
     uploadFileFeishu := fun cfg _ _ _ _ =>
       if known cfg then Returned [("fileKey", JStr "file_456")] else missing;
     downloadImageFeishu := fun cfg _ =>
       if known cfg
       then Returned {| img_buffer := Sample.payload;
                        img_contentType := Some "image/png" |}
       else missing;
     downloadMessageResourceFeishu := fun cfg _ _ _ =>
       if known cfg
       then Returned {| res_buffer := Sample.payload;
                        res_contentType := Some "image/png";
                        res_fileName := Some "report.pdf" |}
       else missing;
     sendImageFeishu := fun cfg _ _ _ =>
       if known cfg then Returned [("messageId", JStr "om_1")] else missing;
     sendFileFeishu := fun cfg _ _ _ =>
       if known cfg then Returned [("messageId", JStr "om_2")] else missing;
     detectFileType := fun n => Returned (MediaJs.detectFileType n);
     resolveToolsConfig_media := fun _ => true |}.

(** A world whose remote service declares an empty content type. *)
Definition emptyContentType : World :=
  Sample.stub (Some "/home/u") (fun _ => true) (Some EmptyString).

(** The object [{ toString: 1 }]: a value [String()] cannot convert. *)
Definition opaque : JsValue := JObj [ ("toString", JNum 1) ].

(** A world whose primitives throw [thrown], whatever they are asked. *)
Definition throwing (thrown : JsValue) : World :=
  {| HOME := Some "/home/u";
     existsSync := fun _ => true;
     uploadImageFeishu := fun _ _ _ => Raised (NotAnError thrown);
     uploadFileFeishu := fun _ _ _ _ _ => Raised (NotAnError thrown);
     downloadImageFeishu := fun _ _ => Raised (NotAnError thrown);
     downloadMessageResourceFeishu := fun _ _ _ _ => Raised (NotAnError thrown);
     sendImageFeishu := fun _ _ _ _ => Raised (NotAnError thrown);
     sendFileFeishu := fun _ _ _ _ => Raised (NotAnError thrown);
     detectFileType := fun n => Returned (MediaJs.detectFileType n);
     resolveToolsConfig_media := fun _ => true |}.

End Scenario.

(** ** The six tools, by name *)

Inductive ToolId : Type :=
| UploadImageTool
| UploadFileTool
| DownloadImageTool
| DownloadFileTool
| SendImageTool
| SendFileTool.

Definition allTools : list ToolId :=
  [ UploadImageTool; UploadFileTool; DownloadImageTool; DownloadFileTool;
    SendImageTool; SendFileTool ].

(** The [name] a tool is registered under. *)
Definition toolName (t : ToolId) : string :=
  match t with
  | UploadImageTool => "feishu_upload_image"
  | UploadFileTool => "feishu_upload_file"
  | DownloadImageTool => "feishu_download_image"
  | DownloadFileTool => "feishu_download_file"
  | SendImageTool => "feishu_send_image"
  | SendFileTool => "feishu_send_file"
  end.

(** The [execute] of a tool in the newer variant. *)
Definition entryPoint (w : World) (feishuCfg : FeishuConfig) (t : ToolId)
  : ToolParams.t -> M Envelope :=
  match t with
  | UploadImageTool => feishu_upload_image w feishuCfg
  | UploadFileTool => feishu_upload_file w feishuCfg
  | DownloadImageTool => feishu_download_image w feishuCfg
  | DownloadFileTool => feishu_download_file w feishuCfg
  | SendImageTool => feishu_send_image w feishuCfg
  | SendFileTool => feishu_send_file w feishuCfg
  end.

(** The [execute] of a tool in the older variant. *)
Definition legacyEntryPoint (w : World) (feishuCfg : FeishuConfig) (t : ToolId)
  : ToolParams.t -> M Envelope :=
  match t with
  | UploadImageTool => Legacy.feishu_upload_image w feishuCfg
  | UploadFileTool => Legacy.feishu_upload_file w feishuCfg
  | DownloadImageTool => Legacy.feishu_download_image w feishuCfg
  | DownloadFileTool => Legacy.feishu_download_file w feishuCfg
  | SendImageTool => Legacy.feishu_send_image w feishuCfg
  | SendFileTool => Legacy.feishu_send_file w feishuCfg
  end.

(** The tools that read a local file. *)
Definition isUploadTool (t : ToolId) : bool :=
  match t with
  | UploadImageTool | UploadFileTool => true
  | _ => false
  end.

(** The requests that read a local file. *)
Definition isUpload (r : Request) : bool :=
  match r with
  | UploadImageRequest _ | UploadFileRequest _ => true
  | _ => false
  end.

(** The configuration a transfer call hands to its primitive. *)
Definition callCfg (c : Call) : option ClawdbotConfig :=
  match c with
  | ExistsSync _ => None
  | UploadImage cfg _ _ => Some cfg
  | UploadFile cfg _ _ _ _ => Some cfg
  | DownloadImage cfg _ => Some cfg
  | DownloadMessageResource cfg _ _ _ => Some cfg
  | SendImage cfg _ _ _ => Some cfg
  | SendFile cfg _ _ _ => Some cfg
  end.

(** The credentials are complete and the media tools are switched on. *)
Definition mediaToolsWanted (w : World) (feishuCfg : FeishuConfig) : bool :=
  negb (JS.falsy (appId feishuCfg)) && negb (JS.falsy (appSecret feishuCfg))
  && resolveToolsConfig_media w (tools feishuCfg).


Module HostScenario.

(** Credentials of another account, stored under the key of the older
    variant. *)
Definition otherCfg : FeishuConfig :=
  {| appId := Some "cli_old"; appSecret := Some "0ld";
     domain := Some "lark"; tools := None |}.

(** A host configuration with two channels. *)
Definition hostConfig : ClawdbotConfig :=
  {| channels := [ ("feishu", otherCfg); ("feishu-new", Sample.feishuCfg) ] |}.

(** The send-image tool as registered from [hostConfig]. *)
Definition sendImageTool : Tool :=
  {| name := "feishu_send_image";
     execute := feishu_send_image Sample.world Sample.feishuCfg |}.

(** [feishu_upload_image({path: "~/photo.png", imageType: ""})] *)
Definition uploadPhotoEmptyType : UploadImageParams.t :=
  {| UploadImageParams.path := "~/photo.png";
     UploadImageParams.imageType := Some EmptyString |}.

(** [{path: "/tmp/report.pdf"}] as the parameter object of a tool. *)
Definition reportParams : ToolParams.t :=
  {| ToolParams.path := Some "/tmp/report.pdf";
     ToolParams.imageType := None; ToolParams.fileName := None;
     ToolParams.fileType := None; ToolParams.duration := None;
     ToolParams.imageKey := None; ToolParams.messageId := None;
     ToolParams.fileKey := None; ToolParams.type := None;
     ToolParams.to := None; ToolParams.replyToMessageId := None |}.

End HostScenario.

(** * The onboarding adapter

    The functions of the second source file ([feishuOnboardingAdapter] and
    its helpers) that edit the configuration object and read the allowlist
    a user types.  The configuration is a
    plain JavaScript object here, since the code spreads whatever it finds;
    a string is its sequence of code units, each below 256. *)

(** ** Objects: property access, object literals with spread *)

Module JsObj.

(** [o[k]] on the own properties of an object; [undefined] when there is
    none. *)
Fixpoint get (o : JsObject) (k : string) : JsValue :=
  match o with
  | [] => JUndefined
  | (k', v) :: o' => if String.eqb k' k then v else get o' k
  end.

(** [{ ...o, [k]: v }]: an existing property keeps its place and takes the
    new value, a new property goes last. *)
Fixpoint set (o : JsObject) (k : string) (v : JsValue) : JsObject :=
  match o with
  | [] => [ (k, v) ]
  | (k', v') :: o' =>
      if String.eqb k' k then (k, v) :: o' else (k', v') :: set o' k v
  end.

(** The index properties of an array-like: ["0"], ["1"], ... *)
Fixpoint indexed (i : nat) (l : list JsValue) : JsObject :=
  match l with
  | [] => []
  | x :: l' => (JS.showZ (Z.of_nat i), x) :: indexed (S i) l'
  end.

(** The characters of a string, as one-character strings. *)
Definition chars (s : string) : list JsValue :=
  map (fun c => JStr (String c EmptyString)) (list_ascii_of_string s).

(** The own enumerable properties [{ ...v }] copies: those of an object, the
    index properties of an array or a string, none for any other value
    ([undefined] and [null] included). *)
Definition spread (v : JsValue) : JsObject :=
  match v with
  | JObj o => o
  | JArr l => indexed 0 l
  | JStr s => indexed 0 (chars s)
  | _ => []
  end.

(** [v?.[k]] for a data property: the property of an object, an index or the
    [length] of an array or a string, [undefined] otherwise.  Inherited
    methods are not values of the model. *)
Definition prop (v : JsValue) (k : string) : JsValue :=
  match v with
  | JObj o => get o k
  | JArr l =>
      if String.eqb k "length" then JNum (Z.of_nat (List.length l))
      else get (indexed 0 l) k
  | JStr s =>
      if String.eqb k "length" then JNum (Z.of_nat (String.length s))
      else get (indexed 0 (chars s)) k
  | _ => JUndefined
  end.

(** Truthiness. *)
Definition truthy (v : JsValue) : bool :=
  match v with
  | JUndefined | JNull => false
  | JBool b => b
  | JNum z => negb (Z.eqb z 0)
  | JStr s => negb (String.eqb s EmptyString)
  | JArr _ | JObj _ => true
  end.

(** [v ?? d] *)
Definition nullish (v d : JsValue) : JsValue :=
  match v with
  | JUndefined | JNull => d
  | _ => v
  end.

(** Neither an array nor a string: a value whose spread has no index
    properties. *)
Definition plain (v : JsValue) : bool :=
  match v with
  | JArr _ | JStr _ => false
  | _ => true
  end.

End JsObj.

(** ** [String.prototype.trim] and the allowlist parser *)

Module Text.

(** White space and line terminators among the code units below 256: TAB,
    LF, VT, FF, CR, SP and NBSP. *)
Definition isSpace (c : ascii) : bool :=
  let n := nat_of_ascii c in
  (Nat.leb 9 n && Nat.leb n 13) || Nat.eqb n 32 || Nat.eqb n 160.

Fixpoint trimStartList (l : list ascii) : list ascii :=
  match l with
  | c :: l' => if isSpace c then trimStartList l' else l
  | [] => []
  end.

(** [s.trim()] *)
Definition trim (s : string) : string :=
  string_of_list_ascii
    (rev (trimStartList (rev (trimStartList (list_ascii_of_string s))))).

(** The separators of [/[\n,;]+/]. *)
Definition isSeparator (c : ascii) : bool :=
  Nat.eqb (nat_of_ascii c) 10 || Ascii.eqb c "," || Ascii.eqb c ";".

(** [s.split(/[\n,;]+/g)]: the pieces between maximal runs of separators.
    [inRun] tells that the previous character was a separator; the head of
    the result is the piece being read. *)
Fixpoint splitFrom (inRun : bool) (s : string) : list string :=
  match s with
  | EmptyString => [ EmptyString ]
  | String c s' =>
      if isSeparator c
      then if inRun then splitFrom true s' else EmptyString :: splitFrom true s'
      else match splitFrom false s' with
           | piece :: pieces => String c piece :: pieces
           | [] => [ String c EmptyString ]
           end
  end.

Definition split (s : string) : list string := splitFrom false s.

(** [Boolean(s)] of a string. *)
Definition nonEmpty (s : string) : bool := negb (String.eqb s EmptyString).

(** [parts.join(sep)] *)
Definition join (sep : string) (parts : list string) : string :=
  String.concat sep parts.

End Text.

(** ** The prompter *)

(** A call to the wizard prompter.  The [validate] callbacks the code hands
    over are the prompter's business and are not part of the record. *)
Inductive PrompterCall : Type :=
| Note (message title : string)
| TextPrompt (message : string) (placeholder initialValue : option string)
| ConfirmPrompt (message : string) (initialValue : bool)
| SelectPrompt (message : string) (options : list (string * string))
               (initialValue : JsValue).

(** How a dialogue ends: with a value, the calls made and the answers not
    yet used; with the script of answers used up while a prompt is waiting;
    with a [TypeError]; or, where the code meets a value of a type its
    declarations exclude and JavaScript's coercions are not modelled, outside
    the model. *)
Inductive Prompted (A : Type) : Type :=
| Done (a : A) (transcript : list PrompterCall) (rest : list JsValue)
| Starved (transcript : list PrompterCall)
| Threw (transcript : list PrompterCall)
| Untyped (transcript : list PrompterCall).

Arguments Done {A} a transcript rest.
Arguments Starved {A} transcript.
Arguments Threw {A} transcript.
Arguments Untyped {A} transcript.

(** ** Configuration editing *)

Module Onboarding.

(** [(cfg.channels as Record<string, any>)?.[CH]] *)
Definition channelCfg (cfg : JsObject) : JsValue :=
  JsObj.prop (JsObj.get cfg "channels") CH.

(** [{ ...cfg, channels: { ...cfg.channels, [CH]: chCfg } }], the shape every
    setter returns. *)
Definition withChannel (cfg : JsObject) (chCfg : JsObject) : JsObject :=
  JsObj.set cfg "channels"
    (JObj (JsObj.set (JsObj.spread (JsObj.get cfg "channels")) CH (JObj chCfg))).

(** An array of strings as a value. *)
Definition strings (l : list string) : JsValue := JArr (map JStr l).

Section Setters.

(** [addWildcardAllowFrom] of the plugin SDK: given the current [allowFrom],
    the entries to allow, or nothing. *)
Variable addWildcardAllowFrom : JsValue -> option (list JsValue).

(** [None] when [String(entry)] throws for an entry of the helper. *)
Definition setFeishuDmPolicy (cfg : JsObject) (dmPolicy : string)
  : option JsObject :=
  let chCfg := channelCfg cfg in
  let base := JsObj.set (JsObj.spread chCfg) "dmPolicy" (JStr dmPolicy) in
  match
    (if String.eqb dmPolicy "open"
     then addWildcardAllowFrom (JsObj.prop chCfg "allowFrom")
     else None)
  with
  | Some entries =>
      match JSString.each entries with
      | Some allowFrom =>
          Some (withChannel cfg (JsObj.set base "allowFrom" (strings allowFrom)))
      | None => None
      end
  | None => Some (withChannel cfg base)
  end.

End Setters.

Definition setFeishuAllowFrom (cfg : JsObject) (allowFrom : list string)
  : JsObject :=
  let chCfg := channelCfg cfg in
  withChannel cfg (JsObj.set (JsObj.spread chCfg) "allowFrom" (strings allowFrom)).

Definition parseAllowFromInput (raw : string) : list string :=
  filter Text.nonEmpty (map Text.trim (Text.split raw)).

Definition setFeishuGroupPolicy (cfg : JsObject) (groupPolicy : string)
  : JsObject :=
  let chCfg := channelCfg cfg in
  withChannel cfg
    (JsObj.set (JsObj.set (JsObj.spread chCfg) "enabled" (JBool true))
               "groupPolicy" (JStr groupPolicy)).

Definition setFeishuGroupAllowFrom (cfg : JsObject) (groupAllowFrom : list string)
  : JsObject :=
  let chCfg := channelCfg cfg in
  withChannel cfg
    (JsObj.set (JsObj.spread chCfg) "groupAllowFrom" (strings groupAllowFrom)).

(** [dmPolicy.getCurrent] *)
Definition getCurrent (cfg : JsObject) : JsValue :=
  JsObj.nullish (JsObj.prop (channelCfg cfg) "dmPolicy") (JStr "pairing").

(** [feishuOnboardingAdapter.disable] *)
Definition disable (cfg : JsObject) : JsObject :=
  withChannel cfg (JsObj.set (JsObj.spread (channelCfg cfg)) "enabled" (JBool false)).

(** [[...new Set(l)]]: the first occurrence of every string, in order. *)
Fixpoint uniqueFrom (seen : list string) (l : list string) : list string :=
  match l with
  | [] => []
  | x :: l' =>
      if existsb (String.eqb x) seen
      then uniqueFrom seen l'
      else x :: uniqueFrom (x :: seen) l'
  end.

Definition unique (l : list string) : list string := uniqueFrom [] l.

Definition allowlistHelp : string :=
  Text.join JSON.newline
    [ "Allowlist Feishu DMs by open_id or user_id.";
      "You can find user open_id in Feishu admin console or via API.";
      "Examples:";
      "- ou_xxxxxxxxxxxxxxxxxxxxxxxxxxxxxxxx";
      "- on_xxxxxxxxxxxxxxxxxxxxxxxxxxxxxxxx" ].

(** The [existing] allowlist of [promptFeishuAllowFrom]. *)
Definition existingAllowFrom (cfg : JsObject) : JsValue :=
  JsObj.nullish (JsObj.prop (channelCfg cfg) "allowFrom") (JArr []).

(** The text prompt of the loop; [None] when [String(existing[0])]
    throws. *)
Definition allowFromPrompt (existing : JsValue) : option PrompterCall :=
  let ask := TextPrompt "Feishu allowFrom (user open_ids)"
                        (Some "ou_xxxxx, ou_yyyyy") in
  if JsObj.truthy (JsObj.prop existing "0")
  then option_map (fun first => ask (Some first))
         (JSString.toString (JsObj.prop existing "0"))
  else Some (ask None).

(** The [while (true)] loop of [promptFeishuAllowFrom]: one answer of the
    script per turn.  A conversion that throws, or an [existing] without a
    [map] method, ends it with the [TypeError]. *)
Fixpoint askAllowFrom (cfg : JsObject) (existing : JsValue)
                      (answers : list JsValue) (transcript : list PrompterCall)
  : Prompted JsObject :=
  match allowFromPrompt existing with
  | None => Threw transcript
  | Some prompt =>
      let asked := (transcript ++ [ prompt ])%list in
      match answers with
      | [] => Starved asked
      | entry :: rest =>
          match JSString.toString entry with
          | None => Threw asked
          | Some text =>
              match parseAllowFromInput text with
              | [] =>
                  askAllowFrom cfg existing rest
                    (asked ++ [ Note "Enter at least one user."
                                     "Feishu allowlist" ])%list
              | parts =>
                  match existing with
                  | JArr l =>
                      match JSString.each l with
                      | Some texts =>
                          Done (setFeishuAllowFrom cfg
                                  (unique (filter Text.nonEmpty
                                             (map Text.trim texts)
                                           ++ parts)%list))
                               asked rest
                      | None => Threw asked
                      end
                  | _ => Threw asked
                  end
              end
          end
      end
  end.

Definition promptFeishuAllowFrom (cfg : JsObject) (answers : list JsValue)
  : Prompted JsObject :=
  askAllowFrom cfg (existingAllowFrom cfg) answers
    [ Note allowlistHelp "Feishu allowlist" ].

End Onboarding.

Module OnboardingSample.

(** A configuration with another channel and a Feishu channel that has
    credentials and one allowed user. *)
Definition cfg : JsObject :=
  [ ("agents", JObj [ ("default", JStr "main") ]);
    ("channels",
     JObj [ ("telegram", JObj [ ("enabled", JBool true) ]);
            ("feishu-new",
             JObj [ ("appId", JStr "cli_a1"); ("appSecret", JStr "s3cret");
                    ("allowFrom", JArr [ JStr "ou_1" ]) ]) ]) ].

(** The wildcard helper of the SDK, in the manner of a test double. *)
Definition addWildcard (allowFrom : JsValue) : option (list JsValue) :=
  match allowFrom with
  | JArr l => Some (l ++ [ JStr "*" ])%list
  | _ => Some [ JStr "*" ]
  end.

End OnboardingSample.

(** ** Vocabulary of the onboarding properties *)

(** The edits the adapter makes to the channel configuration. *)
Inductive Edit : Type :=
| SetDmPolicy (dmPolicy : string)
| SetAllowFrom (allowFrom : list string)
| SetGroupPolicy (groupPolicy : string)
| SetGroupAllowFrom (groupAllowFrom : list string)
| Disable.

(** The configuration an edit returns; [None] when it throws, which only
    [setFeishuDmPolicy] can. *)
Definition applyEdit (addWildcardAllowFrom : JsValue -> option (list JsValue))
                     (e : Edit) (cfg : JsObject) : option JsObject :=
  match e with
  | SetDmPolicy p => Onboarding.setFeishuDmPolicy addWildcardAllowFrom cfg p
  | SetAllowFrom l => Some (Onboarding.setFeishuAllowFrom cfg l)
  | SetGroupPolicy p => Some (Onboarding.setFeishuGroupPolicy cfg p)
  | SetGroupAllowFrom l => Some (Onboarding.setFeishuGroupAllowFrom cfg l)
  | Disable => Some (Onboarding.disable cfg)
  end.

(** The fields of the channel configuration an edit may write. *)
Definition touched (e : Edit) : list string :=
  match e with
  | SetDmPolicy _ => [ "dmPolicy"; "allowFrom" ]
  | SetAllowFrom _ => [ "allowFrom" ]
  | SetGroupPolicy _ => [ "enabled"; "groupPolicy" ]
  | SetGroupAllowFrom _ => [ "groupAllowFrom" ]
  | Disable => [ "enabled" ]
  end.

(** An allowlist entry as the parser delivers it: not empty, no white space
    at either end, no separator inside. *)
Definition cleanEntry (e : string) : bool :=
  Text.nonEmpty e
  && String.eqb (Text.trim e) e
  && forallb (fun c => negb (Text.isSeparator c)) (list_ascii_of_string e).

(** Splitting at every separator, one by one: two separators in a row leave
    an empty piece between them.  The allowlist parser drops empty pieces,
    so it cannot tell this from splitting at runs. *)
Fixpoint splitEach (s : string) : list string :=
  match s with
  | EmptyString => [ EmptyString ]
  | String c s' =>
      if Text.isSeparator c
      then EmptyString :: splitEach s'
      else match splitEach s' with
           | piece :: pieces => String c piece :: pieces
           | [] => [ String c EmptyString ]
           end
  end.

(** The existing allowlist entries [promptFeishuAllowFrom] keeps, given
    their texts: each one trimmed, the empty ones dropped. *)
Definition keptEntries (texts : list string) : list string :=
  filter Text.nonEmpty (map Text.trim texts).

(** ** The wizard: [getStatus] and [configure] *)

(** A dialogue: it reads the answers of the prompter in the order of its
    prompts and records every call. *)
Definition P (A : Type) : Type :=
  list JsValue -> list PrompterCall -> Prompted A.

Definition pret {A : Type} (a : A) : P A :=
  fun answers transcript => Done a transcript answers.

Definition pbind {A B : Type} (m : P A) (k : A -> P B) : P B :=
  fun answers transcript =>
    match m answers transcript with
    | Done a transcript' answers' => k a answers' transcript'
    | Starved t => Starved t
    | Threw t => Threw t
    | Untyped t => Untyped t
    end.

(** [await prompter.note(message, title)] *)
Definition pnote (message title : string) : P unit :=
  fun answers transcript =>
    Done tt (transcript ++ [ Note message title ])%list answers.

(** [await prompter.text(...)], [.confirm(...)] or [.select(...)]: the next
    answer of the script. *)
Definition pask (c : PrompterCall) : P JsValue :=
  fun answers transcript =>
    match answers with
    | [] => Starved (transcript ++ [ c ])%list
    | a :: rest => Done a (transcript ++ [ c ])%list rest
    end.

Definition pthrow {A : Type} : P A := fun _ transcript => Threw transcript.

Definition puntyped {A : Type} : P A := fun _ transcript => Untyped transcript.

Declare Scope prompter_scope.
Delimit Scope prompter_scope with prompter.
Notation "x <~ m ;; k" := (pbind m (fun x => k))
  (at level 61, m at next level, right associativity) : prompter_scope.

Module Wizard.
Import Onboarding.
Local Open Scope prompter_scope.

(** What the adapter imports beside the prompter: the credential resolver of
    [accounts.js], the probe of [probe.js], two names of the plugin SDK and
    the two environment variables; and, since a thrown [Error] is known by
    its message only, the text [String(e)] gives for an [Error] with a given
    message (its name, a colon and the message, unless its class says
    otherwise). *)
Record Env : Type := {
  resolveFeishuCredentials : JsValue -> JsValue;
  probeFeishu : JsValue -> Outcome JsObject;
  formatDocsLink : string -> string -> string;
  DEFAULT_ACCOUNT_ID : string;
  FEISHU_APP_ID : option string;
  FEISHU_APP_SECRET : option string;
  describeError : string -> string
}.

(** [String(err)] of a caught value; [None] when it throws. *)
Definition errorString (env : Env) (err : ErrValue) : option string :=
  match err with
  | AnError m => Some (describeError env m)
  | NotAnError v => JSString.toString v
  end.

(** [String(e)] of the [TypeError] a failed conversion throws. *)
Definition typeErrorText : string := "TypeError: " ++ JSString.unconvertible.

(** [`${v}`] inside a dialogue. *)
Definition pstring (v : JsValue) : P string :=
  match JSString.toString v with
  | Some s => pret s
  | None => pthrow
  end.

(** [v?.trim()]: [undefined] for a missing value, the trimmed text for a
    string, a [TypeError] ([None]) for anything else. *)
Definition trimmed (v : JsValue) : option JsValue :=
  match v with
  | JUndefined | JNull => Some JUndefined
  | JStr s => Some (JStr (Text.trim s))
  | _ => None
  end.

(** [Boolean(feishuCfg?.appId?.trim() && feishuCfg?.appSecret?.trim())] *)
Definition hasConfigCreds (feishuCfg : JsValue) : option bool :=
  match trimmed (JsObj.prop feishuCfg "appId") with
  | None => None
  | Some a =>
      if JsObj.truthy a
      then match trimmed (JsObj.prop feishuCfg "appSecret") with
           | None => None
           | Some b => Some (JsObj.truthy b)
           end
      else Some false
  end.

(** [Boolean(process.env.X?.trim())] *)
Definition envSet (v : option string) : bool :=
  match v with
  | Some s => Text.nonEmpty (Text.trim s)
  | None => false
  end.



Definition noteFeishuCredentialHelp (env : Env) : P unit :=
  pnote
    (Text.join JSON.newline
       [ "1) Go to Feishu Open Platform (open.feishu.cn)";
         "2) Create a self-built app";
         "3) Get App ID and App Secret from Credentials page";
         "4) Enable required permissions: im:message, im:chat, contact:user.base:readonly";
         "5) Publish the app or add it to a test group";
         "Tip: you can also set FEISHU_APP_ID / FEISHU_APP_SECRET env vars.";
         "Docs: " ++ formatDocsLink env "/channels/feishu" "feishu" ])
    "Feishu credentials".

(** The two text prompts for the credentials, each answer converted to a
    string and trimmed before the next step. *)
Definition askCredentials : P (string * string) :=
  a <~ pask (TextPrompt "Enter Feishu App ID" None None) ;;
  appId <~ pstring a ;;
  s <~ pask (TextPrompt "Enter Feishu App Secret" None None) ;;
  appSecret <~ pstring s ;;
  pret (Text.trim appId, Text.trim appSecret).

(** [{ ...next, channels: { ..., [CH]: { ...chCfg, enabled: true } } }] *)
Definition enable (cfg : JsObject) : JsObject :=
  withChannel cfg (JsObj.set (JsObj.spread (channelCfg cfg)) "enabled" (JBool true)).

(** The configuration with [enabled], [appId] and [appSecret] written. *)
Definition withCredentials (cfg : JsObject) (appId appSecret : string) : JsObject :=
  withChannel cfg
    (JsObj.set
       (JsObj.set (JsObj.set (JsObj.spread (channelCfg cfg)) "enabled" (JBool true))
                  "appId" (JStr appId))
       "appSecret" (JStr appSecret)).

(** The connection test.  Whatever is thrown inside the [try] (by the
    probe, or by a conversion in one of the two template literals) is
    reported in a note of its own, made from [String(err)]; when that
    conversion throws in its turn, nothing catches it. *)
Definition testConnection (env : Env) (testCfg : JsValue) : P unit :=
  let title := "Feishu connection test" in
  let caught (err : ErrValue) : P unit :=
    match errorString env err with
    | Some text => pnote ("Connection test failed: " ++ text) title
    | None => pthrow
    end in
  let caughtTypeError : P unit :=
    pnote ("Connection test failed: " ++ typeErrorText) title in
  match probeFeishu env testCfg with
  | Returned probe =>
      if JsObj.truthy (JsObj.get probe "ok")
      then match JSString.toString
                   (JsObj.nullish (JsObj.get probe "botName")
                      (JsObj.nullish (JsObj.get probe "botOpenId")
                         (JStr "bot"))) with
           | Some name => pnote ("Connected as " ++ name) title
           | None => caughtTypeError
           end
      else match JSString.toString
                   (JsObj.nullish (JsObj.get probe "error")
                      (JStr "unknown error")) with
           | Some reason => pnote ("Connection failed: " ++ reason) title
           | None => caughtTypeError
           end
  | Raised err => caught err
  end.

(** The first part of [configure]: which credentials to use.  The result is
    the configuration so far and the credentials typed, if any were asked
    for. *)
Definition chooseCredentials (env : Env) (cfg : JsObject) (hasCreds : bool)
  : P (JsObject * option (string * string)) :=
  let canUseEnv :=
    negb hasCreds && envSet (FEISHU_APP_ID env) && envSet (FEISHU_APP_SECRET env) in
  if canUseEnv then
    keepEnv <~ pask (ConfirmPrompt
                       "FEISHU_APP_ID + FEISHU_APP_SECRET detected. Use env vars?"
                       true) ;;
    if JsObj.truthy keepEnv then pret (enable cfg, None)
    else c <~ askCredentials ;; pret (cfg, Some c)
  else if hasCreds then
    keep <~ pask (ConfirmPrompt
                    "Feishu credentials already configured. Keep them?" true) ;;
    if JsObj.truthy keep then pret (cfg, None)
    else c <~ askCredentials ;; pret (cfg, Some c)
  else
    c <~ askCredentials ;; pret (cfg, Some c).

(** [if (appId && appSecret) { ... }]: the credentials are stored and
    tested when both are non-empty. *)
Definition storeCredentials (env : Env) (next : JsObject)
                            (creds : option (string * string)) : P JsObject :=
  match creds with
  | Some (appId, appSecret) =>
      if Text.nonEmpty appId && Text.nonEmpty appSecret
      then
        let next' := withCredentials next appId appSecret in
        _ <~ testConnection env (channelCfg next') ;;
        pret next'
      else pret next
  | None => pret next
  end.

Definition chooseDomain (next : JsObject) : P JsObject :=
  let currentDomain :=
    JsObj.nullish (JsObj.prop (channelCfg next) "domain") (JStr "feishu") in
  domain <~ pask (SelectPrompt "Which Feishu domain?"
                    [ ("feishu", "Feishu (feishu.cn) - China");
                      ("lark", "Lark (larksuite.com) - International") ]
                    currentDomain) ;;
  if JsObj.truthy domain
  then pret (withChannel next
               (JsObj.set (JsObj.spread (channelCfg next)) "domain" domain))
  else pret next.

(** [existing.length > 0 ? existing.map(String).join(", ") : undefined] for
    an array; a conversion that throws ends the dialogue. *)
Definition groupInitialValue (existing : JsValue) : P (option string) :=
  match existing with
  | JArr [] => pret None
  | JArr l =>
      match JSString.each l with
      | Some texts => pret (Some (Text.join ", " texts))
      | None => pthrow
      end
  | _ => puntyped
  end.

Definition chooseGroups (next : JsObject) : P JsObject :=
  groupPolicy <~ pask (SelectPrompt "Group chat policy"
                         [ ("allowlist", "Allowlist - only respond in specific groups");
                           ("open", "Open - respond in all groups (requires mention)");
                           ("disabled", "Disabled - don't respond in groups") ]
                         (JsObj.nullish (JsObj.prop (channelCfg next) "groupPolicy")
                                        (JStr "allowlist"))) ;;
  if JsObj.truthy groupPolicy
  then match groupPolicy with
       | JStr policy =>
           let next := setFeishuGroupPolicy next policy in
           if String.eqb policy "allowlist"
           then
             let existing :=
               JsObj.nullish (JsObj.prop (channelCfg next) "groupAllowFrom")
                             (JArr []) in
             initialValue <~ groupInitialValue existing ;;
             entry <~ pask (TextPrompt "Group chat allowlist (chat_ids)"
                              (Some "oc_xxxxx, oc_yyyyy") initialValue) ;;
             if JsObj.truthy entry
             then
               text <~ pstring entry ;;
               match parseAllowFromInput text with
               | [] => pret next
               | parts => pret (setFeishuGroupAllowFrom next parts)
               end
             else pret next
           else pret next
       | _ => puntyped
       end
  else pret next.

Record ConfigureResult : Type := {
  cfg : JsObject;
  accountId : string
}.

(** [feishuOnboardingAdapter.configure] *)
Definition configure (env : Env) (cfg0 : JsObject) : P ConfigureResult :=
  let feishuCfg := channelCfg cfg0 in
  let resolved := resolveFeishuCredentials env feishuCfg in
  match hasConfigCreds feishuCfg with
  | None => pthrow
  | Some hasCreds =>
      _ <~ (if JsObj.truthy resolved then pret tt
            else noteFeishuCredentialHelp env) ;;
      chosen <~ chooseCredentials env cfg0 hasCreds ;;
      next <~ storeCredentials env (fst chosen) (snd chosen) ;;
      next <~ chooseDomain next ;;
      next <~ chooseGroups next ;;
      pret {| cfg := next; accountId := DEFAULT_ACCOUNT_ID env |}
  end.

End Wizard.

Module WizardSample.

(** An environment in the manner of a test double: credentials resolve when
    the channel has an [appId], the probe answers as given. *)
Definition env (probe : Outcome JsObject) : Wizard.Env :=
  {| Wizard.resolveFeishuCredentials := fun c => JsObj.prop c "appId";
     Wizard.probeFeishu := fun _ => probe;
     Wizard.formatDocsLink := fun path _ => "https://docs.example" ++ path;
     Wizard.DEFAULT_ACCOUNT_ID := "default";
     Wizard.FEISHU_APP_ID := None;
     Wizard.FEISHU_APP_SECRET := None;
     Wizard.describeError := fun m => "Error: " ++ m |}.

Definition connected : Outcome JsObject :=
  Returned [ ("ok", JBool true); ("botName", JStr "helper") ].


(** New credentials, the Lark domain, the allowlist policy, two groups. *)
Definition answers : list JsValue :=
  [ JStr " cli_b2 "; JStr "n3w"; JStr "lark"; JStr "allowlist";
    JStr "oc_1, oc_2" ].

End WizardSample.

(** ** Vocabulary of the wizard properties *)

(** [cfg'] is [cfg] with, at most, the Feishu channel rewritten, and of that
    channel no field outside [fields] changed. *)
Definition edited (fields : list string) (cfg cfg' : JsObject) : Prop :=
  cfg' = cfg
  \/ exists chCfg,
      cfg' = Onboarding.withChannel cfg chCfg
      /\ forall f, ~ In f fields ->
                   JsObj.get chCfg f
                   = JsObj.get (JsObj.spread (Onboarding.channelCfg cfg)) f.

(** The fields of the channel [configure] may write. *)
Definition wizardFields : list string :=
  [ "enabled"; "appId"; "appSecret"; "domain"; "groupPolicy"; "groupAllowFrom" ].








(** The calls of the prompter that wait for an answer. *)
Definition isPrompt (c : PrompterCall) : bool :=
  match c with
  | Note _ _ => false
  | _ => true
  end.

(** A dialogue of between [lo] and [hi] questions: when it ends with a
    value it has only added to the transcript, and has taken one answer from
    the front of the script for each of its prompts, [lo] to [hi] of them;
    and it runs out of answers only on a script shorter than [hi]. *)
Definition dialogue {A : Type} (lo hi : nat) (m : P A) : Prop :=
  forall answers transcript,
    match m answers transcript with
    | Done _ transcript' rest =>
        exists used asked,
          answers = (used ++ rest)%list
          /\ transcript' = (transcript ++ asked)%list
          /\ length (filter isPrompt asked) = length used
          /\ lo <= length used <= hi
    | Starved _ => length answers < hi
    | _ => True
    end.

Module OnboardingScript.

(** Two blank answers, then a list that repeats an entry, then one more
    answer. *)
Definition answers : list JsValue :=
  [ JStr " , "; JStr ""; JStr "ou_2, ou_1,ou_2"; JStr "x" ].

End OnboardingScript.

(** * Properties *)

(** ** The built-ins on known values *)

Example base64_rfc4648_vectors :
  map (fun s => Base64.encode (list_byte_of_string s))
      [ ""; "f"; "fo"; "foo"; "foob"; "fooba"; "foobar" ]
  = [ ""; "Zg=="; "Zm8="; "Zm9v"; "Zm9vYg=="; "Zm9vYmE="; "Zm9vYmFy" ].
Proof. reflexivity. Qed.

Example base64_rejects_bad_padding :
  map Base64.decode [ "Zg="; "Zg==Zg=="; "Z,=="; "=Zg=" ] = [ None; None; None; None ].
Proof. reflexivity. Qed.

Example basename_examples :
  map NodePath.basename [ "/tmp/report.pdf"; "/tmp/dir//"; "photo.png"; "/"; "" ]
  = [ "report.pdf"; "dir"; "photo.png"; ""; "" ].
Proof. reflexivity. Qed.

Example replace_examples :
  JS.replace "~/a~b" "~" "/home/u" = "/home/u/a~b"
  /\ JS.replace "~/x" "~" "/h$&$$" = "/h~$/x"
  /\ JS.replace "/x" "~" "/home/u" = "/x".
Proof. repeat split. Qed.

Example showZ_examples :
  map JS.showZ
      [ 0; 17; -4; 9007199254740993; 2 ^ 60; 10 ^ 21 - 1; 2 ^ 70; 10 ^ 23 ]%Z
  = [ "0"; "17"; "-4"; "9007199254740992"; "1152921504606847000"; "1e+21";
      "1.1805916207174113e+21"; "1e+23" ].
Proof. vm_compute. reflexivity. Qed.

Example toString_examples :
  map JSString.toString
      [ JArr [ JNum 1; JNull; JStr "a"; JArr [ JNum 2; JNum 3 ] ];
        JObj [ ("message", JStr "no") ];
        JObj [ ("toString", JNum 1) ];
        JArr [ JObj [ ("toString", JNull) ] ] ]
  = [ Some "1,,a,2,3"; Some "[object Object]"; None; None ].
Proof. reflexivity. Qed.

Example stringify_example :
  JSON.stringify [ ("imageKey", JStr "img_123"); ("size", JNum 42);
                   ("extra", JUndefined); ("tags", JArr []) ]
  = "{" ++ JSON.newline
        ++ "  " ++ JSON.quote "imageKey" ++ ": " ++ JSON.quote "img_123" ++ ","
        ++ JSON.newline
        ++ "  " ++ JSON.quote "size" ++ ": 42," ++ JSON.newline
        ++ "  " ++ JSON.quote "tags" ++ ": []" ++ JSON.newline
        ++ "}".
Proof. reflexivity. Qed.

Example registration_example :
  map name (registerFeishuMediaTools Sample.world (Some (buildCfg Sample.feishuCfg)))
  = [ "feishu_upload_image"; "feishu_upload_file"; "feishu_download_image";
      "feishu_download_file"; "feishu_send_image"; "feishu_send_file" ]
  /\ registerFeishuMediaTools Sample.world (Some (Legacy.cfgOf Sample.feishuCfg)) = []
  /\ registerFeishuMediaTools Sample.world None = [].
Proof. repeat split. Qed.

Example detectFileType_examples :
  map MediaJs.detectFileType
      [ "report.pdf"; "clip.MP4"; "voice.opus"; "a.docx"; "b.xls"; "c.pptx";
        "archive.zip"; "README" ]
  = [ "pdf"; "mp4"; "opus"; "doc"; "xls"; "ppt"; "stream"; "stream" ].
Proof. reflexivity. Qed.

(** ** Base64: decoding undoes encoding *)

Module Base64Facts.
Import Base64.

Lemma sextets_complete n : (n < 64)%N -> In n sextets.
Proof.
  intros H. unfold sextets.
  rewrite <- (N2Nat.id n). apply in_map. apply in_seq. lia.
Qed.

Lemma value_digit n : (n < 64)%N -> value (digit n) = Some n.
Proof.
  intros H.
  assert (A : forallb (fun k => match value (digit k) with
                                | Some m => N.eqb m k
                                | None => false
                                end) sextets = true) by (vm_compute; reflexivity).
  rewrite forallb_forall in A. specialize (A n (sextets_complete n H)).
  destruct (value (digit n)) as [m|]; [|discriminate].
  apply N.eqb_eq in A. now subst.
Qed.

Lemma digit_not_pad n : (n < 64)%N -> Ascii.eqb (digit n) pad = false.
Proof.
  intros H.
  assert (A : forallb (fun k => negb (Ascii.eqb (digit k) pad)) sextets = true)
    by (vm_compute; reflexivity).
  rewrite forallb_forall in A. specialize (A n (sextets_complete n H)).
  now apply negb_true_iff in A.
Qed.

Lemma digit_not_comma n : Ascii.eqb (digit n) "," = false.
Proof.
  destruct (N.ltb_spec n 64) as [H|H].
  - assert (A : forallb (fun k => negb (Ascii.eqb (digit k) ",")) sextets = true)
      by (vm_compute; reflexivity).
    rewrite forallb_forall in A. specialize (A n (sextets_complete n H)).
    now apply negb_true_iff in A.
  - unfold digit.
    replace (N.to_nat n) with (64 + (N.to_nat n - 64))%nat by lia.
    reflexivity.
Qed.

Lemma sextet_div i g :
  sextet i g = ((g / 2 ^ (6 * (3 - i))) mod 64)%N.
Proof.
  unfold sextet. rewrite N.shiftr_div_pow2.
  change 63%N with (N.ones 6). now rewrite N.land_ones.
Qed.

Lemma octet_div i g :
  octet i g = ((g / 2 ^ (8 * (2 - i))) mod 256)%N.
Proof.
  unfold octet. rewrite N.shiftr_div_pow2.
  change 255%N with (N.ones 8). now rewrite N.land_ones.
Qed.

Lemma sextet_bound i g : (sextet i g < 64)%N.
Proof. rewrite sextet_div. apply N.mod_lt. discriminate. Qed.

Ltac to_division :=
  repeat rewrite sextet_div; repeat rewrite octet_div;
  unfold group, ungroup;
  change (2 ^ (6 * (3 - 0)))%N with 262144%N;
  change (2 ^ (6 * (3 - 1)))%N with 4096%N;
  change (2 ^ (6 * (3 - 2)))%N with 64%N;
  change (2 ^ (6 * (3 - 3)))%N with 1%N;
  change (2 ^ (8 * (2 - 0)))%N with 65536%N;
  change (2 ^ (8 * (2 - 1)))%N with 256%N;
  change (2 ^ (8 * (2 - 2)))%N with 1%N.

Lemma regroup a b c :
  (a < 256)%N -> (b < 256)%N -> (c < 256)%N ->
  let g := group a b c in
  ungroup (sextet 0 g) (sextet 1 g) (sextet 2 g) (sextet 3 g) = g.
Proof.
  intros Ha Hb Hc g. subst g. to_division.
  zify. Z.to_euclidean_division_equations. lia.
Qed.

Ltac division := to_division; zify; Z.to_euclidean_division_equations; lia.

Lemma octets_of_group a b c :
  (a < 256)%N -> (b < 256)%N -> (c < 256)%N ->
  let g := group a b c in
  octet 0 g = a /\ octet 1 g = b /\ octet 2 g = c.
Proof. intros Ha Hb Hc g. subst g. repeat split; division. Qed.

Lemma octet_of_one a :
  (a < 256)%N ->
  let g := group a 0 0 in
  octet 0 (ungroup (sextet 0 g) (sextet 1 g) 0 0) = a.
Proof. intros Ha g. subst g. division. Qed.

Lemma octets_of_two a b :
  (a < 256)%N -> (b < 256)%N ->
  let g := group a b 0 in
  let h := ungroup (sextet 0 g) (sextet 1 g) (sextet 2 g) 0 in
  octet 0 h = a /\ octet 1 h = b.
Proof. intros Ha Hb g h. subst g h. split; division. Qed.

Lemma to_N_small b : (Byte.to_N b < 256)%N.
Proof. pose proof (Byte.to_N_bounded b). lia. Qed.

Lemma byteOf_to_N b : byteOf (Byte.to_N b) = b.
Proof. unfold byteOf. now rewrite Byte.of_to_N. Qed.

(** Induction over a list three elements at a time. *)
Lemma list_ind3 {A : Type} (P : list A -> Prop) :
  P [] -> (forall a, P [a]) -> (forall a b, P [a; b]) ->
  (forall a b c l, P l -> P (a :: b :: c :: l)) ->
  forall l, P l.
Proof.
  intros H0 H1 H2 H3.
  assert (A3 : forall l, P l /\ (forall a, P (a :: l)) /\ (forall a b, P (a :: b :: l))).
  { induction l as [|x l [IH0 [IH1 IH2]]]; repeat split; auto. }
  intros l. apply A3.
Qed.

Lemma decode_quad c0 c1 c2 c3 s0 s1 s2 s3 rest :
  value c0 = Some s0 -> value c1 = Some s1 ->
  value c2 = Some s2 -> value c3 = Some s3 ->
  Ascii.eqb c2 pad = false -> Ascii.eqb c3 pad = false ->
  decode (String c0 (String c1 (String c2 (String c3 rest))))
  = match decode rest with
    | Some bs =>
        let g := ungroup s0 s1 s2 s3 in
        Some (byteOf (octet 0 g) :: byteOf (octet 1 g) :: byteOf (octet 2 g) :: bs)
    | None => None
    end.
Proof.
  intros V0 V1 V2 V3 P2 P3. cbn [decode].
  rewrite V0, V1, P2, V2, P3, V3. reflexivity.
Qed.

Theorem decode_encode bs : decode (encode bs) = Some bs.
Proof.
  induction bs as [| a | a b | a b c rest IH] using list_ind3.
  - reflexivity.
  - cbn [encode decode].
    rewrite !value_digit by apply sextet_bound.
    change (Ascii.eqb pad pad) with true. cbn [andb String.eqb].
    rewrite octet_of_one by apply to_N_small.
    now rewrite byteOf_to_N.
  - cbn [encode decode].
    rewrite !value_digit by apply sextet_bound.
    change (Ascii.eqb pad pad) with true.
    rewrite digit_not_pad by apply sextet_bound. cbn [String.eqb].
    destruct (octets_of_two (Byte.to_N a) (Byte.to_N b)
                (to_N_small a) (to_N_small b)) as [E0 E1].
    cbv zeta in E0, E1 |- *. rewrite E0, E1.
    now rewrite !byteOf_to_N.
  - cbn [encode].
    rewrite (decode_quad _ _ _ _ _ _ _ _ _
               (value_digit _ (sextet_bound 0 _)) (value_digit _ (sextet_bound 1 _))
               (value_digit _ (sextet_bound 2 _)) (value_digit _ (sextet_bound 3 _))
               (digit_not_pad _ (sextet_bound 2 _)) (digit_not_pad _ (sextet_bound 3 _))).
    rewrite IH. cbv zeta.
    rewrite (regroup _ _ _ (to_N_small a) (to_N_small b) (to_N_small c)).
    destruct (octets_of_group _ _ _ (to_N_small a) (to_N_small b) (to_N_small c))
      as [E0 [E1 E2]].
    cbv zeta in E0, E1, E2. rewrite E0, E1, E2.
    now rewrite !byteOf_to_N.
Qed.

Lemma encode_no_comma bs : JS.includesChar (encode bs) "," = false.
Proof.
  induction bs as [| a | a b | a b c rest IH] using list_ind3;
    cbn [encode JS.includesChar]; rewrite ?digit_not_comma, ?IH; reflexivity.
Qed.

End Base64Facts.

(** ** Strings *)

Module StringFacts.

Lemma append_assoc (a b c : string) : (a ++ b) ++ c = a ++ (b ++ c).
Proof. induction a as [|x a IH]; cbn; [reflexivity | now rewrite IH]. Qed.

Lemma substring_all (s : string) : substring 0 (String.length s) s = s.
Proof. induction s as [|c s IH]; cbn; [reflexivity | now rewrite IH]. Qed.

Lemma includesChar_app (a b : string) (c : ascii) :
  JS.includesChar (a ++ b) c = JS.includesChar a c || JS.includesChar b c.
Proof.
  induction a as [|x a IH]; cbn; [reflexivity|].
  rewrite IH. now rewrite orb_assoc.
Qed.

(** A replacement text without [$] is inserted as it is. *)
Lemma getSubstitution_plain (matched before after r : string) :
  JS.includesChar r "$" = false ->
  JS.getSubstitution matched before after r = r.
Proof.
  induction r as [|c r IH]; [reflexivity|].
  cbn [JS.includesChar]. intros H. apply orb_false_iff in H as [Hc Hr].
  specialize (IH Hr).
  destruct c as [[] [] [] [] [] [] [] []];
    try discriminate Hc; cbn [JS.getSubstitution]; now rewrite IH.
Qed.

Lemma prefix_head (c : ascii) (rest : string) :
  String.prefix (String c EmptyString) (String c rest) = true.
Proof.
  cbn [String.prefix]. destruct (ascii_dec c c) as [_|N]; [|now elim N].
  now destruct rest.
Qed.

Lemma splitFirst_head (c : ascii) (rest : string) :
  JS.splitFirst (String c EmptyString) (String c rest) = Some (EmptyString, rest).
Proof.
  cbn [JS.splitFirst String.prefix].
  destruct (ascii_dec c c) as [_|N]; [|now elim N].
  destruct rest; cbn [String.length Nat.sub substring];
    rewrite ?Nat.sub_0_r, ?substring_all; reflexivity.
Qed.

Lemma base64Portion_last (before payload : string) :
  JS.includesChar payload "," = false ->
  base64Portion (before ++ String "," payload) = payload.
Proof.
  intros H. induction before as [|c before IH]; cbn [append base64Portion].
  - now rewrite H.
  - rewrite includesChar_app. cbn [JS.includesChar].
    rewrite Ascii.eqb_refl, orb_true_r. exact IH.
Qed.

End StringFacts.

(** ** The path resolver *)

Lemma resolvePath_tilde (home : option string) (rest : string) :
  resolvePath home (String "~" rest)
  = JS.getSubstitution "~" EmptyString rest (JS.nullish home EmptyString) ++ rest.
Proof.
  unfold resolvePath, JS.startsWith, JS.replace.
  rewrite StringFacts.prefix_head, StringFacts.splitFirst_head. reflexivity.
Qed.

Lemma resolvePath_other (home : option string) (p : string) :
  JS.startsWith p "~" = false -> resolvePath home p = p.
Proof. unfold resolvePath. now intros ->. Qed.

Lemma startsWith_tilde (p : string) :
  JS.startsWith p "~" = true -> exists rest, p = "~" ++ rest.
Proof.
  unfold JS.startsWith. destruct p as [|c rest]; cbn [String.prefix].
  - discriminate.
  - destruct (ascii_dec "~" c) as [<-|]; [|discriminate].
    intros _. now exists rest.
Qed.

(** C2 (amended).  For every input path that begins with [~], only that
    leading [~] is replaced: when the home-directory value (the empty string
    when it is undefined) has no [$], the resolved path is that value
    followed by the rest of the input path, and so it contains [~] exactly
    when the home-directory value or the rest of the path does. *)
Theorem home_expansion_replaces_leading_tilde (home : option string) (p : string) :
  JS.startsWith p "~" = true ->
  JS.includesChar (JS.nullish home EmptyString) "$" = false ->
  exists rest,
    p = "~" ++ rest
    /\ resolvePath home p = JS.nullish home EmptyString ++ rest
    /\ JS.includesChar (resolvePath home p) "~"
       = JS.includesChar (JS.nullish home EmptyString) "~"
         || JS.includesChar rest "~".
Proof.
  intros T H. destruct (startsWith_tilde p T) as [rest ->].
  exists rest. cbn [append].
  rewrite resolvePath_tilde, StringFacts.getSubstitution_plain by exact H.
  repeat split. apply StringFacts.includesChar_app.
Qed.

(** The expansion of [~/photo.png] under HOME=/home/u. *)
Lemma home_expansion_replaces_leading_tilde_witness :
  exists rest,
    "~/photo.png" = "~" ++ rest
    /\ resolvePath (Some "/home/u") "~/photo.png" = "/home/u" ++ rest
    /\ JS.includesChar (resolvePath (Some "/home/u") "~/photo.png") "~"
       = false || JS.includesChar rest "~".
Proof.
  exact (home_expansion_replaces_leading_tilde (Some "/home/u") "~/photo.png"
           eq_refl eq_refl).
Defined.

(** C2, as stated, fails: with HOME=/home/u the path [~/a~b] begins with [~]
    and its resolved path still contains one; and with HOME=/h$& the prefix
    is not replaced by the home-directory value, since [$&] in a replacement
    text stands for the matched [~]. *)
Lemma resolved_path_may_contain_tilde :
  JS.startsWith "~/a~b" "~" = true
  /\ resolvePath (Some "/home/u") "~/a~b" = "/home/u/a~b"
  /\ JS.includesChar (resolvePath (Some "/home/u") "~/a~b") "~" = true
  /\ resolvePath (Some "/h$&") "~/x" = "/h~/x".
Proof. repeat split. Qed.

(** ** Running the pipelines *)

Ltac unfold_pipelines :=
  unfold pipeline, legacyPipeline,
    feishu_upload_image, feishu_upload_file, feishu_download_image,
    feishu_download_file, feishu_send_image, feishu_send_file,
    doUploadImage, doUploadFile, doDownloadImage, doDownloadFile,
    doSendImage, doSendFile,
    Legacy.doFeishuUploadImage, Legacy.doFeishuUploadFile,
    Legacy.doFeishuDownloadImage, Legacy.doFeishuDownloadFile,
    Legacy.doFeishuSendImage, Legacy.doFeishuSendFile.

Ltac unfold_monad :=
  unfold run, tryCatch, bind, call, lift, ret;
  cbn [perform app fst snd negb
       UploadImageParams.path UploadImageParams.imageType
       UploadFileParams.path UploadFileParams.fileName
       UploadFileParams.fileType UploadFileParams.duration
       DownloadImageParams.imageKey
       DownloadFileParams.messageId DownloadFileParams.fileKey
       DownloadFileParams.type
       SendImageParams.to SendImageParams.imageKey
       SendImageParams.replyToMessageId
       SendFileParams.to SendFileParams.fileKey
       SendFileParams.replyToMessageId].

(** The handler of every pipeline. *)
Lemma errResult_handled (err : ErrValue) : errResult err = handled err.
Proof.
  destruct err as [m|v]; [reflexivity|].
  unfold errResult, handled, stringOf, failureMessage.
  destruct (JSString.toString v); reflexivity.
Qed.

Lemma legacy_error (err : ErrValue) : Legacy.error err = handled err.
Proof.
  destruct err as [m|v]; [reflexivity|].
  unfold Legacy.error, handled, stringOf, failureMessage.
  destruct (JSString.toString v); reflexivity.
Qed.

Lemma legacy_json (data : JsObject) : Legacy.json data = json data.
Proof. reflexivity. Qed.

(** How each pipeline runs, one equation per path through it. *)

Section Runs.

Variable w : World.
Variable feishuCfg : FeishuConfig.

Lemma run_doUploadImage (p : UploadImageParams.t) :
  let resolvedPath := resolvePath (HOME w) (UploadImageParams.path p) in
  let imageType := JS.nullish (UploadImageParams.imageType p) "message" in
  run (doUploadImage w feishuCfg p)
  = if existsSync w resolvedPath
    then (match uploadImageFeishu w (buildCfg feishuCfg) resolvedPath imageType with
          | Returned result => Returned (json result)
          | Raised err => handled err
          end,
          [ExistsSync resolvedPath;
           UploadImage (buildCfg feishuCfg) resolvedPath imageType])
    else (Returned (failureEnvelope ("Image file not found: " ++ resolvedPath)),
          [ExistsSync resolvedPath]).
Proof.
  unfold_pipelines; unfold_monad.
  destruct (existsSync w _); cbn [negb]; [|reflexivity].
  destruct (uploadImageFeishu w _ _ _); [reflexivity|].
  now rewrite errResult_handled.
Qed.

Lemma run_doUploadFile (p : UploadFileParams.t) :
  let resolvedPath := resolvePath (HOME w) (UploadFileParams.path p) in
  let name := effectiveName w p in
  run (doUploadFile w feishuCfg p)
  = if existsSync w resolvedPath
    then
      match (if JS.falsy (UploadFileParams.fileType p)
             then detectFileType w name
             else Returned (JS.orElse (UploadFileParams.fileType p) EmptyString)) with
      | Returned kind =>
          (match uploadFileFeishu w (buildCfg feishuCfg) resolvedPath name kind
                   (UploadFileParams.duration p) with
           | Returned result => Returned (json result)
           | Raised err => handled err
           end,
           [ExistsSync resolvedPath;
            UploadFile (buildCfg feishuCfg) resolvedPath name kind
                       (UploadFileParams.duration p)])
      | Raised err => (handled err, [ExistsSync resolvedPath])
      end
    else (Returned (failureEnvelope ("File not found: " ++ resolvedPath)),
          [ExistsSync resolvedPath]).
Proof.
  unfold_pipelines; unfold effectiveName; unfold_monad.
  destruct (existsSync w _); cbn [negb]; [|reflexivity].
  destruct (JS.falsy _).
  - destruct (detectFileType w _); [|now rewrite errResult_handled].
    destruct (uploadFileFeishu w _ _ _ _ _); [reflexivity|].
    now rewrite errResult_handled.
  - destruct (uploadFileFeishu w _ _ _ _ _); [reflexivity|].
    now rewrite errResult_handled.
Qed.

Lemma run_doDownloadImage (p : DownloadImageParams.t) :
  run (doDownloadImage w feishuCfg p)
  = (match downloadImageFeishu w (buildCfg feishuCfg)
             (DownloadImageParams.imageKey p) with
     | Returned result =>
         Returned
           {| content :=
                [ {| type := "text";
                     text := "Downloaded image ("
                       ++ JS.showZ (Z.of_nat (List.length (img_buffer result)))
                       ++ " bytes, type: "
                       ++ JS.orElse (img_contentType result) "unknown" ++ ")" |} ];
              details :=
                Some (ImageDetails result
                        ("data:" ++ JS.orElse (img_contentType result) "image/png"
                                 ++ ";base64,"
                                 ++ Base64.encode (img_buffer result)));
              error := None |}
     | Raised err => handled err
     end,
     [DownloadImage (buildCfg feishuCfg) (DownloadImageParams.imageKey p)]).
Proof.
  unfold_pipelines; unfold_monad.
  destruct (downloadImageFeishu w _ _); [reflexivity|].
  now rewrite errResult_handled.
Qed.

Lemma run_doDownloadFile (p : DownloadFileParams.t) :
  let kind := JS.nullish (DownloadFileParams.type p) "file" in
  run (doDownloadFile w feishuCfg p)
  = (match downloadMessageResourceFeishu w (buildCfg feishuCfg)
             (DownloadFileParams.messageId p) (DownloadFileParams.fileKey p)
             kind with
     | Returned result =>
         Returned
           {| content :=
                [ {| type := "text";
                     text := "Downloaded file ("
                       ++ JS.showZ (Z.of_nat (List.length (res_buffer result)))
                       ++ " bytes, type: "
                       ++ JS.orElse (res_contentType result) "unknown"
                       ++ ", name: "
                       ++ JS.orElse (res_fileName result) "unknown" ++ ")" |} ];
              details :=
                Some (FileDetails result
                        ("data:" ++ JS.orElse (res_contentType result)
                                              "application/octet-stream"
                                 ++ ";base64,"
                                 ++ Base64.encode (res_buffer result)));
              error := None |}
     | Raised err => handled err
     end,
     [DownloadMessageResource (buildCfg feishuCfg)
        (DownloadFileParams.messageId p) (DownloadFileParams.fileKey p) kind]).
Proof.
  unfold_pipelines; unfold_monad.
  destruct (downloadMessageResourceFeishu w _ _ _ _); [reflexivity|].
  now rewrite errResult_handled.
Qed.

Lemma run_doSendImage (p : SendImageParams.t) :
  run (doSendImage w feishuCfg p)
  = (match sendImageFeishu w (buildCfg feishuCfg) (SendImageParams.to p)
             (SendImageParams.imageKey p)
             (SendImageParams.replyToMessageId p) with
     | Returned result => Returned (json result)
     | Raised err => handled err
     end,
     [SendImage (buildCfg feishuCfg) (SendImageParams.to p)
        (SendImageParams.imageKey p) (SendImageParams.replyToMessageId p)]).
Proof.
  unfold_pipelines; unfold_monad.
  destruct (sendImageFeishu w _ _ _ _); [reflexivity|].
  now rewrite errResult_handled.
Qed.

Lemma run_doSendFile (p : SendFileParams.t) :
  run (doSendFile w feishuCfg p)
  = (match sendFileFeishu w (buildCfg feishuCfg) (SendFileParams.to p)
             (SendFileParams.fileKey p)
             (SendFileParams.replyToMessageId p) with
     | Returned result => Returned (json result)
     | Raised err => handled err
     end,
     [SendFile (buildCfg feishuCfg) (SendFileParams.to p)
        (SendFileParams.fileKey p) (SendFileParams.replyToMessageId p)]).
Proof.
  unfold_pipelines; unfold_monad.
  destruct (sendFileFeishu w _ _ _ _); [reflexivity|].
  now rewrite errResult_handled.
Qed.

End Runs.

(** ** The two envelope shapes *)

Lemma failureEnvelope_wellShaped (message : string) :
  wellShaped (failureEnvelope message) = true.
Proof. reflexivity. Qed.

Lemma json_wellShaped (data : JsObject) : wellShaped (json data) = true.
Proof. reflexivity. Qed.

(** What [handled] returns is a failure envelope. *)
Lemma handled_returned (err : ErrValue) (e : Envelope) :
  handled err = Returned e ->
  exists message, failureMessage err = Some message /\ e = failureEnvelope message.
Proof.
  unfold handled. destruct (failureMessage err) as [message|]; [|discriminate].
  intros [= <-]. now exists message.
Qed.

(** What [handled] throws is the [TypeError] of the conversion. *)
Lemma handled_raised (err thrown : ErrValue) :
  handled err = Raised thrown ->
  failureMessage err = None /\ thrown = typeError.
Proof.
  unfold handled. destruct (failureMessage err) as [message|]; [discriminate|].
  now intros [= <-].
Qed.

Lemma handled_printable (err : ErrValue) :
  failureMessage err <> None -> exists e, handled err = Returned e.
Proof.
  unfold handled. destruct (failureMessage err) as [message|]; [eauto|].
  intros N. now elim N.
Qed.

(** ** Failures raised inside a pipeline *)

(** A request meets at most one failure. *)
Lemma raisedInside_unique (w : World) (feishuCfg : FeishuConfig) (req : Request)
                          (err err' : ErrValue) :
  raisedInside w feishuCfg req err -> raisedInside w feishuCfg req err' ->
  err = err'.
Proof.
  intros H H'.
  destruct H; inversion H'; subst; try congruence;
    repeat match goal with
           | T : JS.falsy ?x = true, K : (if JS.falsy ?x then _ else _) = _ |- _ =>
               rewrite T in K
           end;
    congruence.
Qed.

(** How a pipeline ends: with what its handler makes of the failure raised
    inside it; or, when nothing failed, with a success envelope. *)
Lemma pipeline_ends (w : World) (feishuCfg : FeishuConfig) (req : Request) :
  exists log,
    (exists err,
        raisedInside w feishuCfg req err
        /\ run (pipeline w feishuCfg req) = (handled err, log))
    \/ ((forall err, ~ raisedInside w feishuCfg req err)
        /\ exists e,
            run (pipeline w feishuCfg req) = (Returned e, log)
            /\ hasError e = false /\ wellShaped e = true).
Proof.
  destruct req as [p|p|p|p|p|p]; cbn [pipeline].
  - rewrite run_doUploadImage. cbv zeta.
    destruct (existsSync w _) eqn:F.
    + destruct (uploadImageFeishu w _ _ _) as [result|err] eqn:U; eexists.
      * right. split; [intros err H; inversion H; congruence|].
        eexists. repeat split.
      * left. exists err. split; [now apply ImageUploadRaised | reflexivity].
    + eexists. left. eexists. split; [now apply ImageNotFound | reflexivity].
  - rewrite run_doUploadFile. cbv zeta.
    destruct (existsSync w _) eqn:F.
    + destruct (if JS.falsy _ then _ else _) as [kind|err] eqn:K.
      * destruct (uploadFileFeishu w _ _ _ _ _) as [result|err] eqn:U; eexists.
        -- right. split.
           ++ intros err H. inversion H; subst; try congruence.
              destruct (JS.falsy _); congruence.
           ++ eexists. repeat split.
        -- left. exists err.
           split; [now apply (FileUploadRaised _ _ _ kind) | reflexivity].
      * eexists. left. exists err. split; [|reflexivity].
        destruct (JS.falsy _) eqn:T; [|discriminate].
        now apply ClassifierRaised.
    + eexists. left. eexists. split; [now apply FileNotFound | reflexivity].
  - rewrite run_doDownloadImage.
    destruct (downloadImageFeishu w _ _) as [result|err] eqn:U; eexists.
    + right. split; [intros err H; inversion H; congruence|].
      eexists. repeat split.
    + left. exists err. split; [now apply ImageDownloadRaised | reflexivity].
  - rewrite run_doDownloadFile. cbv zeta.
    destruct (downloadMessageResourceFeishu w _ _ _ _) as [result|err] eqn:U;
      eexists.
    + right. split; [intros err H; inversion H; congruence|].
      eexists. repeat split.
    + left. exists err. split; [now apply FileDownloadRaised | reflexivity].
  - rewrite run_doSendImage.
    destruct (sendImageFeishu w _ _ _ _) as [result|err] eqn:U; eexists.
    + right. split; [intros err H; inversion H; congruence|].
      eexists. repeat split.
    + left. exists err. split; [now apply ImageSendRaised | reflexivity].
  - rewrite run_doSendFile.
    destruct (sendFileFeishu w _ _ _ _) as [result|err] eqn:U; eexists.
    + right. split; [intros err H; inversion H; congruence|].
      eexists. repeat split.
    + left. exists err. split; [now apply FileSendRaised | reflexivity].
Qed.

(** A failure raised inside a pipeline decides how it ends. *)
Lemma raisedInside_run (w : World) (feishuCfg : FeishuConfig) (req : Request)
                       (err : ErrValue) :
  raisedInside w feishuCfg req err ->
  exists log, run (pipeline w feishuCfg req) = (handled err, log).
Proof.
  intros H.
  destruct (pipeline_ends w feishuCfg req) as (log & [(err' & H' & R) | (Q & _)]).
  - rewrite (raisedInside_unique _ _ _ _ _ H H'). now exists log.
  - now elim (Q err).
Qed.

(** An envelope a pipeline returns has one of the two shapes. *)
Lemma pipeline_wellShaped (w : World) (feishuCfg : FeishuConfig) (req : Request)
                          (e : Envelope) (log : list Call) :
  run (pipeline w feishuCfg req) = (Returned e, log) -> wellShaped e = true.
Proof.
  intros R.
  destruct (pipeline_ends w feishuCfg req)
    as (log' & [(err & _ & R') | (_ & e' & R' & _ & S)]);
    rewrite R in R'; injection R' as E _.
  - symmetry in E. apply handled_returned in E as (message & _ & ->).
    reflexivity.
  - now subst.
Qed.

(** In a tame world the failures raised inside a pipeline have a message. *)
Lemma tame_raisedInside (w : World) (feishuCfg : FeishuConfig) (req : Request)
                        (err : ErrValue) :
  tame w -> raisedInside w feishuCfg req err -> failureMessage err <> None.
Proof.
  intros (UI & UF & DI & DF & SI & SF & DT) H.
  destruct H as [p F | p err F U | p F | p err F T C | p kind err F K U
                 | p err U | p err U | p err U | p err U];
    try discriminate.
  - specialize (UI (buildCfg feishuCfg)
                   (resolvePath (HOME w) (UploadImageParams.path p))
                   (JS.nullish (UploadImageParams.imageType p) "message")).
    now rewrite U in UI.
  - specialize (DT (effectiveName w p)). now rewrite C in DT.
  - specialize (UF (buildCfg feishuCfg)
                   (resolvePath (HOME w) (UploadFileParams.path p))
                   (effectiveName w p) kind (UploadFileParams.duration p)).
    now rewrite U in UF.
  - specialize (DI (buildCfg feishuCfg) (DownloadImageParams.imageKey p)).
    now rewrite U in DI.
  - specialize (DF (buildCfg feishuCfg) (DownloadFileParams.messageId p)
                   (DownloadFileParams.fileKey p)
                   (JS.nullish (DownloadFileParams.type p) "file")).
    now rewrite U in DF.
  - specialize (SI (buildCfg feishuCfg) (SendImageParams.to p)
                   (SendImageParams.imageKey p)
                   (SendImageParams.replyToMessageId p)).
    now rewrite U in SI.
  - specialize (SF (buildCfg feishuCfg) (SendFileParams.to p)
                   (SendFileParams.fileKey p)
                   (SendFileParams.replyToMessageId p)).
    now rewrite U in SF.
Qed.

(** In a tame world every pipeline returns. *)
Lemma tame_pipeline_returns (w : World) (feishuCfg : FeishuConfig) (req : Request) :
  tame w -> exists e log, run (pipeline w feishuCfg req) = (Returned e, log).
Proof.
  intros T.
  destruct (pipeline_ends w feishuCfg req)
    as (log & [(err & H & R) | (_ & e & R & _)]).
  - destruct (handled_printable err (tame_raisedInside _ _ _ _ T H)) as [e E].
    exists e, log. now rewrite R, E.
  - now exists e, log.
Qed.

(** C4 (amended).  Whatever failure is raised inside the pipeline of one of
    the six operations -- by the path resolver, by the type classifier or by
    a transfer primitive -- and has a message (an [Error], or any other
    thrown value that [String] converts), the operation returns the failure
    envelope: the text is "Error: " followed by the failure's message, the
    error field is that message, there are no details.  A thrown value that
    [String] cannot convert makes the handler throw in its turn: the
    operation then ends with that [TypeError] and returns no envelope. *)
Theorem raised_failures_are_returned
  (w : World) (feishuCfg : FeishuConfig) (req : Request) (err : ErrValue) :
  raisedInside w feishuCfg req err ->
  (forall message,
      failureMessage err = Some message ->
      exists log,
        run (pipeline w feishuCfg req)
        = (Returned {| content := [ {| type := "text";
                                       text := "Error: " ++ message |} ];
                       details := None;
                       error := Some message |},
           log))
  /\ (failureMessage err = None ->
      exists log, run (pipeline w feishuCfg req) = (Raised typeError, log)).
Proof.
  intros H. destruct (raisedInside_run w feishuCfg req err H) as [log R].
  unfold handled in R. split.
  - intros message M. rewrite M in R. now exists log.
  - intros M. rewrite M in R. now exists log.
Qed.

(** A send whose primitive throws the number 404. *)
Lemma raised_failures_are_returned_witness :
  exists log,
    run (pipeline Sample.failing Sample.feishuCfg
           (SendImageRequest Scenario.sendImage))
    = (Returned {| content := [ {| type := "text"; text := "Error: 404" |} ];
                   details := None;
                   error := Some "404" |},
       log).
Proof.
  exact (proj1 (raised_failures_are_returned Sample.failing Sample.feishuCfg
                  (SendImageRequest Scenario.sendImage) (NotAnError (JNum 404))
                  (ImageSendRaised Sample.failing Sample.feishuCfg
                     Scenario.sendImage (NotAnError (JNum 404)) eq_refl))
               "404" eq_refl).
Defined.

(** C4, as stated, fails: when the send primitive throws the object
    [{ toString: 1 }], [String(err)] throws inside the handler, and the
    operation propagates that [TypeError] instead of returning an
    envelope. *)
Lemma unconvertible_failure_propagates :
  raisedInside (Scenario.throwing Scenario.opaque) Sample.feishuCfg
    (SendImageRequest Scenario.sendImage) (NotAnError Scenario.opaque)
  /\ run (doSendImage (Scenario.throwing Scenario.opaque) Sample.feishuCfg
            Scenario.sendImage)
     = (Raised typeError,
        [SendImage (buildCfg Sample.feishuCfg) (Some "oc_1") (Some "img_123") None])
  /\ ~ exists e log,
         run (doSendImage (Scenario.throwing Scenario.opaque) Sample.feishuCfg
                Scenario.sendImage) = (Returned e, log).
Proof.
  split; [now apply ImageSendRaised|].
  split; [reflexivity|].
  intros (e & log & R). discriminate R.
Qed.

(** ** Entry points *)

(** What an entry point runs: its pipeline, or nothing at all. *)
Lemma entryPoint_runs (w : World) (feishuCfg : FeishuConfig) (t : ToolId)
                      (params : ToolParams.t) :
  (isUploadTool t = true /\ JS.falsy (ToolParams.path params) = true
   /\ run (entryPoint w feishuCfg t params)
      = (Returned (failureEnvelope "'path' is required"), []))
  \/ ((isUploadTool t = false \/ JS.falsy (ToolParams.path params) = false)
      /\ exists req, entryPoint w feishuCfg t params = pipeline w feishuCfg req).
Proof.
  destruct t; cbn [entryPoint isUploadTool].
  - unfold feishu_upload_image.
    destruct (ToolParams.path params) as [[|c s]|]; [now left | | now left].
    right. split; [now right|]. now exists (UploadImageRequest
      {| UploadImageParams.path := String c s;
         UploadImageParams.imageType := ToolParams.imageType params |}).
  - unfold feishu_upload_file.
    destruct (ToolParams.path params) as [[|c s]|]; [now left | | now left].
    right. split; [now right|]. now exists (UploadFileRequest
      {| UploadFileParams.path := String c s;
         UploadFileParams.fileName := ToolParams.fileName params;
         UploadFileParams.fileType := ToolParams.fileType params;
         UploadFileParams.duration := ToolParams.duration params |}).
  - right. split; [now left|].
    now exists (DownloadImageRequest
      {| DownloadImageParams.imageKey := ToolParams.imageKey params |}).
  - right. split; [now left|].
    now exists (DownloadFileRequest
      {| DownloadFileParams.messageId := ToolParams.messageId params;
         DownloadFileParams.fileKey := ToolParams.fileKey params;
         DownloadFileParams.type := ToolParams.type params |}).
  - right. split; [now left|].
    now exists (SendImageRequest
      {| SendImageParams.to := ToolParams.to params;
         SendImageParams.imageKey := ToolParams.imageKey params;
         SendImageParams.replyToMessageId := ToolParams.replyToMessageId params |}).
  - right. split; [now left|].
    now exists (SendFileRequest
      {| SendFileParams.to := ToolParams.to params;
         SendFileParams.fileKey := ToolParams.fileKey params;
         SendFileParams.replyToMessageId := ToolParams.replyToMessageId params |}).
Qed.

(** The registered tools are the six entry points, closed over the
    credentials of the channel. *)
Lemma registered_tools (w : World) (config : option ClawdbotConfig) :
  registerFeishuMediaTools w config = []
  \/ exists host feishuCfg,
      config = Some host
      /\ lookupChannel CH (channels host) = Some feishuCfg
      /\ mediaToolsWanted w feishuCfg = true
      /\ registerFeishuMediaTools w config
         = map (fun t => {| name := toolName t;
                            execute := entryPoint w feishuCfg t |}) allTools.
Proof.
  unfold registerFeishuMediaTools, mediaToolsWanted.
  destruct config as [host|]; [|now left].
  destruct (lookupChannel CH (channels host)) as [feishuCfg|] eqn:L; [|now left].
  destruct (JS.falsy (appId feishuCfg)) eqn:A; [now left|].
  destruct (JS.falsy (appSecret feishuCfg)) eqn:S; [now left|].
  destruct (resolveToolsConfig_media w (tools feishuCfg)) eqn:T; [|now left].
  right. exists host, feishuCfg.
  split; [reflexivity|]. split; [exact L|]. rewrite A, S, T. split; reflexivity.
Qed.

(** An envelope an entry point returns has one of the two shapes. *)
Lemma entryPoint_wellShaped (w : World) (feishuCfg : FeishuConfig) (t : ToolId)
                            (params : ToolParams.t) (e : Envelope)
                            (log : list Call) :
  run (entryPoint w feishuCfg t params) = (Returned e, log) ->
  wellShaped e = true.
Proof.
  destruct (entryPoint_runs w feishuCfg t params)
    as [(_ & _ & R) | (_ & req & ->)].
  - rewrite R. now intros [= <- _].
  - apply pipeline_wellShaped.
Qed.

(** In a tame world every entry point returns. *)
Lemma tame_entryPoint_returns (w : World) (feishuCfg : FeishuConfig) (t : ToolId)
                              (params : ToolParams.t) :
  tame w ->
  exists e log, run (entryPoint w feishuCfg t params) = (Returned e, log).
Proof.
  intros T.
  destruct (entryPoint_runs w feishuCfg t params)
    as [(_ & _ & R) | (_ & req & ->)].
  - eauto.
  - now apply tame_pipeline_returns.
Qed.

(** C5.  Every envelope returned by one of the six operations -- by its
    pipeline on every request, and by every registered tool on every
    parameter object, whatever the transfer client answers -- has exactly one
    of [details] and [error], and a [content] array that starts with a text
    item.  And an envelope is returned, by every pipeline and every
    registered tool, whenever the primitives throw only values that have a
    message. *)
Theorem envelopes_have_exactly_one_shape (w : World) :
  (forall feishuCfg req e log,
      run (pipeline w feishuCfg req) = (Returned e, log) ->
      xorb (hasDetails e) (hasError e) = true /\ startsWithText e = true)
  /\ (forall config,
         Forall (fun tool =>
                   forall params e log,
                     run (execute tool params) = (Returned e, log) ->
                     xorb (hasDetails e) (hasError e) = true
                     /\ startsWithText e = true)
           (registerFeishuMediaTools w config))
  /\ (tame w ->
      (forall feishuCfg req,
          exists e log, run (pipeline w feishuCfg req) = (Returned e, log))
      /\ (forall config,
             Forall (fun tool =>
                       forall params,
                         exists e log,
                           run (execute tool params) = (Returned e, log))
               (registerFeishuMediaTools w config))).
Proof.
  split; [|split].
  - intros feishuCfg req e log R.
    apply andb_true_iff. exact (pipeline_wellShaped _ _ _ _ _ R).
  - intros config. apply Forall_forall. intros tool I params e log R.
    destruct (registered_tools w config) as [E | (host & feishuCfg & _ & _ & _ & E)];
      rewrite E in I; [destruct I|].
    apply in_map_iff in I as (t & <- & _). cbn [execute] in R.
    apply andb_true_iff. exact (entryPoint_wellShaped _ _ _ _ _ _ R).
  - intros T. split.
    + intros feishuCfg req. now apply tame_pipeline_returns.
    + intros config. apply Forall_forall. intros tool I params.
      destruct (registered_tools w config)
        as [E | (host & feishuCfg & _ & _ & _ & E)];
        rewrite E in I; [destruct I|].
      apply in_map_iff in I as (t & <- & _). cbn [execute].
      now apply tame_entryPoint_returns.
Qed.

(** The send of the world that rejects every request: it returns, and what
    it returns has an [error] and no [details]. *)
Lemma envelopes_have_exactly_one_shape_witness :
  (exists e log,
      run (pipeline Sample.failing Sample.feishuCfg
             (SendImageRequest Scenario.sendImage)) = (Returned e, log))
  /\ xorb (hasDetails (failureEnvelope "404")) (hasError (failureEnvelope "404"))
     = true
  /\ startsWithText (failureEnvelope "404") = true.
Proof.
  destruct (envelopes_have_exactly_one_shape Sample.failing) as (S & _ & T).
  split.
  - apply T. repeat split; intros; cbn; discriminate.
  - exact (S Sample.feishuCfg (SendImageRequest Scenario.sendImage)
             (failureEnvelope "404")
             [SendImage (buildCfg Sample.feishuCfg) (Some "oc_1")
                        (Some "img_123") None]
             eq_refl).
Defined.

(** ** Presence validation *)

(** C1 (amended).  The two upload tools check their [path]: when it is absent
    (or empty) they return the failure envelope of the fixed message
    ['path' is required] and call nothing.  The four download and send tools
    check nothing: on every call, whatever fields it has, present or absent,
    they pass them on, and their log is the one call to their transfer
    primitive. *)
Theorem missing_path_short_circuits
  (w : World) (feishuCfg : FeishuConfig) (params : ToolParams.t) :
  (JS.falsy (ToolParams.path params) = true ->
   run (feishu_upload_image w feishuCfg params)
   = (Returned {| content := [ {| type := "text";
                                  text := "Error: 'path' is required" |} ];
                  details := None;
                  error := Some "'path' is required" |}, [])
   /\ run (feishu_upload_file w feishuCfg params)
      = (Returned {| content := [ {| type := "text";
                                     text := "Error: 'path' is required" |} ];
                     details := None;
                     error := Some "'path' is required" |}, []))
  /\ snd (run (feishu_download_image w feishuCfg params))
     = [DownloadImage (buildCfg feishuCfg) (ToolParams.imageKey params)]
  /\ snd (run (feishu_download_file w feishuCfg params))
     = [DownloadMessageResource (buildCfg feishuCfg)
          (ToolParams.messageId params) (ToolParams.fileKey params)
          (JS.nullish (ToolParams.type params) "file")]
  /\ snd (run (feishu_send_image w feishuCfg params))
     = [SendImage (buildCfg feishuCfg) (ToolParams.to params)
          (ToolParams.imageKey params) (ToolParams.replyToMessageId params)]
  /\ snd (run (feishu_send_file w feishuCfg params))
     = [SendFile (buildCfg feishuCfg) (ToolParams.to params)
          (ToolParams.fileKey params) (ToolParams.replyToMessageId params)].
Proof.
  unfold feishu_upload_image, feishu_upload_file, feishu_download_image,
    feishu_download_file, feishu_send_image, feishu_send_file.
  rewrite run_doDownloadImage, run_doDownloadFile, run_doSendImage, run_doSendFile.
  repeat split.
  all: destruct (ToolParams.path params) as [[|c s]|]; try discriminate H;
    reflexivity.
Qed.

(** The six tools called with the empty object. *)
Lemma missing_path_short_circuits_witness :
  run (feishu_upload_image Sample.world Sample.feishuCfg ToolParams.empty)
  = (Returned (failureEnvelope "'path' is required"), [])
  /\ snd (run (feishu_send_image Sample.world Sample.feishuCfg ToolParams.empty))
     = [SendImage (buildCfg Sample.feishuCfg) None None None].
Proof.
  destruct (missing_path_short_circuits Sample.world Sample.feishuCfg
              ToolParams.empty) as (U & _ & _ & S & _).
  split; [exact (proj1 (U eq_refl)) | exact S].
Defined.

(** C1, as stated, fails: [feishu_download_image] called without its
    [imageKey] does not short-circuit; it calls the transfer client and, when
    that one answers, returns a success envelope. *)
Lemma missing_key_reaches_transfer_client :
  ToolParams.imageKey ToolParams.empty = None
  /\ ~ shortCircuits
         (feishu_download_image Sample.world Sample.feishuCfg ToolParams.empty)
  /\ snd (run (feishu_download_image Sample.world Sample.feishuCfg ToolParams.empty))
     = [DownloadImage (buildCfg Sample.feishuCfg) None]
  /\ (exists e, fst (run (feishu_download_image Sample.world Sample.feishuCfg
                            ToolParams.empty)) = Returned e
                /\ hasError e = false).
Proof.
  split; [reflexivity|]. split.
  - intros (e & R & _). unfold feishu_download_image in R.
    rewrite run_doDownloadImage in R. discriminate R.
  - unfold feishu_download_image. rewrite run_doDownloadImage.
    split; [reflexivity|]. eexists. split; reflexivity.
Qed.

(** ** The path resolver and the existence check *)

(** C8.  When the resolved path of an upload does not exist, the operation
    returns a failure envelope whose message carries the resolved path (the
    path after home-directory expansion), and the existence probe is the only
    call: no transfer primitive is invoked. *)
Theorem missing_file_is_reported (w : World) (feishuCfg : FeishuConfig) :
  (forall p : UploadImageParams.t,
      let resolvedPath := resolvePath (HOME w) (UploadImageParams.path p) in
      existsSync w resolvedPath = false ->
      run (doUploadImage w feishuCfg p)
      = (Returned
           {| content := [ {| type := "text";
                              text := "Error: Image file not found: " ++ resolvedPath |} ];
              details := None;
              error := Some ("Image file not found: " ++ resolvedPath) |},
         [ExistsSync resolvedPath])
      /\ transferCalls (snd (run (doUploadImage w feishuCfg p))) = [])
  /\ (forall p : UploadFileParams.t,
      let resolvedPath := resolvePath (HOME w) (UploadFileParams.path p) in
      existsSync w resolvedPath = false ->
      run (doUploadFile w feishuCfg p)
      = (Returned
           {| content := [ {| type := "text";
                              text := "Error: File not found: " ++ resolvedPath |} ];
              details := None;
              error := Some ("File not found: " ++ resolvedPath) |},
         [ExistsSync resolvedPath])
      /\ transferCalls (snd (run (doUploadFile w feishuCfg p))) = []).
Proof.
  split; intros p resolvedPath F.
  - rewrite run_doUploadImage. cbv zeta. fold resolvedPath. rewrite F.
    split; reflexivity.
  - rewrite run_doUploadFile. cbv zeta. fold resolvedPath. rewrite F.
    split; reflexivity.
Qed.

(** Both uploads on an empty disk. *)
Lemma missing_file_is_reported_witness :
  run (doUploadImage Scenario.emptyDisk Sample.feishuCfg Scenario.uploadPhoto)
  = (Returned (failureEnvelope "Image file not found: /home/u/photo.png"),
     [ExistsSync "/home/u/photo.png"])
  /\ run (doUploadFile Scenario.emptyDisk Sample.feishuCfg Scenario.uploadReport)
     = (Returned (failureEnvelope "File not found: /tmp/report.pdf"),
        [ExistsSync "/tmp/report.pdf"]).
Proof.
  destruct (missing_file_is_reported Scenario.emptyDisk Sample.feishuCfg) as [I F].
  split.
  - exact (proj1 (I Scenario.uploadPhoto eq_refl)).
  - exact (proj1 (F Scenario.uploadReport eq_refl)).
Defined.

(** ** Defaults of the optional fields *)

(** C9.  When the call omits [imageType], every call [doUploadImage] makes to
    the transfer client carries the image type "message" (and it makes that
    call whenever the resolved path exists); when the call omits [type],
    [doDownloadFile] calls the transfer client with the resource type
    "file". *)
Theorem omitted_fields_take_their_defaults (w : World) (feishuCfg : FeishuConfig) :
  (forall p : UploadImageParams.t,
      UploadImageParams.imageType p = None ->
      let resolvedPath := resolvePath (HOME w) (UploadImageParams.path p) in
      transferCalls (snd (run (doUploadImage w feishuCfg p)))
      = if existsSync w resolvedPath
        then [UploadImage (buildCfg feishuCfg) resolvedPath "message"]
        else [])
  /\ (forall p : DownloadFileParams.t,
         DownloadFileParams.type p = None ->
         transferCalls (snd (run (doDownloadFile w feishuCfg p)))
         = [DownloadMessageResource (buildCfg feishuCfg)
              (DownloadFileParams.messageId p) (DownloadFileParams.fileKey p)
              "file"]).
Proof.
  split.
  - intros p O resolvedPath. rewrite run_doUploadImage. cbv zeta.
    fold resolvedPath. rewrite O.
    destruct (existsSync w resolvedPath); reflexivity.
  - intros p O. rewrite run_doDownloadFile. cbv zeta. rewrite O. reflexivity.
Qed.

(** An upload and an attachment download that leave the optional field out. *)
Lemma omitted_fields_take_their_defaults_witness :
  transferCalls
    (snd (run (doUploadImage Sample.world Sample.feishuCfg Scenario.uploadPhoto)))
  = [UploadImage (buildCfg Sample.feishuCfg) "/home/u/photo.png" "message"]
  /\ transferCalls
       (snd (run (doDownloadFile Sample.world Sample.feishuCfg Scenario.downloadFile)))
     = [DownloadMessageResource (buildCfg Sample.feishuCfg)
          (Some "om_9") (Some "file_456") "file"].
Proof.
  destruct (omitted_fields_take_their_defaults Sample.world Sample.feishuCfg)
    as [I F].
  split.
  - exact (I Scenario.uploadPhoto eq_refl).
  - exact (F Scenario.downloadFile eq_refl).
Defined.

(** ** Binary downloads *)

(** The envelope of a download whose primitive returned. *)
Lemma run_download (w : World) (feishuCfg : FeishuConfig) (req : Request)
                   (payload : list byte) (declared : option string) :
  downloaded w feishuCfg req = Some (payload, declared) ->
  exists e log before after,
    run (pipeline w feishuCfg req) = (Returned e, log)
    /\ dataUrlOf e
       = Some ("data:" ++ JS.orElse declared (defaultContentType req)
                       ++ ";base64," ++ Base64.encode payload)
    /\ summaryOf e
       = Some (before ++ JS.showZ (Z.of_nat (List.length payload))
                      ++ " bytes" ++ after)
    /\ hasError e = false.
Proof.
  destruct req as [p|p|p|p|p|p]; cbn [downloaded pipeline]; try discriminate.
  - rewrite run_doDownloadImage.
    destruct (downloadImageFeishu w _ _) as [result|]; [|discriminate].
    intros [= <- <-].
    eexists; eexists; exists "Downloaded image (";
      exists (", type: " ++ JS.orElse (img_contentType result) "unknown" ++ ")").
    repeat split.
  - rewrite run_doDownloadFile. cbv zeta.
    destruct (downloadMessageResourceFeishu w _ _ _ _) as [result|]; [|discriminate].
    intros [= <- <-].
    eexists; eexists; exists "Downloaded file (";
      exists (", type: " ++ JS.orElse (res_contentType result) "unknown"
                ++ ", name: " ++ JS.orElse (res_fileName result) "unknown" ++ ")").
    repeat split.
Qed.

Lemma base64Portion_dataUrl (mime : string) (payload : list byte) :
  base64Portion ("data:" ++ mime ++ ";base64," ++ Base64.encode payload)
  = Base64.encode payload.
Proof.
  replace ("data:" ++ mime ++ ";base64," ++ Base64.encode payload)
    with (("data:" ++ mime ++ ";base64") ++ String "," (Base64.encode payload)).
  - apply StringFacts.base64Portion_last, Base64Facts.encode_no_comma.
  - rewrite !StringFacts.append_assoc. reflexivity.
Qed.

(** C3.  For every binary download (image or message attachment) and every
    byte payload the transfer client returns, the operation returns an
    envelope with a data URL of the form [data:<mime>;base64,<payload>], and
    the base64 portion of that URL decodes to the original payload, byte for
    byte. *)
Theorem download_payload_round_trips
  (w : World) (feishuCfg : FeishuConfig) (req : Request)
  (payload : list byte) (declared : option string) :
  downloaded w feishuCfg req = Some (payload, declared) ->
  exists e log url mime,
    run (pipeline w feishuCfg req) = (Returned e, log)
    /\ dataUrlOf e = Some url
    /\ url = "data:" ++ mime ++ ";base64," ++ base64Portion url
    /\ Base64.decode (base64Portion url) = Some payload.
Proof.
  intros D.
  destruct (run_download w feishuCfg req payload declared D)
    as (e & log & _ & _ & R & U & _).
  exists e, log. eexists. eexists.
  split; [exact R|]. split; [exact U|].
  rewrite base64Portion_dataUrl.
  split; [reflexivity | apply Base64Facts.decode_encode].
Qed.

(** The attachment download of the sample world. *)
Lemma download_payload_round_trips_witness :
  exists e log url mime,
    run (pipeline Sample.world Sample.feishuCfg
           (DownloadFileRequest Scenario.downloadFile)) = (Returned e, log)
    /\ dataUrlOf e = Some url
    /\ url = "data:" ++ mime ++ ";base64," ++ base64Portion url
    /\ Base64.decode (base64Portion url) = Some Sample.payload.
Proof.
  exact (download_payload_round_trips Sample.world Sample.feishuCfg
           (DownloadFileRequest Scenario.downloadFile)
           Sample.payload (Some "image/png") eq_refl).
Defined.

(** C6 (amended).  For every successful binary download the data URL of the
    details is "data:" + content type + ";base64," + the base64 payload,
    where the content type is the one the remote service declared when that
    is a non-empty string, and otherwise (none declared, or an empty one) the
    default: "image/png" for download_image, "application/octet-stream" for
    download_file.  The summary text states the byte count of the payload,
    followed by " bytes". *)
Theorem download_data_url
  (w : World) (feishuCfg : FeishuConfig) (req : Request)
  (payload : list byte) (declared : option string) :
  downloaded w feishuCfg req = Some (payload, declared) ->
  exists e log url summary,
    run (pipeline w feishuCfg req) = (Returned e, log)
    /\ hasError e = false
    /\ dataUrlOf e = Some url
    /\ (forall contentType,
           declared = Some contentType -> contentType <> EmptyString ->
           url = "data:" ++ contentType ++ ";base64," ++ Base64.encode payload)
    /\ (declared = None \/ declared = Some EmptyString ->
        url = "data:" ++ defaultContentType req ++ ";base64,"
                      ++ Base64.encode payload)
    /\ summaryOf e = Some summary
    /\ (exists before after,
           summary = before ++ JS.showZ (Z.of_nat (List.length payload))
                            ++ " bytes" ++ after).
Proof.
  intros D.
  destruct (run_download w feishuCfg req payload declared D)
    as (e & log & before & after & R & U & S & E).
  exists e, log. eexists. eexists.
  split; [exact R|]. split; [exact E|]. split; [exact U|].
  split; [|split; [|split; [exact S | eauto]]].
  - intros contentType -> N.
    destruct contentType; [now elim N | reflexivity].
  - intros [-> | ->]; reflexivity.
Qed.

(** The image download of the sample world: seventeen bytes of image/png. *)
Lemma download_data_url_witness :
  exists e log url summary,
    run (pipeline Sample.world Sample.feishuCfg
           (DownloadImageRequest Scenario.downloadImage)) = (Returned e, log)
    /\ dataUrlOf e = Some url
    /\ url = "data:image/png;base64," ++ Base64.encode Sample.payload
    /\ summaryOf e = Some summary
    /\ includes summary "17 bytes" = true.
Proof.
  destruct (download_data_url Sample.world Sample.feishuCfg
              (DownloadImageRequest Scenario.downloadImage)
              Sample.payload (Some "image/png") eq_refl)
    as (e & log & url & summary & R & _ & U & C & _ & S & _).
  exists e, log, url, summary.
  split; [exact R|]. split; [exact U|].
  split; [exact (C "image/png" eq_refl ltac:(discriminate))|].
  split; [exact S|].
  cbv in R. injection R as <- _. injection S as <-. reflexivity.
Defined.

(** C6, as stated, fails: when the remote service declares the empty string
    as content type, the data URL is built with the default and not with the
    declared value. *)
Lemma empty_content_type_is_replaced :
  downloaded Scenario.emptyContentType Sample.feishuCfg
    (DownloadImageRequest Scenario.downloadImage)
  = Some (Sample.payload, Some EmptyString)
  /\ exists e log,
      run (doDownloadImage Scenario.emptyContentType Sample.feishuCfg
             Scenario.downloadImage) = (Returned e, log)
      /\ dataUrlOf e = Some "data:image/png;base64,iVBORw0KGgoAAAANSUhEUv8="
      /\ dataUrlOf e
         <> Some ("data:" ++ EmptyString ++ ";base64,"
                          ++ Base64.encode Sample.payload).
Proof.
  split; [reflexivity|].
  eexists. eexists. split; [reflexivity|]. split; [reflexivity|].
  discriminate.
Qed.

(** ** The file type of an upload *)

(** C7 (amended).  In every upload_file call, a supplied non-empty
    [fileType] overrides the inference and reaches the transfer client
    unchanged; when [fileType] is absent or empty, the transfer client is
    called with what [detectFileType] returns for the effective file name,
    which is the supplied [fileName] when that is non-empty and the base name
    of the resolved path otherwise.  (The transfer client is called when the
    resolved path exists.)  With the classifier of the spec,
    [upload_file({path: "/tmp/report.pdf"})] calls the transfer client with
    the file type "pdf". *)
Theorem upload_file_type_selection (w : World) (feishuCfg : FeishuConfig) :
  (forall (p : UploadFileParams.t) (fileType : string),
      UploadFileParams.fileType p = Some fileType ->
      fileType <> EmptyString ->
      let resolvedPath := resolvePath (HOME w) (UploadFileParams.path p) in
      transferCalls (snd (run (doUploadFile w feishuCfg p)))
      = if existsSync w resolvedPath
        then [UploadFile (buildCfg feishuCfg) resolvedPath (effectiveName w p)
                fileType (UploadFileParams.duration p)]
        else [])
  /\ (forall (p : UploadFileParams.t) (kind : string),
         UploadFileParams.fileType p = None
         \/ UploadFileParams.fileType p = Some EmptyString ->
         detectFileType w (effectiveName w p) = Returned kind ->
         let resolvedPath := resolvePath (HOME w) (UploadFileParams.path p) in
         transferCalls (snd (run (doUploadFile w feishuCfg p)))
         = if existsSync w resolvedPath
           then [UploadFile (buildCfg feishuCfg) resolvedPath (effectiveName w p)
                   kind (UploadFileParams.duration p)]
           else [])
  /\ (forall (p : UploadFileParams.t) (fileName : string),
         UploadFileParams.fileName p = Some fileName ->
         fileName <> EmptyString ->
         effectiveName w p = fileName)
  /\ (forall p : UploadFileParams.t,
         UploadFileParams.fileName p = None
         \/ UploadFileParams.fileName p = Some EmptyString ->
         effectiveName w p
         = NodePath.basename (resolvePath (HOME w) (UploadFileParams.path p)))
  /\ (detectFileType w "report.pdf"
      = Returned (MediaJs.detectFileType "report.pdf") ->
      transferCalls (snd (run (doUploadFile w feishuCfg Scenario.uploadReport)))
      = if existsSync w "/tmp/report.pdf"
        then [UploadFile (buildCfg feishuCfg) "/tmp/report.pdf" "report.pdf"
                "pdf" None]
        else []).
Proof.
  repeat split.
  - intros p fileType T N resolvedPath. rewrite run_doUploadFile. cbv zeta.
    fold resolvedPath. rewrite T.
    destruct fileType; [now elim N|]. cbn [JS.falsy JS.orElse].
    destruct (existsSync w resolvedPath); reflexivity.
  - intros p kind T K resolvedPath. rewrite run_doUploadFile. cbv zeta.
    fold resolvedPath.
    destruct T as [T | T]; rewrite T; cbn [JS.falsy]; rewrite K;
      destruct (existsSync w resolvedPath); reflexivity.
  - intros p fileName E N. unfold effectiveName. rewrite E.
    destruct fileName; [now elim N | reflexivity].
  - intros p [E | E]; unfold effectiveName; rewrite E; reflexivity.
  - intros K. rewrite run_doUploadFile. cbv zeta.
    change (resolvePath (HOME w) (UploadFileParams.path Scenario.uploadReport))
      with "/tmp/report.pdf".
    change (effectiveName w Scenario.uploadReport) with "report.pdf".
    cbn [Scenario.uploadReport UploadFileParams.fileType JS.falsy].
    rewrite K. destruct (existsSync w "/tmp/report.pdf"); reflexivity.
Qed.

(** The upload of [/tmp/report.pdf] in the sample world. *)
Lemma upload_file_type_selection_witness :
  transferCalls
    (snd (run (doUploadFile Sample.world Sample.feishuCfg Scenario.uploadReport)))
  = [UploadFile (buildCfg Sample.feishuCfg) "/tmp/report.pdf" "report.pdf" "pdf" None].
Proof.
  exact (proj2 (proj2 (proj2 (proj2
           (upload_file_type_selection Sample.world Sample.feishuCfg)))) eq_refl).
Defined.

(** C7, as stated, fails: an explicitly supplied [fileType] that is the empty
    string does not override the inference; the transfer client is called
    with the inferred type, not with the supplied value. *)
Lemma empty_file_type_does_not_override :
  UploadFileParams.fileType Scenario.uploadReportEmptyType = Some EmptyString
  /\ transferCalls
       (snd (run (doUploadFile Sample.world Sample.feishuCfg
                    Scenario.uploadReportEmptyType)))
     = [UploadFile (buildCfg Sample.feishuCfg) "/tmp/report.pdf" "report.pdf"
          "pdf" None]
  /\ transferCalls
       (snd (run (doUploadFile Sample.world Sample.feishuCfg
                    Scenario.uploadReportEmptyType)))
     <> [UploadFile (buildCfg Sample.feishuCfg) "/tmp/report.pdf" "report.pdf"
           EmptyString None].
Proof. repeat split. discriminate. Qed.

(** ** The two variants of the facade *)

(** With the same outcomes of the primitives, the two variants end alike. *)
Lemma pipelines_agree
  (wn wo : World) (feishuCfg : FeishuConfig) (req : Request) :
  sameOutcomes wn wo feishuCfg ->
  fst (run (pipeline wn feishuCfg req))
  = fst (run (legacyPipeline wo feishuCfg req)).
Proof.
  intros (EH & EE & ET & UI & UF & DI & DF & SI & SF).
  destruct req as [p|p|p|p|p|p]; cbn [pipeline legacyPipeline].
  - rewrite run_doUploadImage. cbv zeta.
    unfold Legacy.doFeishuUploadImage, run, tryCatch, bind, call, ret, lift.
    cbn [perform app]. fold (resolvePath (HOME wo) (UploadImageParams.path p)).
    rewrite <- EH, <- EE, <- UI.
    destruct (existsSync wn _); cbn [negb]; [|reflexivity].
    destruct (uploadImageFeishu wn _ _ _); [reflexivity|].
    cbn [fst]. now rewrite legacy_error.
  - rewrite run_doUploadFile. cbv zeta.
    unfold Legacy.doFeishuUploadFile, effectiveName, run, tryCatch, bind, call,
      ret, lift.
    cbn [perform app]. fold (resolvePath (HOME wo) (UploadFileParams.path p)).
    rewrite <- EH, <- EE, <- ET.
    destruct (existsSync wn _); cbn [negb]; [|reflexivity].
    destruct (JS.falsy _).
    + destruct (detectFileType wn _); [|cbn [fst]; now rewrite legacy_error].
      rewrite <- UF. destruct (uploadFileFeishu wn _ _ _ _ _); [reflexivity|].
      cbn [fst]. now rewrite legacy_error.
    + rewrite <- UF. destruct (uploadFileFeishu wn _ _ _ _ _); [reflexivity|].
      cbn [fst]. now rewrite legacy_error.
  - rewrite run_doDownloadImage.
    unfold Legacy.doFeishuDownloadImage, run, tryCatch, bind, call, ret, lift.
    cbn [perform app]. rewrite <- DI.
    destruct (downloadImageFeishu wn _ _); [reflexivity|].
    cbn [fst]. now rewrite legacy_error.
  - rewrite run_doDownloadFile. cbv zeta.
    unfold Legacy.doFeishuDownloadFile, run, tryCatch, bind, call, ret, lift.
    cbn [perform app]. rewrite <- DF.
    destruct (downloadMessageResourceFeishu wn _ _ _ _); [reflexivity|].
    cbn [fst]. now rewrite legacy_error.
  - rewrite run_doSendImage.
    unfold Legacy.doFeishuSendImage, run, tryCatch, bind, call, ret, lift.
    cbn [perform app]. rewrite <- SI.
    destruct (sendImageFeishu wn _ _ _ _); [reflexivity|].
    cbn [fst]. now rewrite legacy_error.
  - rewrite run_doSendFile.
    unfold Legacy.doFeishuSendFile, run, tryCatch, bind, call, ret, lift.
    cbn [perform app]. rewrite <- SF.
    destruct (sendFileFeishu wn _ _ _ _); [reflexivity|].
    cbn [fst]. now rewrite legacy_error.
Qed.

(** A pipeline returns an envelope, unless a value without a message was
    thrown inside it: then it ends with the [TypeError]. *)
Lemma pipeline_returns_or_propagates
  (w : World) (feishuCfg : FeishuConfig) (req : Request) :
  (exists e, fst (run (pipeline w feishuCfg req)) = Returned e)
  \/ (exists thrown,
         raisedInside w feishuCfg req (NotAnError thrown)
         /\ JSString.toString thrown = None
         /\ fst (run (pipeline w feishuCfg req)) = Raised typeError).
Proof.
  destruct (pipeline_ends w feishuCfg req)
    as (log & [(err & H & R) | (_ & e & R & _)]); rewrite R; cbn [fst].
  - destruct (handled err) as [e|thrown] eqn:E; [left; now exists e|].
    apply handled_raised in E as [M ->].
    destruct err as [m|v]; [discriminate M|].
    right. now exists v.
  - left. now exists e.
Qed.

(** C10 (amended).  On the same request, with the same environment and the
    same outcome of the primitives (returned result or raised failure), each
    pipeline of the newer variant returns the envelope that its counterpart
    in the older variant returns.  The one exception is a primitive that
    throws a value [String] cannot convert: then neither variant returns an
    envelope, and both end with the same [TypeError]. *)
Theorem variants_return_equal_envelopes
  (wn wo : World) (feishuCfg : FeishuConfig) (req : Request) :
  sameOutcomes wn wo feishuCfg ->
  (exists e,
      fst (run (pipeline wn feishuCfg req)) = Returned e
      /\ fst (run (legacyPipeline wo feishuCfg req)) = Returned e)
  \/ (exists thrown,
         raisedInside wn feishuCfg req (NotAnError thrown)
         /\ JSString.toString thrown = None
         /\ fst (run (pipeline wn feishuCfg req)) = Raised typeError
         /\ fst (run (legacyPipeline wo feishuCfg req)) = Raised typeError).
Proof.
  intros S. pose proof (pipelines_agree wn wo feishuCfg req S) as A.
  destruct (pipeline_returns_or_propagates wn feishuCfg req)
    as [(e & R) | (thrown & H & N & R)]; rewrite R in A.
  - left. now exists e.
  - right. now exists thrown.
Qed.

(** The newer variant in its world, the older variant in its own. *)
Lemma variants_return_equal_envelopes_witness :
  exists e,
    fst (run (pipeline Sample.world Sample.feishuCfg
                (DownloadImageRequest Scenario.downloadImage))) = Returned e
    /\ fst (run (legacyPipeline Scenario.legacyWorld Sample.feishuCfg
                   (DownloadImageRequest Scenario.downloadImage))) = Returned e.
Proof.
  destruct (variants_return_equal_envelopes Sample.world Scenario.legacyWorld
              Sample.feishuCfg (DownloadImageRequest Scenario.downloadImage))
    as [E | (thrown & H & _)].
  - repeat split.
  - exact E.
  - inversion H. discriminate.
Defined.

(** C10, as stated, fails: when the primitive throws the object
    [{ toString: 1 }], the pipeline of the newer variant returns no envelope
    at all, and neither does its counterpart; both end with the
    [TypeError]. *)
Lemma variants_return_no_envelope :
  sameOutcomes (Scenario.throwing Scenario.opaque)
               (Scenario.throwing Scenario.opaque) Sample.feishuCfg
  /\ (forall e,
         fst (run (doSendFile (Scenario.throwing Scenario.opaque) Sample.feishuCfg
                     {| SendFileParams.to := Some "oc_1";
                        SendFileParams.fileKey := Some "file_456";
                        SendFileParams.replyToMessageId := None |}))
         <> Returned e)
  /\ fst (run (Legacy.doFeishuSendFile (Scenario.throwing Scenario.opaque)
                 Sample.feishuCfg
                 {| SendFileParams.to := Some "oc_1";
                    SendFileParams.fileKey := Some "file_456";
                    SendFileParams.replyToMessageId := None |}))
     = Raised typeError.
Proof.
  split; [repeat split|]. split; [|reflexivity].
  intros e. discriminate.
Qed.

(** * Further properties of the code *)

(** * Further properties of the facade *)

(** ** Errors are reported only when something failed *)

(** X1.  A pipeline that returns an envelope returns one with an [error]
    exactly when a failure was raised inside it (the file is not there, the
    classifier threw, the primitive threw); and whatever failure was raised
    inside it, the envelope returned is the failure envelope of that
    failure's message.  No error is reported for a run in which the path
    existed and the classifier and the primitive returned, and no failure is
    answered with a success. *)
Theorem error_envelope_iff_failure
  (w : World) (feishuCfg : FeishuConfig) (req : Request) :
  forall e log,
    run (pipeline w feishuCfg req) = (Returned e, log) ->
    (hasError e = true <-> exists err, raisedInside w feishuCfg req err)
    /\ (forall err,
           raisedInside w feishuCfg req err ->
           exists message,
             failureMessage err = Some message
             /\ e = failureEnvelope message).
Proof.
  intros e log R.
  destruct (pipeline_ends w feishuCfg req)
    as (log' & [(err & H & R') | (Q & e' & R' & E & _)]);
    rewrite R in R'; injection R' as R' _.
  - symmetry in R'. apply handled_returned in R' as (message & M & ->).
    split.
    + split; [intros _; now exists err | reflexivity].
    + intros err' H'. rewrite (raisedInside_unique _ _ _ _ _ H' H).
      now exists message.
  - subst e'. split.
    + split; [congruence | intros [err H]; now elim (Q err)].
    + intros err H. now elim (Q err).
Qed.

(** A send whose primitive throws the number 404. *)
Lemma error_envelope_iff_failure_witness :
  hasError (failureEnvelope "404") = true
  /\ exists message,
      failureMessage (NotAnError (JNum 404)) = Some message
      /\ failureEnvelope "404" = failureEnvelope message.
Proof.
  destruct (error_envelope_iff_failure Sample.failing Sample.feishuCfg
              (SendImageRequest Scenario.sendImage)
              (failureEnvelope "404")
              [SendImage (buildCfg Sample.feishuCfg) (Some "oc_1")
                         (Some "img_123") None]
              eq_refl) as [I F].
  split.
  - apply I. exists (NotAnError (JNum 404)). now apply ImageSendRaised.
  - apply F. now apply ImageSendRaised.
Defined.

(** ** What the pipelines call *)

(** The log of each pipeline, whatever the outcome. *)
Lemma log_of_pipeline (w : World) (feishuCfg : FeishuConfig) (req : Request) :
  match req with
  | UploadImageRequest p =>
      let resolvedPath := resolvePath (HOME w) (UploadImageParams.path p) in
      snd (run (pipeline w feishuCfg req))
      = ExistsSync resolvedPath
          :: (if existsSync w resolvedPath
              then [UploadImage (buildCfg feishuCfg) resolvedPath
                      (JS.nullish (UploadImageParams.imageType p) "message")]
              else [])
  | UploadFileRequest p =>
      let resolvedPath := resolvePath (HOME w) (UploadFileParams.path p) in
      exists rest,
        snd (run (pipeline w feishuCfg req)) = ExistsSync resolvedPath :: rest
        /\ (rest = []
            \/ existsSync w resolvedPath = true
               /\ exists kind,
                   rest = [UploadFile (buildCfg feishuCfg) resolvedPath
                             (effectiveName w p) kind (UploadFileParams.duration p)])
  | _ =>
      exists c, snd (run (pipeline w feishuCfg req)) = [c]
                /\ isTransferCall c = true
                /\ callCfg c = Some (buildCfg feishuCfg)
  end.
Proof.
  destruct req as [p|p|p|p|p|p]; cbn [pipeline].
  - rewrite run_doUploadImage. cbv zeta.
    destruct (existsSync w _); reflexivity.
  - rewrite run_doUploadFile. cbv zeta.
    destruct (existsSync w _); [|eexists; split; [reflexivity | now left]].
    destruct (if JS.falsy _ then _ else _) as [kind|err]; cbn [snd];
      eexists; (split; [reflexivity|]); [right | now left].
    split; [reflexivity|]. now exists kind.
  - rewrite run_doDownloadImage. eexists. repeat split.
  - rewrite run_doDownloadFile. cbv zeta. eexists. repeat split.
  - rewrite run_doSendImage. eexists. repeat split.
  - rewrite run_doSendFile. eexists. repeat split.
Qed.

(** X2.  Call discipline.  An upload probes the filesystem exactly once,
    first, and then makes at most one transfer call, none when the probed
    path does not exist.  A download or a send makes exactly one call, a
    transfer call, and never touches the filesystem.  Nothing is retried. *)
Theorem pipelines_call_at_most_once
  (w : World) (feishuCfg : FeishuConfig) (req : Request) :
  let log := snd (run (pipeline w feishuCfg req)) in
  (length (transferCalls log) <= 1)%nat
  /\ (isUpload req = true ->
      exists probed,
        log = ExistsSync probed :: transferCalls log
        /\ (existsSync w probed = false -> transferCalls log = []))
  /\ (isUpload req = false ->
      log = transferCalls log /\ length log = 1%nat).
Proof.
  pose proof (log_of_pipeline w feishuCfg req) as L.
  destruct req as [p|p|p|p|p|p]; cbv zeta in L |- *; cbn [isUpload].
  - rewrite L. destruct (existsSync w _) eqn:F; cbn.
    + repeat split; try lia; try discriminate. eexists. split; [reflexivity|].
      congruence.
    + repeat split; try lia; try discriminate. eexists. split; [reflexivity|].
      reflexivity.
  - destruct L as (rest & -> & [-> | (F & kind & ->)]); cbn.
    + repeat split; try lia; try discriminate. eexists. split; reflexivity.
    + repeat split; try lia; try discriminate. eexists. split; [reflexivity|].
      congruence.
  - destruct L as (c & -> & T & _). cbn. rewrite T. cbn.
    repeat split; try lia; discriminate.
  - destruct L as (c & -> & T & _). cbn. rewrite T. cbn.
    repeat split; try lia; discriminate.
  - destruct L as (c & -> & T & _). cbn. rewrite T. cbn.
    repeat split; try lia; discriminate.
  - destruct L as (c & -> & T & _). cbn. rewrite T. cbn.
    repeat split; try lia; discriminate.
Qed.

(** An upload from an empty disk: one probe, no transfer. *)
Lemma pipelines_call_at_most_once_witness :
  exists probed,
    snd (run (pipeline Scenario.emptyDisk Sample.feishuCfg
                (UploadImageRequest Scenario.uploadPhoto)))
    = [ ExistsSync probed ].
Proof.
  destruct (proj1 (proj2 (pipelines_call_at_most_once
                            Scenario.emptyDisk Sample.feishuCfg
                            (UploadImageRequest Scenario.uploadPhoto)))
                  eq_refl) as (probed & L & _).
  exists probed. rewrite L at 1. reflexivity.
Defined.

(** The configuration of every transfer call of a pipeline. *)
Lemma pipeline_call_cfg (w : World) (feishuCfg : FeishuConfig) (req : Request)
                        (c : Call) :
  In c (snd (run (pipeline w feishuCfg req))) ->
  isTransferCall c = true ->
  callCfg c = Some (buildCfg feishuCfg).
Proof.
  pose proof (log_of_pipeline w feishuCfg req) as L.
  destruct req as [p|p|p|p|p|p]; cbv zeta in L.
  - rewrite L. destruct (existsSync w _); cbn [In].
    + intros [<- | [<- | []]]; [discriminate | reflexivity].
    + intros [<- | []]; discriminate.
  - destruct L as (rest & -> & [-> | (_ & kind & ->)]); cbn [In].
    + intros [<- | []]; discriminate.
    + intros [<- | [<- | []]]; [discriminate | reflexivity].
  - destruct L as (c' & -> & _ & C). intros [<- | []]. now intros _.
  - destruct L as (c' & -> & _ & C). intros [<- | []]. now intros _.
  - destruct L as (c' & -> & _ & C). intros [<- | []]. now intros _.
  - destruct L as (c' & -> & _ & C). intros [<- | []]. now intros _.
Qed.

(** X3.  Credential routing.  Whatever the host configuration holds, every
    transfer call made by a registered tool hands its primitive a
    configuration with one channel only: the credentials found under the
    channel key [feishu-new] of the host configuration.  No other channel of
    the host configuration reaches the primitives. *)
Theorem registered_tools_pass_channel_credentials
  (w : World) (config : option ClawdbotConfig) (tool : Tool)
  (params : ToolParams.t) (c : Call) :
  In tool (registerFeishuMediaTools w config) ->
  In c (snd (run (execute tool params))) ->
  isTransferCall c = true ->
  exists host feishuCfg,
    config = Some host
    /\ lookupChannel "feishu-new" (channels host) = Some feishuCfg
    /\ callCfg c = Some {| channels := [ ("feishu-new", feishuCfg) ] |}.
Proof.
  intros T I C.
  destruct (registered_tools w config) as [E | (host & feishuCfg & -> & L & _ & E)].
  - rewrite E in T. destruct T.
  - exists host, feishuCfg. split; [reflexivity|]. split; [exact L|].
    rewrite E in T. apply in_map_iff in T as (t & <- & _). cbn [execute] in I.
    destruct (entryPoint_runs w feishuCfg t params)
      as [(_ & _ & R) | (_ & req & R)]; rewrite R in I.
    + destruct I.
    + exact (pipeline_call_cfg w feishuCfg req c I C).
Qed.

(** The send-image tool registered from a host configuration with two
    channels. *)
Lemma registered_tools_pass_channel_credentials_witness :
  exists host feishuCfg,
    Some HostScenario.hostConfig = Some host
    /\ lookupChannel "feishu-new" (channels host) = Some feishuCfg
    /\ callCfg (SendImage (buildCfg Sample.feishuCfg) None None None)
       = Some {| channels := [ ("feishu-new", feishuCfg) ] |}.
Proof.
  apply (registered_tools_pass_channel_credentials Sample.world
           (Some HostScenario.hostConfig) HostScenario.sendImageTool
           ToolParams.empty
           (SendImage (buildCfg Sample.feishuCfg) None None None)).
  - cbn. tauto.
  - cbn. tauto.
  - reflexivity.
Defined.

(** ** The text of a failure *)

(** An envelope with an error is a failure envelope. *)
Lemma pipeline_error_shape
  (w : World) (feishuCfg : FeishuConfig) (req : Request)
  (e : Envelope) (log : list Call) :
  run (pipeline w feishuCfg req) = (Returned e, log) ->
  hasError e = true ->
  exists message, e = failureEnvelope message.
Proof.
  intros R H.
  destruct (pipeline_ends w feishuCfg req)
    as (log' & [(err & _ & R') | (_ & e' & R' & E & _)]);
    rewrite R in R'; injection R' as R' _.
  - symmetry in R'. apply handled_returned in R' as (message & _ & ->).
    now exists message.
  - subst e'. congruence.
Qed.

(** X4.  In the newer variant, whenever a tool returns an envelope with an
    [error], the envelope is the failure envelope of that message: its
    content is the single text item "Error: " followed by the [error], and
    it has no [details].  This holds on every path to a failure, the
    missing-[path] answer of the upload tools included. *)
Theorem tool_error_text_matches_error
  (w : World) (feishuCfg : FeishuConfig) (t : ToolId) (params : ToolParams.t)
  (e : Envelope) (log : list Call) (message : string) :
  run (entryPoint w feishuCfg t params) = (Returned e, log) ->
  error e = Some message ->
  content e = [ {| type := "text"; text := "Error: " ++ message |} ]
  /\ details e = None.
Proof.
  intros R E.
  destruct (entryPoint_runs w feishuCfg t params)
    as [(_ & _ & R') | (_ & req & R')]; rewrite R' in R.
  - injection R as <- _. injection E as <-. split; reflexivity.
  - assert (H : hasError e = true) by (unfold hasError; now rewrite E).
    destruct (pipeline_error_shape w feishuCfg req e log R H) as (m & ->).
    injection E as <-. split; reflexivity.
Qed.

(** The upload-image tool called without a path. *)
Lemma tool_error_text_matches_error_witness :
  content (failureEnvelope "'path' is required")
  = [ {| type := "text"; text := "Error: " ++ "'path' is required" |} ]
  /\ details (failureEnvelope "'path' is required") = None.
Proof.
  exact (tool_error_text_matches_error Sample.world Sample.feishuCfg
           UploadImageTool ToolParams.empty
           (failureEnvelope "'path' is required") [] "'path' is required"
           eq_refl eq_refl).
Defined.

(** ** The tools of the two variants *)

(** What the two entry points of a tool run: the pipelines of one request,
    or nothing at all. *)
Lemma entryPoints_run (feishuCfg : FeishuConfig) (t : ToolId)
                      (params : ToolParams.t) :
  (isUploadTool t = true /\ JS.falsy (ToolParams.path params) = true
   /\ exists hint,
       forall w,
         run (entryPoint w feishuCfg t params)
         = (Returned (failureEnvelope "'path' is required"), [])
         /\ run (legacyEntryPoint w feishuCfg t params)
            = (Returned
                 {| content :=
                      [ {| type := "text";
                           text := "Error: 'path' parameter is required (local file path"
                                     ++ hint ++ ")" |} ];
                    details := None;
                    error := Some "Missing required parameter" |}, []))
  \/ ((isUploadTool t = false \/ JS.falsy (ToolParams.path params) = false)
      /\ exists req,
          forall w,
            entryPoint w feishuCfg t params = pipeline w feishuCfg req
            /\ legacyEntryPoint w feishuCfg t params
               = legacyPipeline w feishuCfg req).
Proof.
  destruct t; cbn [legacyEntryPoint entryPoint isUploadTool].
  - unfold Legacy.feishu_upload_image, feishu_upload_image.
    destruct (ToolParams.path params) as [[|c s]|].
    + left. repeat split. now exists " to the image".
    + right. split; [now right|]. now exists (UploadImageRequest
        {| UploadImageParams.path := String c s;
           UploadImageParams.imageType := ToolParams.imageType params |}).
    + left. repeat split. now exists " to the image".
  - unfold Legacy.feishu_upload_file, feishu_upload_file.
    destruct (ToolParams.path params) as [[|c s]|].
    + left. repeat split. now exists EmptyString.
    + right. split; [now right|]. now exists (UploadFileRequest
        {| UploadFileParams.path := String c s;
           UploadFileParams.fileName := ToolParams.fileName params;
           UploadFileParams.fileType := ToolParams.fileType params;
           UploadFileParams.duration := ToolParams.duration params |}).
    + left. repeat split. now exists EmptyString.
  - right. split; [now left|].
    now exists (DownloadImageRequest
      {| DownloadImageParams.imageKey := ToolParams.imageKey params |}).
  - right. split; [now left|].
    now exists (DownloadFileRequest
      {| DownloadFileParams.messageId := ToolParams.messageId params;
         DownloadFileParams.fileKey := ToolParams.fileKey params;
         DownloadFileParams.type := ToolParams.type params |}).
  - right. split; [now left|].
    now exists (SendImageRequest
      {| SendImageParams.to := ToolParams.to params;
         SendImageParams.imageKey := ToolParams.imageKey params;
         SendImageParams.replyToMessageId := ToolParams.replyToMessageId params |}).
  - right. split; [now left|].
    now exists (SendFileRequest
      {| SendFileParams.to := ToolParams.to params;
         SendFileParams.fileKey := ToolParams.fileKey params;
         SendFileParams.replyToMessageId := ToolParams.replyToMessageId params |}).
Qed.

(** X5.  With the same outcomes of the primitives, a tool of the newer
    variant and the tool of the same name in the older variant return the
    same envelope on every parameter object, with two exceptions.  When a
    primitive throws a value [String] cannot convert, neither returns an
    envelope and both end with the same [TypeError].  When an upload tool is
    called without a [path], neither calls anything, the newer one answers
    with the error ['path' is required], the older one with the error
    [Missing required parameter] under a text that does not repeat that
    error. *)
Theorem tool_variants_differ_only_on_missing_path
  (wn wo : World) (feishuCfg : FeishuConfig) (t : ToolId) (params : ToolParams.t) :
  sameOutcomes wn wo feishuCfg ->
  (isUploadTool t = false \/ JS.falsy (ToolParams.path params) = false ->
   (exists e,
       fst (run (entryPoint wn feishuCfg t params)) = Returned e
       /\ fst (run (legacyEntryPoint wo feishuCfg t params)) = Returned e)
   \/ (fst (run (entryPoint wn feishuCfg t params)) = Raised typeError
       /\ fst (run (legacyEntryPoint wo feishuCfg t params)) = Raised typeError
       /\ exists req thrown,
           entryPoint wn feishuCfg t params = pipeline wn feishuCfg req
           /\ raisedInside wn feishuCfg req (NotAnError thrown)
           /\ JSString.toString thrown = None))
  /\ (isUploadTool t = true ->
      JS.falsy (ToolParams.path params) = true ->
      run (entryPoint wn feishuCfg t params)
      = (Returned (failureEnvelope "'path' is required"), [])
      /\ exists e,
          run (legacyEntryPoint wo feishuCfg t params) = (Returned e, [])
          /\ error e = Some "Missing required parameter"
          /\ details e = None
          /\ e <> failureEnvelope "Missing required parameter").
Proof.
  intros S.
  destruct (entryPoints_run feishuCfg t params)
    as [(U & F & hint & R) | (H & req & R)].
  - split; [intros [H | H]; congruence|].
    intros _ _. split; [apply R|].
    eexists. split; [apply R|]. repeat split.
    intros E. discriminate E.
  - split.
    + intros _. rewrite (proj2 (R wo)).
      pose proof (pipelines_agree wn wo feishuCfg req S) as A.
      destruct (pipeline_returns_or_propagates wn feishuCfg req)
        as [(e & E) | (thrown & I & N & E)]; rewrite E in A.
      * left. exists e. rewrite (proj1 (R wn)). now split.
      * right. rewrite (proj1 (R wn)) at 1. split; [exact E|].
        split; [now symmetry|]. exists req, thrown.
        split; [apply R|]. now split.
    + intros U F. destruct H as [H | H]; congruence.
Qed.

(** The upload-file tool called with [{path: "/tmp/report.pdf"}], the newer
    variant in its world, the older variant in its own. *)
Lemma tool_variants_differ_only_on_missing_path_witness :
  exists e,
    fst (run (entryPoint Sample.world Sample.feishuCfg UploadFileTool
                HostScenario.reportParams)) = Returned e
    /\ fst (run (legacyEntryPoint Scenario.legacyWorld Sample.feishuCfg
                   UploadFileTool HostScenario.reportParams)) = Returned e.
Proof.
  destruct (proj1 (tool_variants_differ_only_on_missing_path Sample.world
                     Scenario.legacyWorld Sample.feishuCfg UploadFileTool
                     HostScenario.reportParams ltac:(repeat split))
                  (or_intror eq_refl))
    as [E | (E & _)]; [exact E | discriminate E].
Defined.

(** ** The older variant on its own *)

(** The older variant in [w] ends as the newer one does in the world where
    the configuration arrives under the older key. *)
Lemma sameOutcomes_rekeyed (w : World) (feishuCfg : FeishuConfig) :
  sameOutcomes (rekeyed w) w feishuCfg.
Proof. repeat split. Qed.

Lemma tame_rekeyed (w : World) : tame w -> tame (rekeyed w).
Proof.
  intros (UI & UF & DI & DF & SI & SF & DT).
  repeat split; intros; cbn; auto.
Qed.

Lemma legacy_pipeline_run (w : World) (feishuCfg : FeishuConfig) (req : Request) :
  fst (run (legacyPipeline w feishuCfg req))
  = fst (run (pipeline (rekeyed w) feishuCfg req)).
Proof. symmetry. apply pipelines_agree, sameOutcomes_rekeyed. Qed.

(** How a tool of the older variant ends. *)
Lemma legacy_entryPoint_ends (w : World) (feishuCfg : FeishuConfig) (t : ToolId)
                             (params : ToolParams.t) :
  (exists e,
      fst (run (legacyEntryPoint w feishuCfg t params)) = Returned e
      /\ wellShaped e = true)
  \/ (exists req thrown,
         fst (run (legacyEntryPoint w feishuCfg t params)) = Raised typeError
         /\ raisedInside (rekeyed w) feishuCfg req (NotAnError thrown)
         /\ JSString.toString thrown = None).
Proof.
  destruct (entryPoints_run feishuCfg t params)
    as [(_ & _ & hint & R) | (_ & req & R)].
  - left. eexists. rewrite (proj2 (R w)). split; reflexivity.
  - rewrite (proj2 (R w)), legacy_pipeline_run.
    destruct (pipeline_returns_or_propagates (rekeyed w) feishuCfg req)
      as [(e & E) | (thrown & I & N & E)].
    + left. exists e. split; [exact E|].
      destruct (run (pipeline (rekeyed w) feishuCfg req)) as [o log] eqn:P.
      cbn [fst] in E. subst o.
      exact (pipeline_wellShaped _ _ _ _ _ P).
    + right. now exists req, thrown.
Qed.

(** X6.  The older variant keeps the envelope invariant too: every envelope
    a tool of the older variant returns, on every parameter object and
    whatever the primitives answer, has exactly one of [details] and [error]
    and a content that starts with a text item.  A tool that does not return
    ends with the [TypeError] of a thrown value [String] cannot convert; and
    every tool returns when the primitives throw only values that have a
    message. *)
Theorem legacy_envelopes_have_exactly_one_shape
  (w : World) (feishuCfg : FeishuConfig) (t : ToolId) (params : ToolParams.t) :
  (forall e log,
      run (legacyEntryPoint w feishuCfg t params) = (Returned e, log) ->
      xorb (hasDetails e) (hasError e) = true /\ startsWithText e = true)
  /\ (forall thrown log,
         run (legacyEntryPoint w feishuCfg t params) = (Raised thrown, log) ->
         thrown = typeError)
  /\ (tame w ->
      exists e log,
        run (legacyEntryPoint w feishuCfg t params) = (Returned e, log)).
Proof.
  destruct (legacy_entryPoint_ends w feishuCfg t params)
    as [(e & E & S) | (req & thrown & E & I & N)];
    destruct (run (legacyEntryPoint w feishuCfg t params)) as [o log] eqn:R;
    cbn [fst] in E; subst o.
  - split; [|split].
    + intros e' log' [= <- _]. now apply andb_true_iff.
    + intros thrown log' [=].
    + intros _. now exists e, log.
  - split; [|split].
    + intros e log' [=].
    + now intros thrown' log' [= <- _].
    + intros T. apply tame_rekeyed in T.
      now elim (tame_raisedInside _ _ _ _ T I).
Qed.

(** The send-image tool of the older variant, the remote service rejecting
    the request with the number 404. *)
Lemma legacy_envelopes_have_exactly_one_shape_witness :
  xorb (hasDetails (failureEnvelope "404")) (hasError (failureEnvelope "404")) = true
  /\ startsWithText (failureEnvelope "404") = true.
Proof.
  exact (proj1 (legacy_envelopes_have_exactly_one_shape Sample.failing
                  Sample.feishuCfg SendImageTool
                  {| ToolParams.path := None; ToolParams.imageType := None;
                     ToolParams.fileName := None; ToolParams.fileType := None;
                     ToolParams.duration := None;
                     ToolParams.imageKey := Some "img_123";
                     ToolParams.messageId := None; ToolParams.fileKey := None;
                     ToolParams.type := None; ToolParams.to := Some "oc_1";
                     ToolParams.replyToMessageId := None |})
               (failureEnvelope "404")
               [SendImage (Legacy.cfgOf Sample.feishuCfg) (Some "oc_1")
                          (Some "img_123") None]
               eq_refl).
Defined.

(** ** Registration *)

Lemma lookupChannel_single (key key' : string) (feishuCfg : FeishuConfig) :
  lookupChannel key [ (key', feishuCfg) ]
  = if String.eqb key' key then Some feishuCfg else None.
Proof. reflexivity. Qed.

(** The tools the older variant registers. *)
Lemma legacy_registered_tools (w : World) (config : option ClawdbotConfig) :
  Legacy.registerFeishuMediaTools w config = []
  \/ exists host feishuCfg,
      config = Some host
      /\ lookupChannel "feishu" (channels host) = Some feishuCfg
      /\ mediaToolsWanted w feishuCfg = true
      /\ Legacy.registerFeishuMediaTools w config
         = map (fun t => {| name := toolName t;
                            execute := legacyEntryPoint w feishuCfg t |}) allTools.
Proof.
  unfold Legacy.registerFeishuMediaTools, mediaToolsWanted.
  destruct config as [host|]; [|now left].
  destruct (lookupChannel "feishu" (channels host)) as [feishuCfg|] eqn:L;
    [|now left].
  destruct (JS.falsy (appId feishuCfg)) eqn:A; [now left|].
  destruct (JS.falsy (appSecret feishuCfg)) eqn:S; [now left|].
  destruct (resolveToolsConfig_media w (tools feishuCfg)) eqn:T; [|now left].
  right. exists host, feishuCfg.
  split; [reflexivity|]. split; [exact L|]. rewrite A, S, T. split; reflexivity.
Qed.

(** X7.  Registration is all or nothing.  [registerFeishuMediaTools]
    registers the six tools, in their fixed order and closed over the
    credentials stored under [feishu-new], when that channel has a non-empty
    [appId], a non-empty [appSecret] and the media tools are switched on; in
    every other case it registers no tool at all.  The older variant does the
    same for the channel key [feishu], with its own six entry points under
    the same six names; so a configuration written for one variant registers
    nothing in the other. *)
Theorem registration_is_all_or_nothing (w : World) :
  (forall host feishuCfg,
      lookupChannel "feishu-new" (channels host) = Some feishuCfg ->
      mediaToolsWanted w feishuCfg = true ->
      registerFeishuMediaTools w (Some host)
      = map (fun t => {| name := toolName t;
                         execute := entryPoint w feishuCfg t |}) allTools)
  /\ (forall config,
         registerFeishuMediaTools w config <> [] ->
         exists host feishuCfg,
           config = Some host
           /\ lookupChannel "feishu-new" (channels host) = Some feishuCfg
           /\ mediaToolsWanted w feishuCfg = true
           /\ map name (registerFeishuMediaTools w config)
              = [ "feishu_upload_image"; "feishu_upload_file";
                  "feishu_download_image"; "feishu_download_file";
                  "feishu_send_image"; "feishu_send_file" ])
  /\ (forall host feishuCfg,
         lookupChannel "feishu" (channels host) = Some feishuCfg ->
         mediaToolsWanted w feishuCfg = true ->
         Legacy.registerFeishuMediaTools w (Some host)
         = map (fun t => {| name := toolName t;
                            execute := legacyEntryPoint w feishuCfg t |}) allTools)
  /\ (forall config,
         Legacy.registerFeishuMediaTools w config <> [] ->
         exists host feishuCfg,
           config = Some host
           /\ lookupChannel "feishu" (channels host) = Some feishuCfg
           /\ mediaToolsWanted w feishuCfg = true
           /\ map name (Legacy.registerFeishuMediaTools w config)
              = [ "feishu_upload_image"; "feishu_upload_file";
                  "feishu_download_image"; "feishu_download_file";
                  "feishu_send_image"; "feishu_send_file" ])
  /\ (forall feishuCfg,
         registerFeishuMediaTools w (Some (Legacy.cfgOf feishuCfg)) = []
         /\ Legacy.registerFeishuMediaTools w (Some (buildCfg feishuCfg)) = []).
Proof.
  split; [|split; [|split; [|split]]].
  - intros host feishuCfg L W.
    destruct (registered_tools w (Some host))
      as [E | (host' & feishuCfg' & [= <-] & L' & _ & E)].
    + unfold registerFeishuMediaTools, CH in E. rewrite L in E.
      unfold mediaToolsWanted in W.
      destruct (JS.falsy (appId feishuCfg)); [discriminate W|].
      destruct (JS.falsy (appSecret feishuCfg)); [discriminate W|].
      cbn [negb andb orb] in W, E. rewrite W in E. discriminate E.
    + unfold CH in L'. rewrite L in L'. injection L' as <-. exact E.
  - intros config N.
    destruct (registered_tools w config)
      as [E | (host & feishuCfg & -> & L & W & E)]; [contradiction|].
    exists host, feishuCfg. rewrite E. repeat split; assumption.
  - intros host feishuCfg L W.
    destruct (legacy_registered_tools w (Some host))
      as [E | (host' & feishuCfg' & [= <-] & L' & _ & E)].
    + unfold Legacy.registerFeishuMediaTools in E. rewrite L in E.
      unfold mediaToolsWanted in W.
      destruct (JS.falsy (appId feishuCfg)); [discriminate W|].
      destruct (JS.falsy (appSecret feishuCfg)); [discriminate W|].
      cbn [negb andb orb] in W, E. rewrite W in E. discriminate E.
    + rewrite L in L'. injection L' as <-. exact E.
  - intros config N.
    destruct (legacy_registered_tools w config)
      as [E | (host & feishuCfg & -> & L & W & E)]; [contradiction|].
    exists host, feishuCfg. rewrite E. repeat split; assumption.
  - intros feishuCfg. split; reflexivity.
Qed.

(** Registration from the sample credentials. *)
Lemma registration_is_all_or_nothing_witness :
  registerFeishuMediaTools Sample.world (Some HostScenario.hostConfig)
  = map (fun t => {| name := toolName t;
                     execute := entryPoint Sample.world Sample.feishuCfg t |})
        allTools.
Proof.
  exact (proj1 (registration_is_all_or_nothing Sample.world)
           HostScenario.hostConfig Sample.feishuCfg eq_refl eq_refl).
Defined.

(** ** Optional fields that are supplied *)

(** X8.  A supplied [imageType] (of an image upload) or [type] (of an
    attachment download) is handed to the primitive as it is, without any
    check against the values the schema lists: the empty string too, which
    for [fileType] would be replaced. *)
Theorem supplied_kinds_are_forwarded_unchecked
  (w : World) (feishuCfg : FeishuConfig) :
  (forall (p : UploadImageParams.t) (imageType : string),
      UploadImageParams.imageType p = Some imageType ->
      let resolvedPath := resolvePath (HOME w) (UploadImageParams.path p) in
      transferCalls (snd (run (doUploadImage w feishuCfg p)))
      = if existsSync w resolvedPath
        then [UploadImage (buildCfg feishuCfg) resolvedPath imageType]
        else [])
  /\ (forall (p : DownloadFileParams.t) (kind : string),
         DownloadFileParams.type p = Some kind ->
         snd (run (doDownloadFile w feishuCfg p))
         = [DownloadMessageResource (buildCfg feishuCfg)
              (DownloadFileParams.messageId p) (DownloadFileParams.fileKey p)
              kind]).
Proof.
  split.
  - intros p imageType T resolvedPath. rewrite run_doUploadImage. cbv zeta.
    fold resolvedPath. rewrite T.
    destruct (existsSync w resolvedPath); reflexivity.
  - intros p kind T. rewrite run_doDownloadFile. cbv zeta. now rewrite T.
Qed.

(** An image upload with the empty string as [imageType]. *)
Lemma supplied_kinds_are_forwarded_unchecked_witness :
  transferCalls
    (snd (run (doUploadImage Sample.world Sample.feishuCfg
                 HostScenario.uploadPhotoEmptyType)))
  = [UploadImage (buildCfg Sample.feishuCfg) "/home/u/photo.png" EmptyString].
Proof.
  exact (proj1 (supplied_kinds_are_forwarded_unchecked Sample.world Sample.feishuCfg)
           HostScenario.uploadPhotoEmptyType EmptyString eq_refl).
Defined.

(** ** More on the path resolver *)

Lemma startsWith_other_head (c : ascii) (s : string) :
  c <> "~"%char -> JS.startsWith (String c s) "~" = false.
Proof.
  intros N. unfold JS.startsWith. cbn [String.prefix].
  destruct (ascii_dec "~" c) as [E|_]; [now elim N | reflexivity].
Qed.

(** X9.  Home-directory expansion is idempotent when the home-directory
    value is not empty, does not itself begin with [~] and has no [$]:
    resolving an already resolved path changes nothing. *)
Theorem resolvePath_idempotent (home p : string) :
  home <> EmptyString ->
  JS.startsWith home "~" = false ->
  JS.includesChar home "$" = false ->
  resolvePath (Some home) (resolvePath (Some home) p) = resolvePath (Some home) p.
Proof.
  intros N T D.
  destruct (JS.startsWith p "~") eqn:P.
  - destruct (startsWith_tilde p P) as [rest ->]. cbn [append].
    rewrite resolvePath_tilde. cbn [JS.nullish].
    rewrite StringFacts.getSubstitution_plain by exact D.
    apply resolvePath_other.
    destruct home as [|c h]; [now elim N|]. cbn [append].
    apply startsWith_other_head. intros ->.
    unfold JS.startsWith in T. cbn [String.prefix] in T.
    destruct (ascii_dec "~" "~") as [_|M]; [|now elim M].
    now destruct h.
  - rewrite (resolvePath_other _ p P). now apply resolvePath_other.
Qed.

(** Resolving [~/photo.png] twice under HOME=/home/u. *)
Lemma resolvePath_idempotent_witness :
  resolvePath (Some "/home/u") (resolvePath (Some "/home/u") "~/photo.png")
  = resolvePath (Some "/home/u") "~/photo.png".
Proof.
  apply (resolvePath_idempotent "/home/u" "~/photo.png");
    [discriminate | reflexivity | reflexivity].
Defined.

(** ** The default file name *)

Module BasenameFacts.
Import NodePath.













End BasenameFacts.



(** ** The size of a data URL *)

Lemma length_append (a b : string) :
  String.length (a ++ b) = (String.length a + String.length b)%nat.
Proof. induction a as [|x a IH]; cbn; [reflexivity | now rewrite IH]. Qed.

Lemma encode_length (bs : list byte) :
  String.length (Base64.encode bs) = (4 * ((List.length bs + 2) / 3))%nat.
Proof.
  induction bs as [| a | a b | a b c rest IH] using Base64Facts.list_ind3;
    try reflexivity.
  cbn [Base64.encode String.length List.length]. rewrite IH.
  replace (S (S (S (List.length rest))) + 2)%nat
    with (1 * 3 + (List.length rest + 2))%nat by lia.
  rewrite Nat.div_add_l by discriminate. lia.
Qed.

(** X11.  The data URL of a successful download is 13 characters, the
    content type, and four base64 characters for every three bytes of the
    payload, the last group padded: its length is
    [13 + |content type| + 4 * ceil(n / 3)] for a payload of [n] bytes. *)
Theorem data_url_length
  (w : World) (feishuCfg : FeishuConfig) (req : Request)
  (payload : list byte) (declared : option string) :
  downloaded w feishuCfg req = Some (payload, declared) ->
  exists e log url,
    run (pipeline w feishuCfg req) = (Returned e, log)
    /\ dataUrlOf e = Some url
    /\ String.length url
       = (13 + String.length (JS.orElse declared (defaultContentType req))
          + 4 * ((List.length payload + 2) / 3))%nat.
Proof.
  intros D.
  destruct (run_download w feishuCfg req payload declared D)
    as (e & log & _ & _ & R & U & _).
  exists e, log. eexists. split; [exact R|]. split; [exact U|].
  rewrite !length_append, encode_length. cbn [String.length]. lia.
Qed.

(** Seventeen bytes of image/png: 13 + 9 + 24 characters. *)
Lemma data_url_length_witness :
  exists e log url,
    run (pipeline Sample.world Sample.feishuCfg
           (DownloadImageRequest Scenario.downloadImage)) = (Returned e, log)
    /\ dataUrlOf e = Some url
    /\ String.length url = 46%nat.
Proof.
  exact (data_url_length Sample.world Sample.feishuCfg
           (DownloadImageRequest Scenario.downloadImage)
           Sample.payload (Some "image/png") eq_refl).
Defined.

(** * Properties of the onboarding adapter *)

(** ** Objects *)

Module JsObjFacts.
Import JsObj.

Lemma get_set_same (o : JsObject) (k : string) (v : JsValue) :
  get (set o k v) k = v.
Proof.
  induction o as [|[k' v'] o IH]; cbn.
  - now rewrite String.eqb_refl.
  - destruct (String.eqb k' k) eqn:E; cbn.
    + now rewrite String.eqb_refl.
    + now rewrite E.
Qed.

Lemma get_set_other (o : JsObject) (k k' : string) (v : JsValue) :
  k' <> k -> get (set o k v) k' = get o k'.
Proof.
  intros N. induction o as [|[k0 v0] o IH]; cbn.
  - destruct (String.eqb_spec k k'); [congruence | reflexivity].
  - destruct (String.eqb_spec k0 k) as [->|N0]; cbn.
    + destruct (String.eqb_spec k k'); [congruence | reflexivity].
    + now rewrite IH.
Qed.

Lemma set_set (o : JsObject) (k : string) (v v' : JsValue) :
  set (set o k v) k v' = set o k v'.
Proof.
  induction o as [|[k0 v0] o IH]; cbn.
  - now rewrite String.eqb_refl.
  - destruct (String.eqb k0 k) eqn:E; cbn.
    + now rewrite String.eqb_refl.
    + now rewrite E, IH.
Qed.

(** For a value that is neither an array nor a string, reading a property
    is reading it from the spread. *)
Lemma prop_spread (v : JsValue) (k : string) :
  plain v = true -> prop v k = get (spread v) k.
Proof. destruct v; cbn; try reflexivity; discriminate. Qed.

End JsObjFacts.

(** ** The configuration after an edit *)

Module OnboardingFacts.
Import JsObj JsObjFacts Onboarding.

Lemma channelCfg_withChannel (cfg chCfg : JsObject) :
  channelCfg (withChannel cfg chCfg) = JObj chCfg.
Proof.
  unfold channelCfg, withChannel. rewrite get_set_same. cbn [prop].
  apply get_set_same.
Qed.

Lemma top_withChannel (cfg chCfg : JsObject) (k : string) :
  k <> "channels" -> get (withChannel cfg chCfg) k = get cfg k.
Proof. intros N. unfold withChannel. now apply get_set_other. Qed.

Lemma channels_withChannel (cfg chCfg : JsObject) (ch : string) :
  plain (get cfg "channels") = true ->
  ch <> CH ->
  prop (get (withChannel cfg chCfg) "channels") ch = prop (get cfg "channels") ch.
Proof.
  intros P N. unfold withChannel. rewrite get_set_same. cbn [prop].
  rewrite get_set_other by exact N. symmetry. now apply prop_spread.
Qed.

(** The channel configuration every edit writes. *)
Lemma applyEdit_shape (aw : JsValue -> option (list JsValue)) (e : Edit)
                      (cfg cfg' : JsObject) :
  applyEdit aw e cfg = Some cfg' ->
  exists chCfg,
    cfg' = withChannel cfg chCfg
    /\ forall f, ~ In f (touched e) ->
                 get chCfg f = get (spread (channelCfg cfg)) f.
Proof.
  destruct e as [p | l | p | l |]; cbn [applyEdit touched].
  - unfold setFeishuDmPolicy.
    destruct (if String.eqb p "open" then _ else None) as [entries|];
      [destruct (JSString.each entries) as [texts|]; [|discriminate]|];
      intros [= <-]; eexists; (split; [reflexivity|]);
      intros f N; cbn [In] in N.
    + rewrite !get_set_other by intuition congruence. reflexivity.
    + rewrite !get_set_other by intuition congruence. reflexivity.
  - intros [= <-]. eexists. split; [reflexivity|]. intros f N. cbn [In] in N.
    rewrite !get_set_other by intuition congruence. reflexivity.
  - intros [= <-]. eexists. split; [reflexivity|]. intros f N. cbn [In] in N.
    rewrite !get_set_other by intuition congruence. reflexivity.
  - intros [= <-]. eexists. split; [reflexivity|]. intros f N. cbn [In] in N.
    rewrite !get_set_other by intuition congruence. reflexivity.
  - intros [= <-]. eexists. split; [reflexivity|]. intros f N. cbn [In] in N.
    rewrite !get_set_other by intuition congruence. reflexivity.
Qed.

(** The one edit that can throw. *)
Lemma applyEdit_throws (aw : JsValue -> option (list JsValue)) (e : Edit)
                       (cfg : JsObject) :
  applyEdit aw e cfg = None ->
  exists entries,
    e = SetDmPolicy "open"
    /\ aw (prop (channelCfg cfg) "allowFrom") = Some entries
    /\ JSString.each entries = None.
Proof.
  destruct e as [p | l | p | l |]; cbn [applyEdit]; try discriminate.
  unfold setFeishuDmPolicy.
  destruct (String.eqb_spec p "open") as [->|N]; [|discriminate].
  destruct (aw _) as [entries|]; [|discriminate].
  destruct (JSString.each entries) as [texts|] eqn:E; [discriminate|].
  intros _. now exists entries.
Qed.

End OnboardingFacts.

(** X12.  What an edit leaves alone.  Each of the five edits of the adapter
    (DM policy, allowlist, group policy, group allowlist, disable) returns a
    configuration in which every top-level property other than [channels]
    is unchanged; every other channel is unchanged, when [channels] is an
    object or missing; and every field of the Feishu channel that the edit
    does not write is unchanged, when that channel configuration is an
    object or missing.  An edit returns, but for one case: setting the DM
    policy "open" throws when [String] cannot convert an entry the wildcard
    helper returned. *)
Theorem edits_leave_the_rest_alone
  (addWildcardAllowFrom : JsValue -> option (list JsValue))
  (e : Edit) (cfg : JsObject) :
  (forall cfg',
      applyEdit addWildcardAllowFrom e cfg = Some cfg' ->
      (forall k, k <> "channels" -> JsObj.get cfg' k = JsObj.get cfg k)
      /\ (JsObj.plain (JsObj.get cfg "channels") = true ->
          forall ch, ch <> "feishu-new" ->
                     JsObj.prop (JsObj.get cfg' "channels") ch
                     = JsObj.prop (JsObj.get cfg "channels") ch)
      /\ (JsObj.plain (Onboarding.channelCfg cfg) = true ->
          forall f, ~ In f (touched e) ->
                    JsObj.prop (Onboarding.channelCfg cfg') f
                    = JsObj.prop (Onboarding.channelCfg cfg) f))
  /\ (applyEdit addWildcardAllowFrom e cfg = None ->
      exists entries,
        e = SetDmPolicy "open"
        /\ addWildcardAllowFrom
             (JsObj.prop (Onboarding.channelCfg cfg) "allowFrom") = Some entries
        /\ JSString.each entries = None).
Proof.
  split; [|apply OnboardingFacts.applyEdit_throws].
  intros cfg' A.
  destruct (OnboardingFacts.applyEdit_shape addWildcardAllowFrom e cfg cfg' A)
    as (chCfg & -> & F).
  repeat split.
  - intros k N. now apply OnboardingFacts.top_withChannel.
  - intros P ch N. now apply OnboardingFacts.channels_withChannel.
  - intros P f N. rewrite OnboardingFacts.channelCfg_withChannel. cbn [JsObj.prop].
    rewrite (F f N). symmetry. now apply JsObjFacts.prop_spread.
Qed.

(** Disabling the sample configuration keeps the credentials and the other
    channel. *)
Lemma edits_leave_the_rest_alone_witness :
  JsObj.prop (JsObj.get (Onboarding.disable OnboardingSample.cfg) "channels")
             "telegram"
  = JObj [ ("enabled", JBool true) ]
  /\ JsObj.prop (Onboarding.channelCfg (Onboarding.disable OnboardingSample.cfg))
                "appId"
     = JStr "cli_a1".
Proof.
  destruct (proj1 (edits_leave_the_rest_alone OnboardingSample.addWildcard Disable
                     OnboardingSample.cfg)
                  (Onboarding.disable OnboardingSample.cfg) eq_refl)
    as (_ & C & F).
  split.
  - exact (C eq_refl "telegram" ltac:(discriminate)).
  - apply (F eq_refl "appId"). cbn. intros [H | []]. discriminate H.
Defined.

(** X13.  What is set is what is read.  After [setFeishuDmPolicy] (when it
    returns) the adapter's [getCurrent] returns the policy set, and a
    configuration
    without a DM policy reads as "pairing"; after [setFeishuAllowFrom] the
    allowlist that [promptFeishuAllowFrom] starts from is the list set; after
    [setFeishuGroupPolicy] the channel is enabled and has that group policy;
    after [setFeishuGroupAllowFrom] the group allowlist is the list set;
    after [disable] the channel is not enabled.  All of it whatever the
    configuration was before, an empty one included. *)
Theorem edits_read_back
  (addWildcardAllowFrom : JsValue -> option (list JsValue)) (cfg : JsObject) :
  (forall p cfg',
      Onboarding.setFeishuDmPolicy addWildcardAllowFrom cfg p = Some cfg' ->
      Onboarding.getCurrent cfg' = JStr p)
  /\ (JsObj.prop (Onboarding.channelCfg cfg) "dmPolicy" = JUndefined ->
      Onboarding.getCurrent cfg = JStr "pairing")
  /\ (forall l, Onboarding.existingAllowFrom (Onboarding.setFeishuAllowFrom cfg l)
                = JArr (map JStr l))
  /\ (forall p,
         let cfg' := Onboarding.setFeishuGroupPolicy cfg p in
         JsObj.prop (Onboarding.channelCfg cfg') "groupPolicy" = JStr p
         /\ JsObj.prop (Onboarding.channelCfg cfg') "enabled" = JBool true)
  /\ (forall l, JsObj.prop (Onboarding.channelCfg
                              (Onboarding.setFeishuGroupAllowFrom cfg l))
                           "groupAllowFrom"
                = JArr (map JStr l))
  /\ JsObj.prop (Onboarding.channelCfg (Onboarding.disable cfg)) "enabled"
     = JBool false.
Proof.
  repeat split.
  - intros p cfg'. unfold Onboarding.getCurrent, Onboarding.setFeishuDmPolicy.
    destruct (if String.eqb p "open" then _ else None) as [entries|];
      [destruct (JSString.each entries) as [texts|]; [|discriminate]|];
      intros [= <-];
      rewrite OnboardingFacts.channelCfg_withChannel; cbn [JsObj.prop].
    + rewrite JsObjFacts.get_set_other by discriminate.
      now rewrite JsObjFacts.get_set_same.
    + now rewrite JsObjFacts.get_set_same.
  - intros U. unfold Onboarding.getCurrent. now rewrite U.
  - intros l. unfold Onboarding.existingAllowFrom, Onboarding.setFeishuAllowFrom.
    rewrite OnboardingFacts.channelCfg_withChannel. cbn [JsObj.prop].
    now rewrite JsObjFacts.get_set_same.
  - unfold Onboarding.setFeishuGroupPolicy.
    rewrite OnboardingFacts.channelCfg_withChannel. cbn [JsObj.prop].
    now rewrite JsObjFacts.get_set_same.
  - unfold Onboarding.setFeishuGroupPolicy.
    rewrite OnboardingFacts.channelCfg_withChannel. cbn [JsObj.prop].
    rewrite JsObjFacts.get_set_other by discriminate.
    now rewrite JsObjFacts.get_set_same.
  - intros l. unfold Onboarding.setFeishuGroupAllowFrom.
    rewrite OnboardingFacts.channelCfg_withChannel. cbn [JsObj.prop].
    now rewrite JsObjFacts.get_set_same.
  - unfold Onboarding.disable.
    rewrite OnboardingFacts.channelCfg_withChannel. cbn [JsObj.prop].
    now rewrite JsObjFacts.get_set_same.
Qed.

(** The empty configuration reads as "pairing". *)
Lemma edits_read_back_witness : Onboarding.getCurrent [] = JStr "pairing".
Proof.
  exact (proj1 (proj2 (edits_read_back OnboardingSample.addWildcard [])) eq_refl).
Defined.

(** X14.  The DM policy and the allowlist.  Setting the DM policy "open"
    replaces the allowlist by the entries [addWildcardAllowFrom] returns for
    the current allowlist, each converted to a string, and throws when one of
    them cannot be converted; when that helper returns nothing, and for
    every policy other than "open", the edit returns and the allowlist stays
    as it was. *)
Theorem dm_policy_touches_allowlist_only_when_open
  (addWildcardAllowFrom : JsValue -> option (list JsValue))
  (cfg : JsObject) (dmPolicy : string) :
  JsObj.plain (Onboarding.channelCfg cfg) = true ->
  let before := JsObj.prop (Onboarding.channelCfg cfg) "allowFrom" in
  let edited := Onboarding.setFeishuDmPolicy addWildcardAllowFrom cfg dmPolicy in
  let after (cfg' : JsObject) :=
    JsObj.prop (Onboarding.channelCfg cfg') "allowFrom" in
  (dmPolicy <> "open" ->
   exists cfg', edited = Some cfg' /\ after cfg' = before)
  /\ (dmPolicy = "open" ->
      match addWildcardAllowFrom before with
      | Some entries =>
          match JSString.each entries with
          | Some texts =>
              exists cfg', edited = Some cfg' /\ after cfg' = JArr (map JStr texts)
          | None => edited = None
          end
      | None => exists cfg', edited = Some cfg' /\ after cfg' = before
      end).
Proof.
  intros P before edited after. subst before edited after.
  unfold Onboarding.setFeishuDmPolicy.
  split.
  - intros N. destruct (String.eqb_spec dmPolicy "open") as [E|_]; [now elim N|].
    eexists. split; [reflexivity|].
    rewrite OnboardingFacts.channelCfg_withChannel. cbn [JsObj.prop].
    rewrite JsObjFacts.get_set_other by discriminate.
    symmetry. now apply JsObjFacts.prop_spread.
  - intros ->. cbn [String.eqb Ascii.eqb Bool.eqb andb].
    destruct (addWildcardAllowFrom _) as [entries|].
    + destruct (JSString.each entries) as [texts|]; [|reflexivity].
      eexists. split; [reflexivity|].
      rewrite OnboardingFacts.channelCfg_withChannel. cbn [JsObj.prop].
      now rewrite JsObjFacts.get_set_same.
    + eexists. split; [reflexivity|].
      rewrite OnboardingFacts.channelCfg_withChannel. cbn [JsObj.prop].
      rewrite JsObjFacts.get_set_other by discriminate.
      symmetry. now apply JsObjFacts.prop_spread.
Qed.

(** Opening the sample configuration, and setting it to "pairing". *)
Lemma dm_policy_touches_allowlist_only_when_open_witness :
  (exists cfg',
      Onboarding.setFeishuDmPolicy OnboardingSample.addWildcard
        OnboardingSample.cfg "pairing" = Some cfg'
      /\ JsObj.prop (Onboarding.channelCfg cfg') "allowFrom"
         = JArr [ JStr "ou_1" ])
  /\ (exists cfg',
         Onboarding.setFeishuDmPolicy OnboardingSample.addWildcard
           OnboardingSample.cfg "open" = Some cfg'
         /\ JsObj.prop (Onboarding.channelCfg cfg') "allowFrom"
            = JArr [ JStr "ou_1"; JStr "*" ]).
Proof.
  split.
  - apply (dm_policy_touches_allowlist_only_when_open OnboardingSample.addWildcard
             OnboardingSample.cfg "pairing" eq_refl). discriminate.
  - exact (proj2 (dm_policy_touches_allowlist_only_when_open
                    OnboardingSample.addWildcard OnboardingSample.cfg "open"
                    eq_refl) eq_refl).
Defined.

Module EditFacts.
Import JsObj JsObjFacts Onboarding OnboardingFacts.

(** Editing an edited configuration. *)
Lemma withChannel_twice (cfg a b : JsObject) :
  withChannel (withChannel cfg a) b = withChannel cfg b.
Proof.
  unfold withChannel. rewrite get_set_same. cbn [spread].
  now rewrite !set_set.
Qed.

End EditFacts.

(** X15.  The last edit wins.  Setting the allowlist twice is setting it
    once to the second list, and disabling twice is disabling once: the
    configurations are equal, property for property.  Disabling after a
    group-policy choice leaves the channel disabled with that policy, and a
    group-policy choice after disabling enables the channel again. *)
Theorem last_edit_wins (cfg : JsObject) :
  (forall l l', Onboarding.setFeishuAllowFrom (Onboarding.setFeishuAllowFrom cfg l) l'
                = Onboarding.setFeishuAllowFrom cfg l')
  /\ Onboarding.disable (Onboarding.disable cfg) = Onboarding.disable cfg
  /\ (forall p,
         let cfg' := Onboarding.disable (Onboarding.setFeishuGroupPolicy cfg p) in
         JsObj.prop (Onboarding.channelCfg cfg') "enabled" = JBool false
         /\ JsObj.prop (Onboarding.channelCfg cfg') "groupPolicy" = JStr p)
  /\ (forall p,
         JsObj.prop (Onboarding.channelCfg
                       (Onboarding.setFeishuGroupPolicy (Onboarding.disable cfg) p))
                    "enabled" = JBool true).
Proof.
  repeat split.
  - intros l l'. unfold Onboarding.setFeishuAllowFrom.
    rewrite OnboardingFacts.channelCfg_withChannel. cbn [JsObj.spread].
    now rewrite JsObjFacts.set_set, EditFacts.withChannel_twice.
  - unfold Onboarding.disable.
    rewrite OnboardingFacts.channelCfg_withChannel. cbn [JsObj.spread].
    now rewrite JsObjFacts.set_set, EditFacts.withChannel_twice.
  - unfold Onboarding.disable, Onboarding.setFeishuGroupPolicy.
    rewrite !OnboardingFacts.channelCfg_withChannel. cbn [JsObj.prop JsObj.spread].
    now rewrite JsObjFacts.get_set_same.
  - unfold Onboarding.disable, Onboarding.setFeishuGroupPolicy.
    rewrite !OnboardingFacts.channelCfg_withChannel. cbn [JsObj.prop JsObj.spread].
    rewrite JsObjFacts.get_set_other by discriminate.
    now rewrite JsObjFacts.get_set_same.
  - intros p. unfold Onboarding.disable, Onboarding.setFeishuGroupPolicy.
    rewrite !OnboardingFacts.channelCfg_withChannel. cbn [JsObj.prop JsObj.spread].
    rewrite JsObjFacts.get_set_other by discriminate.
    now rewrite JsObjFacts.get_set_same.
Qed.

(** ** Trimming and splitting *)

Module TextFacts.
Import Text.

Lemma trimStartList_head (l : list ascii) :
  trimStartList l = []
  \/ exists c r, trimStartList l = c :: r /\ isSpace c = false.
Proof.
  induction l as [|c l IH]; cbn; [now left|].
  destruct (isSpace c) eqn:S; [exact IH | right; now exists c, l].
Qed.

Lemma trimStartList_split (l : list ascii) :
  exists spaces, l = (spaces ++ trimStartList l)%list.
Proof.
  induction l as [|c l [sp E]]; cbn; [now exists []|].
  destruct (isSpace c); [|now exists []].
  exists (c :: sp). cbn. now rewrite <- E.
Qed.

Lemma trimStartList_fixed (c : ascii) (r : list ascii) :
  isSpace c = false -> trimStartList (c :: r) = c :: r.
Proof. intros S. cbn. now rewrite S. Qed.

Lemma trimStartList_idem (l : list ascii) :
  trimStartList (trimStartList l) = trimStartList l.
Proof.
  destruct (trimStartList_head l) as [-> | (c & r & -> & S)];
    [reflexivity | now apply trimStartList_fixed].
Qed.

(** The two ends of a trimmed text are not white space. *)
Lemma trim_ends (l : list ascii) :
  let a := trimStartList l in
  let b := trimStartList (rev a) in
  trimStartList (rev b) = rev b.
Proof.
  intros a b.
  destruct (trimStartList_split (rev a)) as [sp E]. fold b in E.
  destruct (rev b) as [|c r] eqn:B; [reflexivity|].
  apply trimStartList_fixed.
  assert (A : a = (c :: r ++ rev sp)%list).
  { rewrite <- (rev_involutive a), E, rev_app_distr, B. reflexivity. }
  destruct (trimStartList_head l) as [N | (c' & r' & H & S)]; fold a in N || fold a in H.
  - rewrite N in A. discriminate A.
  - rewrite H in A. now injection A as -> _.
Qed.

Lemma trim_idem (s : string) : trim (trim s) = trim s.
Proof.
  unfold trim. rewrite list_ascii_of_string_of_list_ascii.
  pose proof (trim_ends (list_ascii_of_string s)) as E. cbv zeta in E.
  rewrite E, rev_involutive, trimStartList_idem. reflexivity.
Qed.

(** A trimmed text is a stretch of the text. *)
Lemma trim_within (s : string) :
  exists before after,
    list_ascii_of_string s
    = (before ++ list_ascii_of_string (trim s) ++ after)%list.
Proof.
  unfold trim. rewrite list_ascii_of_string_of_list_ascii.
  destruct (trimStartList_split (list_ascii_of_string s)) as [sp E].
  destruct (trimStartList_split (rev (trimStartList (list_ascii_of_string s))))
    as [sp' E'].
  exists sp, (rev sp'). rewrite E at 1. f_equal.
  rewrite <- (rev_involutive (trimStartList (list_ascii_of_string s))) at 1.
  rewrite E' at 1. now rewrite rev_app_distr.
Qed.

Lemma trim_keeps (P : ascii -> bool) (s : string) :
  forallb P (list_ascii_of_string s) = true ->
  forallb P (list_ascii_of_string (trim s)) = true.
Proof.
  destruct (trim_within s) as (before & after & ->).
  rewrite !forallb_app. intros H.
  apply andb_true_iff in H as [_ H]. now apply andb_true_iff in H as [H _].
Qed.

Lemma trim_empty : trim EmptyString = EmptyString.
Proof. reflexivity. Qed.

Lemma trim_space (s : string) : trim (String " " s) = trim s.
Proof. reflexivity. Qed.

(** The pieces of a split have no separator. *)
Lemma splitFrom_pieces (f : bool) (s : string) (piece : string) :
  In piece (splitFrom f s) ->
  forallb (fun c => negb (isSeparator c)) (list_ascii_of_string piece) = true.
Proof.
  revert f piece. induction s as [|c s IH]; intros f piece; cbn [splitFrom].
  - intros [<- | []]. reflexivity.
  - destruct (isSeparator c) eqn:S.
    + destruct f; [apply IH|]. intros [<- | H]; [reflexivity | now apply (IH true)].
    + pose proof (IH false) as IH'.
      destruct (splitFrom false s) as [|hd tl].
      * intros [<- | []]. cbn. now rewrite S.
      * intros [<- | H].
        -- cbn. rewrite S. cbn. apply IH'. now left.
        -- apply IH'. now right.
Qed.

(** Splitting at runs and splitting at every separator differ in empty
    pieces only. *)
Lemma split_each (s : string) :
  (exists hd tl tl',
      splitFrom false s = hd :: tl /\ splitEach s = hd :: tl'
      /\ filter nonEmpty (map trim tl) = filter nonEmpty (map trim tl'))
  /\ filter nonEmpty (map trim (splitFrom true s))
     = filter nonEmpty (map trim (splitEach s)).
Proof.
  induction s as [|c s ((hd & tl & tl' & F & E & T) & R)]; cbn [splitFrom splitEach].
  - split; [|reflexivity]. now exists EmptyString, [], [].
  - destruct (isSeparator c).
    + split; [|exact R]. exists EmptyString, (splitFrom true s), (splitEach s).
      now repeat split.
    + rewrite F, E. split.
      * now exists (String c hd), tl, tl'.
      * cbn [map filter]. now rewrite T.
Qed.

Lemma parse_each (raw : string) :
  Onboarding.parseAllowFromInput raw
  = filter nonEmpty (map trim (splitEach raw)).
Proof.
  unfold Onboarding.parseAllowFromInput, split.
  destruct (split_each raw) as ((hd & tl & tl' & -> & -> & T) & _).
  cbn [map filter]. now rewrite T.
Qed.

Lemma splitEach_nonempty (s : string) : splitEach s <> [].
Proof.
  destruct s as [|c s]; cbn; [discriminate|].
  destruct (isSeparator c); [discriminate|].
  destruct (splitEach s); discriminate.
Qed.

Lemma splitEach_app (a b : string) (c : ascii) :
  isSeparator c = true ->
  splitEach (a ++ String c b) = (splitEach a ++ splitEach b)%list.
Proof.
  intros S. induction a as [|x a IH]; cbn [append splitEach].
  - now rewrite S.
  - destruct (isSeparator x); [now rewrite IH|].
    rewrite IH. pose proof (splitEach_nonempty a).
    destruct (splitEach a); [congruence | reflexivity].
Qed.

Lemma splitEach_whole (e : string) :
  forallb (fun c => negb (isSeparator c)) (list_ascii_of_string e) = true ->
  splitEach e = [ e ].
Proof.
  induction e as [|c e IH]; cbn; [reflexivity|].
  intros H. apply andb_true_iff in H as [S H].
  apply negb_true_iff in S. rewrite S, (IH H). reflexivity.
Qed.

Lemma parse_space (s : string) :
  Onboarding.parseAllowFromInput (String " " s) = Onboarding.parseAllowFromInput s.
Proof.
  rewrite !parse_each. cbn [splitEach].
  change (isSeparator " ") with false. cbn iota.
  pose proof (splitEach_nonempty s).
  destruct (splitEach s) as [|hd tl]; [congruence|].
  cbn [map filter]. now rewrite trim_space.
Qed.

Lemma parse_clean (e : string) :
  cleanEntry e = true -> Onboarding.parseAllowFromInput e = [ e ].
Proof.
  unfold cleanEntry. intros H.
  apply andb_true_iff in H as [H S]. apply andb_true_iff in H as [N T].
  apply String.eqb_eq in T.
  rewrite parse_each, (splitEach_whole e S). cbn [map filter].
  now rewrite T, N.
Qed.

End TextFacts.

(** What the parser delivers. *)
Lemma parsed_entry (raw entry : string) :
  In entry (Onboarding.parseAllowFromInput raw) ->
  entry <> EmptyString
  /\ Text.trim entry = entry
  /\ forallb (fun c => negb (Text.isSeparator c)) (list_ascii_of_string entry) = true.
Proof.
  unfold Onboarding.parseAllowFromInput. intros H.
  apply filter_In in H as [H N]. apply in_map_iff in H as (piece & <- & H).
  repeat split.
  - intros E. rewrite E in N. discriminate N.
  - apply TextFacts.trim_idem.
  - apply TextFacts.trim_keeps. exact (TextFacts.splitFrom_pieces _ _ _ H).
Qed.

(** X16.  Every entry [parseAllowFromInput] returns is clean: it is not
    empty, it has no white space at either end (trimming it changes
    nothing), and it contains none of the separators (line feed, comma,
    semicolon); and the parser returns no entry at all exactly when every
    piece between separators is blank.  Whatever the user types, no blank
    or separator-only entry reaches the allowlist. *)
Theorem parsed_entries_are_clean (raw : string) :
  (forall entry,
      In entry (Onboarding.parseAllowFromInput raw) ->
      entry <> EmptyString
      /\ Text.trim entry = entry
      /\ forallb (fun c => negb (Text.isSeparator c))
                 (list_ascii_of_string entry) = true)
  /\ (Onboarding.parseAllowFromInput raw = [] <->
      forall piece, In piece (Text.split raw) -> Text.trim piece = EmptyString).
Proof.
  split; [intros entry; apply parsed_entry|].
  unfold Onboarding.parseAllowFromInput.
  induction (Text.split raw) as [|piece pieces IH]; cbn [map filter In].
  - split; [intros _ p [] | reflexivity].
  - destruct (Text.trim piece) as [|c t] eqn:T; cbn [Text.nonEmpty String.eqb negb].
    + rewrite IH. split.
      * intros H p [<- | I]; [exact T | now apply H].
      * intros H p I. apply H. now right.
    + split; [discriminate|]. intros H.
      specialize (H piece (or_introl eq_refl)). congruence.
Qed.

(** The second entry of a typed list. *)
Lemma parsed_entries_are_clean_witness :
  "ou_2" <> EmptyString
  /\ Text.trim "ou_2" = "ou_2"
  /\ forallb (fun c => negb (Text.isSeparator c)) (list_ascii_of_string "ou_2") = true.
Proof.
  apply (proj1 (parsed_entries_are_clean " ou_1 ,; ou_2 ,,") "ou_2").
  right. left. reflexivity.
Defined.

(** X17.  Parsing distributes over a separator: the entries of two texts
    joined by a line feed, a comma or a semicolon are the entries of the
    first followed by the entries of the second.  Leading, trailing and
    repeated separators therefore add nothing. *)
Theorem parse_distributes_over_separator (a b : string) (c : ascii) :
  Text.isSeparator c = true ->
  Onboarding.parseAllowFromInput (a ++ String c b)
  = (Onboarding.parseAllowFromInput a ++ Onboarding.parseAllowFromInput b)%list.
Proof.
  intros S. rewrite !TextFacts.parse_each, (TextFacts.splitEach_app a b c S).
  now rewrite map_app, filter_app.
Qed.

(** Two lists joined by a semicolon. *)
Lemma parse_distributes_over_separator_witness :
  Onboarding.parseAllowFromInput ("ou_1, ou_2," ++ String ";" " ou_3")
  = [ "ou_1"; "ou_2"; "ou_3" ].
Proof.
  rewrite (parse_distributes_over_separator "ou_1, ou_2," " ou_3" ";" eq_refl).
  reflexivity.
Defined.

(** X18.  Round trip through the initial value of the group allowlist
    prompt: a list of clean entries, joined with ", " as [configure] shows
    it, parses back to the same list. *)
Theorem joined_entries_parse_back (parts : list string) :
  forallb cleanEntry parts = true ->
  Onboarding.parseAllowFromInput (Text.join ", " parts) = parts.
Proof.
  unfold Text.join.
  induction parts as [|e parts IH]; [reflexivity|].
  cbn [forallb]. intros H. apply andb_true_iff in H as [C H].
  destruct parts as [|e' parts].
  - cbn [String.concat]. now apply TextFacts.parse_clean.
  - change (String.concat ", " (e :: e' :: parts))
      with (e ++ String "," (String " " (String.concat ", " (e' :: parts)))).
    rewrite (TextFacts.parse_each (e ++ _)),
      (TextFacts.splitEach_app e _ "," eq_refl), map_app, filter_app,
      <- !TextFacts.parse_each.
    rewrite TextFacts.parse_space, (IH H), (TextFacts.parse_clean e C).
    reflexivity.
Qed.

(** Three chat ids. *)
Lemma joined_entries_parse_back_witness :
  Onboarding.parseAllowFromInput (Text.join ", " [ "oc_1"; "oc_2"; "oc_3" ])
  = [ "oc_1"; "oc_2"; "oc_3" ].
Proof.
  exact (joined_entries_parse_back [ "oc_1"; "oc_2"; "oc_3" ] eq_refl).
Defined.

(** ** The allowlist dialogue *)

Module PromptFacts.
Import Onboarding.

Lemma existsb_eqb (x : string) (l : list string) :
  existsb (String.eqb x) l = true <-> In x l.
Proof.
  rewrite existsb_exists. split.
  - intros (y & I & E). apply String.eqb_eq in E. now subst.
  - intros I. exists x. split; [exact I | apply String.eqb_refl].
Qed.

Lemma uniqueFrom_In (seen l : list string) (x : string) :
  In x (uniqueFrom seen l) <-> In x l /\ ~ In x seen.
Proof.
  revert seen. induction l as [|y l IH]; intros seen; cbn [uniqueFrom In].
  - tauto.
  - destruct (existsb (String.eqb y) seen) eqn:E.
    + apply existsb_eqb in E. rewrite IH. split.
      * tauto.
      * intros [[-> | I] N]; [contradiction | tauto].
    + assert (N : ~ In y seen).
      { intros I. apply existsb_eqb in I. congruence. }
      cbn [In]. rewrite IH. cbn [In]. split.
      * intros [-> | (I & M)]; [tauto|]. split; [tauto|]. tauto.
      * intros [[-> | I] M]; [tauto|].
        destruct (String.eqb_spec y x) as [->|D]; [tauto|]. right. tauto.
Qed.

Lemma uniqueFrom_NoDup (seen l : list string) : NoDup (uniqueFrom seen l).
Proof.
  revert seen. induction l as [|y l IH]; intros seen; cbn [uniqueFrom].
  - constructor.
  - destruct (existsb (String.eqb y) seen); [apply IH|].
    constructor; [|apply IH].
    rewrite uniqueFrom_In. cbn [In]. tauto.
Qed.

Lemma unique_In (l : list string) (x : string) : In x (unique l) <-> In x l.
Proof. unfold unique. rewrite uniqueFrom_In. cbn [In]. tauto. Qed.

(** The loop, by the answers it uses. *)
Lemma askAllowFrom_done (cfg : JsObject) (existing : JsValue)
                        (answers : list JsValue) (transcript : list PrompterCall)
                        (cfg' : JsObject) (transcript' : list PrompterCall)
                        (rest : list JsValue) :
  askAllowFrom cfg existing answers transcript = Done cfg' transcript' rest ->
  exists skipped used usedText old texts,
    answers = (skipped ++ used :: rest)%list
    /\ Forall (fun a => exists text,
                          JSString.toString a = Some text
                          /\ parseAllowFromInput text = []) skipped
    /\ JSString.toString used = Some usedText
    /\ parseAllowFromInput usedText <> []
    /\ existing = JArr old
    /\ JSString.each old = Some texts
    /\ cfg' = setFeishuAllowFrom cfg
                (unique (keptEntries texts ++ parseAllowFromInput usedText)%list)
    /\ length transcript'
       = (length transcript + 1 + 2 * length skipped)%nat.
Proof.
  revert transcript. induction answers as [|a answers IH]; intros transcript;
    cbn [askAllowFrom];
    destruct (allowFromPrompt existing) as [prompt|]; try discriminate.
  destruct (JSString.toString a) as [text|] eqn:T; [|discriminate].
  destruct (parseAllowFromInput text) as [|part parts] eqn:P.
  - intros H.
    apply IH in H as (skipped & used & usedText & old & texts
                      & -> & F & U & N & E & O & C & L).
    exists (a :: skipped), used, usedText, old, texts.
    repeat split; try assumption.
    + constructor; [now exists text | assumption].
    + rewrite L, !length_app. cbn [length]. lia.
  - destruct existing as [| | | | | old |]; try discriminate.
    destruct (JSString.each old) as [texts|] eqn:O; [|discriminate].
    intros [= <- <- <-].
    exists [], a, text, old, texts. rewrite P. repeat split; try assumption.
    + constructor.
    + discriminate.
    + rewrite length_app. cbn [length]. lia.
Qed.

End PromptFacts.

(** X19.  When [promptFeishuAllowFrom] returns, the answer it accepted is
    the first answer of the script whose text has an entry at all; each
    answer before it has none and costs one more prompt and one more note.
    The configuration it returns is the given one with a new allowlist: the
    entries that were there before (as strings, trimmed, the empty ones
    dropped) followed by the entries of the accepted answer, every entry
    once.  That allowlist is never empty, and none of its entries is empty
    or has white space at either end. *)
Theorem allowlist_prompt_merges
  (cfg : JsObject) (answers : list JsValue)
  (cfg' : JsObject) (transcript : list PrompterCall) (rest : list JsValue) :
  Onboarding.promptFeishuAllowFrom cfg answers = Done cfg' transcript rest ->
  exists skipped used usedText old texts merged,
    answers = (skipped ++ used :: rest)%list
    /\ Forall (fun a => exists text,
                          JSString.toString a = Some text
                          /\ Onboarding.parseAllowFromInput text = [])
              skipped
    /\ JSString.toString used = Some usedText
    /\ Onboarding.parseAllowFromInput usedText <> []
    /\ Onboarding.existingAllowFrom cfg = JArr old
    /\ JSString.each old = Some texts
    /\ cfg' = Onboarding.setFeishuAllowFrom cfg merged
    /\ merged = Onboarding.unique
                  (keptEntries texts
                   ++ Onboarding.parseAllowFromInput usedText)%list
    /\ merged <> []
    /\ NoDup merged
    /\ (forall e, In e merged ->
                  e <> EmptyString /\ Text.trim e = e)
    /\ (forall e, In e merged <->
                  In e (keptEntries texts)
                  \/ In e (Onboarding.parseAllowFromInput usedText))
    /\ length transcript = (2 + 2 * length skipped)%nat.
Proof.
  unfold Onboarding.promptFeishuAllowFrom. intros H.
  apply PromptFacts.askAllowFrom_done in H
    as (skipped & used & usedText & old & texts & -> & F & U & N & E & O & -> & L).
  exists skipped, used, usedText, old, texts. eexists.
  split; [reflexivity|]. split; [exact F|]. split; [exact U|].
  split; [exact N|]. split; [exact E|]. split; [exact O|].
  split; [reflexivity|]. split; [reflexivity|].
  split; [|split; [|split; [|split]]].
  - intros M.
    destruct (Onboarding.parseAllowFromInput usedText) as [|part parts] eqn:P;
      [now elim N|].
    assert (I : In part (Onboarding.unique
                           (keptEntries texts ++ part :: parts)%list)).
    { apply PromptFacts.unique_In, in_or_app. right. now left. }
    rewrite M in I. destruct I.
  - apply PromptFacts.uniqueFrom_NoDup.
  - intros e H. apply PromptFacts.unique_In, in_app_or in H as [H | H].
    + unfold keptEntries in H. apply filter_In in H as [H K]. split.
      * intros ->. discriminate K.
      * apply in_map_iff in H as (v & <- & _). apply TextFacts.trim_idem.
    + destruct (parsed_entry _ _ H) as (A & B & _). now split.
  - intros e. split.
    + intros H. now apply PromptFacts.unique_In, in_app_or in H.
    + intros H. now apply PromptFacts.unique_In, in_or_app.
  - exact L.
Qed.

(** The sample configuration, two blank answers and a list with a repeat. *)
Lemma allowlist_prompt_merges_witness :
  exists skipped used usedText merged,
    OnboardingScript.answers = (skipped ++ used :: [ JStr "x" ])%list
    /\ JSString.toString used = Some usedText
    /\ Onboarding.parseAllowFromInput usedText <> []
    /\ Onboarding.setFeishuAllowFrom OnboardingSample.cfg [ "ou_1"; "ou_2" ]
       = Onboarding.setFeishuAllowFrom OnboardingSample.cfg merged
    /\ 6%nat = (2 + 2 * length skipped)%nat.
Proof.
  destruct (allowlist_prompt_merges OnboardingSample.cfg OnboardingScript.answers
              (Onboarding.setFeishuAllowFrom OnboardingSample.cfg
                 [ "ou_1"; "ou_2" ])
              [ Note Onboarding.allowlistHelp "Feishu allowlist";
                TextPrompt "Feishu allowFrom (user open_ids)"
                           (Some "ou_xxxxx, ou_yyyyy") (Some "ou_1");
                Note "Enter at least one user." "Feishu allowlist";
                TextPrompt "Feishu allowFrom (user open_ids)"
                           (Some "ou_xxxxx, ou_yyyyy") (Some "ou_1");
                Note "Enter at least one user." "Feishu allowlist";
                TextPrompt "Feishu allowFrom (user open_ids)"
                           (Some "ou_xxxxx, ou_yyyyy") (Some "ou_1") ]
              [ JStr "x" ] eq_refl)
    as (skipped & used & usedText & old & texts & merged
        & A & _ & U & N & _ & _ & C & _ & _ & _ & _ & _ & L).
  now exists skipped, used, usedText, merged.
Defined.
(** ** The wizard *)

Module WizardFacts.
Import JsObj JsObjFacts Onboarding OnboardingFacts Wizard.

Lemma pbind_done {A B : Type} (m : P A) (k : A -> P B)
                 (answers : list JsValue) (transcript : list PrompterCall)
                 (b : B) (t : list PrompterCall) (rest : list JsValue) :
  pbind m k answers transcript = Done b t rest ->
  exists a t1 answers1,
    m answers transcript = Done a t1 answers1
    /\ k a answers1 t1 = Done b t rest.
Proof.
  unfold pbind. destruct (m answers transcript) as [a t1 answers1| | |];
    try discriminate.
  intros H. now exists a, t1, answers1.
Qed.

Lemma pask_done (c : PrompterCall) (answers : list JsValue)
                (transcript : list PrompterCall)
                (a : JsValue) (t : list PrompterCall) (rest : list JsValue) :
  pask c answers transcript = Done a t rest ->
  answers = a :: rest.
Proof.
  unfold pask. destruct answers; [discriminate|]. now intros [= <- _ <-].
Qed.

Lemma pret_done {A : Type} (a : A) (answers : list JsValue)
                (transcript : list PrompterCall)
                (b : A) (t : list PrompterCall) (rest : list JsValue) :
  pret a answers transcript = Done b t rest -> b = a /\ rest = answers.
Proof. unfold pret. now intros [= <- _ <-]. Qed.

Lemma pnote_done (message title : string) (answers : list JsValue)
                 (transcript : list PrompterCall)
                 (u : unit) (t : list PrompterCall) (rest : list JsValue) :
  pnote message title answers transcript = Done u t rest -> rest = answers.
Proof. unfold pnote. now intros [= _ <-]. Qed.

Lemma pstring_done (v : JsValue) (answers : list JsValue)
                   (transcript : list PrompterCall)
                   (s : string) (t : list PrompterCall) (rest : list JsValue) :
  pstring v answers transcript = Done s t rest ->
  JSString.toString v = Some s /\ rest = answers.
Proof.
  unfold pstring. destruct (JSString.toString v) as [s'|]; [|discriminate].
  now intros [= <- _ <-].
Qed.

(** *** Edited configurations *)

Lemma edited_refl (fields : list string) (cfg : JsObject) : edited fields cfg cfg.
Proof. now left. Qed.

Lemma edited_weaken (fields fields' : list string) (cfg cfg' : JsObject) :
  incl fields fields' -> edited fields cfg cfg' -> edited fields' cfg cfg'.
Proof.
  intros I [-> | (chCfg & -> & F)]; [now left | right].
  exists chCfg. split; [reflexivity|]. intros f N. apply F. intros H. now apply N, I.
Qed.

Lemma edited_trans (fields : list string) (a b c : JsObject) :
  edited fields a b -> edited fields b c -> edited fields a c.
Proof.
  intros [-> | (x & -> & Fx)]; [trivial|].
  intros [-> | (y & -> & Fy)]; [right; now exists x|].
  right. exists y. split; [apply EditFacts.withChannel_twice|].
  intros f N. rewrite (Fy f N), channelCfg_withChannel. cbn [spread].
  now apply Fx.
Qed.

Lemma edited_set (cfg : JsObject) (f : string) (v : JsValue) :
  edited [ f ] cfg (withChannel cfg (set (spread (channelCfg cfg)) f v)).
Proof.
  right. eexists. split; [reflexivity|]. intros g N. cbn [In] in N.
  apply get_set_other. intuition congruence.
Qed.

Lemma edited_groupPolicy (cfg : JsObject) (p : string) :
  edited [ "enabled"; "groupPolicy" ] cfg (setFeishuGroupPolicy cfg p).
Proof.
  right. eexists. split; [reflexivity|]. intros g N. cbn [In] in N.
  rewrite !get_set_other by intuition congruence. reflexivity.
Qed.

Lemma edited_credentials (cfg : JsObject) (a s : string) :
  edited [ "enabled"; "appId"; "appSecret" ] cfg (withCredentials cfg a s).
Proof.
  right. eexists. split; [reflexivity|]. intros g N. cbn [In] in N.
  rewrite !get_set_other by intuition congruence. reflexivity.
Qed.

(** What [edited] says about one field. *)
Lemma edited_field (fields : list string) (cfg cfg' : JsObject) (f : string) :
  edited fields cfg cfg' ->
  ~ In f fields ->
  get (spread (channelCfg cfg')) f = get (spread (channelCfg cfg)) f.
Proof.
  intros [-> | (chCfg & -> & F)] N; [reflexivity|].
  rewrite channelCfg_withChannel. cbn [spread]. now apply F.
Qed.

(** *** The fields the wizard writes *)

Lemma field_withCredentials (cfg : JsObject) (a s : string) :
  get (spread (channelCfg (withCredentials cfg a s))) "appId" = JStr a
  /\ get (spread (channelCfg (withCredentials cfg a s))) "appSecret" = JStr s
  /\ get (spread (channelCfg (withCredentials cfg a s))) "enabled" = JBool true.
Proof.
  unfold withCredentials. rewrite channelCfg_withChannel. cbn [spread].
  repeat split.
  - rewrite get_set_other by discriminate. apply get_set_same.
  - apply get_set_same.
  - rewrite !get_set_other by discriminate. apply get_set_same.
Qed.

Lemma field_groupPolicy (cfg : JsObject) (p : string) :
  get (spread (channelCfg (setFeishuGroupPolicy cfg p))) "groupPolicy" = JStr p
  /\ get (spread (channelCfg (setFeishuGroupPolicy cfg p))) "enabled" = JBool true.
Proof.
  unfold setFeishuGroupPolicy. rewrite channelCfg_withChannel. cbn [spread].
  split; [apply get_set_same|].
  rewrite get_set_other by discriminate. apply get_set_same.
Qed.

Lemma field_groupAllowFrom (cfg : JsObject) (l : list string) :
  get (spread (channelCfg (setFeishuGroupAllowFrom cfg l))) "groupAllowFrom"
  = strings l
  /\ forall f, f <> "groupAllowFrom" ->
               get (spread (channelCfg (setFeishuGroupAllowFrom cfg l))) f
               = get (spread (channelCfg cfg)) f.
Proof.
  unfold setFeishuGroupAllowFrom. rewrite channelCfg_withChannel. cbn [spread].
  split; [apply get_set_same|]. intros f N. now apply get_set_other.
Qed.

(** *** The parts of [configure] *)

(** The two answers the credential prompts take. *)
Lemma askCredentials_done (answers : list JsValue) (transcript : list PrompterCall)
                          (c : string * string) (t : list PrompterCall)
                          (rest : list JsValue) :
  askCredentials answers transcript = Done c t rest ->
  exists a s appId appSecret,
    answers = a :: s :: rest
    /\ JSString.toString a = Some appId
    /\ JSString.toString s = Some appSecret
    /\ c = (Text.trim appId, Text.trim appSecret).
Proof.
  unfold askCredentials. intros H.
  apply pbind_done in H as (a & t1 & a1 & A & H). apply pask_done in A as ->.
  apply pbind_done in H as (appId & t2 & a2 & TA & H).
  apply pstring_done in TA as [TA ->].
  apply pbind_done in H as (s & t3 & a3 & S & H). apply pask_done in S as ->.
  apply pbind_done in H as (appSecret & t4 & a4 & TS & H).
  apply pstring_done in TS as [TS ->].
  apply pret_done in H as [-> ->].
  now exists a, s, appId, appSecret.
Qed.

(** Which credentials: the configuration is kept or enabled, and credentials
    are typed after at most one answer, a refusal. *)
Lemma chooseCredentials_done (env : Env) (cfg : JsObject) (hasCreds : bool)
                             (answers : list JsValue) (transcript : list PrompterCall)
                             (next : JsObject) (creds : option (string * string))
                             (t : list PrompterCall) (rest : list JsValue) :
  chooseCredentials env cfg hasCreds answers transcript = Done (next, creds) t rest ->
  (creds = None
   /\ (next = cfg \/ next = enable cfg)
   /\ exists kept, answers = kept :: rest)
  \/ (next = cfg
      /\ exists refused a s appId appSecret,
          answers = (refused ++ a :: s :: rest)%list
          /\ length refused <= 1
          /\ Forall (fun k => truthy k = false) refused
          /\ JSString.toString a = Some appId
          /\ JSString.toString s = Some appSecret
          /\ creds = Some (Text.trim appId, Text.trim appSecret)).
Proof.
  assert (Typed : forall answers transcript c t rest refused,
             askCredentials answers transcript = Done c t rest ->
             length refused <= 1 ->
             Forall (fun k => truthy k = false) refused ->
             exists refused' a s appId appSecret,
               (refused ++ answers)%list = (refused' ++ a :: s :: rest)%list
               /\ length refused' <= 1
               /\ Forall (fun k => truthy k = false) refused'
               /\ JSString.toString a = Some appId
               /\ JSString.toString s = Some appSecret
               /\ Some c = Some (Text.trim appId, Text.trim appSecret)).
  { intros ans tr c t' rest' refused C L F.
    apply askCredentials_done in C as (a & s & appId & appSecret & -> & A & S & ->).
    now exists refused, a, s, appId, appSecret. }
  unfold chooseCredentials.
  destruct (negb hasCreds && envSet (FEISHU_APP_ID env)
            && envSet (FEISHU_APP_SECRET env)).
  - intros H. apply pbind_done in H as (k & t1 & a1 & K & H).
    apply pask_done in K as ->.
    destruct (truthy k) eqn:T.
    + apply pret_done in H as [[= -> ->] ->]. left.
      split; [reflexivity|]. split; [now right | now exists k].
    + apply pbind_done in H as (c & t2 & a2 & C & H).
      apply pret_done in H as [[= -> ->] ->]. right. split; [reflexivity|].
      apply (Typed _ _ _ _ _ [ k ] C); [cbn; lia | now constructor].
  - destruct hasCreds.
    + intros H. apply pbind_done in H as (k & t1 & a1 & K & H).
      apply pask_done in K as ->.
      destruct (truthy k) eqn:T.
      * apply pret_done in H as [[= -> ->] ->]. left.
        split; [reflexivity|]. split; [now left | now exists k].
      * apply pbind_done in H as (c & t2 & a2 & C & H).
        apply pret_done in H as [[= -> ->] ->]. right. split; [reflexivity|].
        apply (Typed _ _ _ _ _ [ k ] C); [cbn; lia | now constructor].
    + intros H. apply pbind_done in H as (c & t2 & a2 & C & H).
      apply pret_done in H as [[= -> ->] ->]. right. split; [reflexivity|].
      apply (Typed _ _ _ _ _ [] C); [cbn; lia | constructor].
Qed.

(** The connection test asks nothing. *)
Lemma testConnection_done (env : Env) (testCfg : JsValue)
                          (answers : list JsValue) (transcript : list PrompterCall)
                          (u : unit) (t : list PrompterCall) (rest : list JsValue) :
  testConnection env testCfg answers transcript = Done u t rest ->
  rest = answers.
Proof.
  unfold testConnection.
  destruct (probeFeishu env testCfg) as [probe|err].
  - destruct (truthy (get probe "ok"));
      destruct (JSString.toString _); apply pnote_done.
  - destruct (errorString env err); [apply pnote_done | discriminate].
Qed.

Lemma storeCredentials_done (env : Env) (next : JsObject)
                            (creds : option (string * string))
                            (answers : list JsValue) (transcript : list PrompterCall)
                            (next' : JsObject) (t : list PrompterCall)
                            (rest : list JsValue) :
  storeCredentials env next creds answers transcript = Done next' t rest ->
  rest = answers
  /\ (next' = next
      \/ exists a s,
          creds = Some (a, s) /\ a <> EmptyString /\ s <> EmptyString
          /\ next' = withCredentials next a s).
Proof.
  unfold storeCredentials. destruct creds as [[a s]|].
  - destruct (Text.nonEmpty a) eqn:A; cbn [andb].
    + destruct (Text.nonEmpty s) eqn:S.
      * intros H. apply pbind_done in H as (u & t1 & a1 & T & H).
        apply testConnection_done in T as ->.
        apply pret_done in H as [-> ->]. split; [reflexivity|].
        right. exists a, s.
        repeat split; intros ->; discriminate.
      * intros H. apply pret_done in H as [-> ->]. split; [reflexivity | now left].
    + intros H. apply pret_done in H as [-> ->]. split; [reflexivity | now left].
  - intros H. apply pret_done in H as [-> ->]. split; [reflexivity | now left].
Qed.

Lemma chooseDomain_done (next : JsObject)
                        (answers : list JsValue) (transcript : list PrompterCall)
                        (next' : JsObject) (t : list PrompterCall)
                        (rest : list JsValue) :
  chooseDomain next answers transcript = Done next' t rest ->
  edited [ "domain" ] next next' /\ exists domain, answers = domain :: rest.
Proof.
  unfold chooseDomain. intros H.
  apply pbind_done in H as (d & t1 & a1 & D & H). apply pask_done in D as ->.
  destruct (truthy d); apply pret_done in H as [-> ->];
    (split; [|now exists d]); [apply edited_set | apply edited_refl].
Qed.

Lemma groupInitialValue_done (existing : JsValue)
                             (answers : list JsValue) (transcript : list PrompterCall)
                             (v : option string) (t : list PrompterCall)
                             (rest : list JsValue) :
  groupInitialValue existing answers transcript = Done v t rest ->
  rest = answers.
Proof.
  unfold groupInitialValue.
  destruct existing as [| | | | |l|]; try discriminate.
  destruct l as [|x l]; [now intros H; apply pret_done in H|].
  destruct (JSString.each (x :: l)); [|discriminate].
  now intros H; apply pret_done in H.
Qed.

(** The three ways [chooseGroups] ends. *)
Lemma chooseGroups_done (next : JsObject)
                        (answers : list JsValue) (transcript : list PrompterCall)
                        (next' : JsObject) (t : list PrompterCall)
                        (rest : list JsValue) :
  chooseGroups next answers transcript = Done next' t rest ->
  next' = next
  \/ (exists policy, next' = setFeishuGroupPolicy next policy)
  \/ (exists entry text,
         answers = JStr "allowlist" :: entry :: rest
         /\ truthy entry = true
         /\ JSString.toString entry = Some text
         /\ parseAllowFromInput text <> []
         /\ next' = setFeishuGroupAllowFrom (setFeishuGroupPolicy next "allowlist")
                      (parseAllowFromInput text)).
Proof.
  unfold chooseGroups. intros H.
  apply pbind_done in H as (g & t1 & a1 & G & H). apply pask_done in G as ->.
  destruct (truthy g); [|apply pret_done in H as [-> _]; now left].
  destruct g as [| | | |policy| |]; try discriminate H.
  destruct (String.eqb_spec policy "allowlist") as [->|N];
    [|apply pret_done in H as [-> _]; right; left; now exists policy].
  apply pbind_done in H as (initialValue & t2 & a2 & I & H).
  apply groupInitialValue_done in I as ->.
  apply pbind_done in H as (entry & t3 & a3 & E & H). apply pask_done in E as ->.
  destruct (truthy entry) eqn:T;
    [|apply pret_done in H as [-> _]; right; left; now exists "allowlist"].
  apply pbind_done in H as (text & t4 & a4 & S & H).
  apply pstring_done in S as [S ->].
  destruct (parseAllowFromInput text) as [|part parts] eqn:P.
  - apply pret_done in H as [-> _]. right. left. now exists "allowlist".
  - apply pret_done in H as [-> ->]. right. right.
    exists entry, text. rewrite P. repeat split; try assumption. discriminate.
Qed.

Lemma edited_after_groups (next next' : JsObject) :
  (next' = next
   \/ (exists policy, next' = setFeishuGroupPolicy next policy)
   \/ (exists parts,
          next' = setFeishuGroupAllowFrom (setFeishuGroupPolicy next "allowlist")
                    parts)) ->
  edited [ "enabled"; "groupPolicy"; "groupAllowFrom" ] next next'.
Proof.
  intros [-> | [(policy & ->) | (parts & ->)]].
  - apply edited_refl.
  - apply (edited_weaken [ "enabled"; "groupPolicy" ]); [|apply edited_groupPolicy].
    intros f [<- | [<- | []]]; cbn; tauto.
  - apply (edited_trans _ _ (setFeishuGroupPolicy next "allowlist")).
    + apply (edited_weaken [ "enabled"; "groupPolicy" ]); [|apply edited_groupPolicy].
      intros f [<- | [<- | []]]; cbn; tauto.
    + apply (edited_weaken [ "groupAllowFrom" ]); [|apply edited_set].
      intros f [<- | []]; cbn; tauto.
Qed.

(** The group questions leave an enabled channel enabled. *)
Lemma groups_keep_enabled (next next' : JsObject) :
  (next' = next
   \/ (exists policy, next' = setFeishuGroupPolicy next policy)
   \/ (exists parts,
          next' = setFeishuGroupAllowFrom (setFeishuGroupPolicy next "allowlist")
                    parts)) ->
  get (spread (channelCfg next)) "enabled" = JBool true ->
  get (spread (channelCfg next')) "enabled" = JBool true.
Proof.
  intros [-> | [(policy & ->) | (parts & ->)]] E.
  - exact E.
  - apply field_groupPolicy.
  - rewrite (proj2 (field_groupAllowFrom _ _)) by discriminate.
    apply field_groupPolicy.
Qed.

(** The ends of [chooseGroups], without the answers. *)
Lemma chooseGroups_ends (next : JsObject)
                        (answers : list JsValue) (transcript : list PrompterCall)
                        (next' : JsObject) (t : list PrompterCall)
                        (rest : list JsValue) :
  chooseGroups next answers transcript = Done next' t rest ->
  next' = next
  \/ (exists policy, next' = setFeishuGroupPolicy next policy)
  \/ (exists parts,
         next' = setFeishuGroupAllowFrom (setFeishuGroupPolicy next "allowlist")
                   parts).
Proof.
  intros H.
  apply chooseGroups_done in H
    as [-> | [(policy & ->) | (entry & text & _ & _ & _ & _ & ->)]];
    [now left | right; left; now exists policy | right; right; eauto].
Qed.

(** [configure], part by part: each part starts on the answers the one
    before has left. *)
Lemma configure_done (env : Env) (cfg0 : JsObject)
                     (answers : list JsValue) (transcript : list PrompterCall)
                     (r : ConfigureResult) (t : list PrompterCall)
                     (rest : list JsValue) :
  configure env cfg0 answers transcript = Done r t rest ->
  exists hasCreds next1 creds next2 next3 r1 r3 t0 t1 t2 t3 u1 u2 u3 u4,
    hasConfigCreds (channelCfg cfg0) = Some hasCreds
    /\ chooseCredentials env cfg0 hasCreds answers t0 = Done (next1, creds) u1 r1
    /\ storeCredentials env next1 creds r1 t1 = Done next2 u2 r1
    /\ chooseDomain next2 r1 t2 = Done next3 u3 r3
    /\ chooseGroups next3 r3 t3 = Done (cfg r) u4 rest
    /\ accountId r = DEFAULT_ACCOUNT_ID env.
Proof.
  unfold configure. destruct (hasConfigCreds (channelCfg cfg0)) as [h|];
    [|discriminate].
  intros H.
  apply pbind_done in H as (u & t0 & a0 & N & H).
  assert (a0 = answers) as ->.
  { destruct (truthy _); [now apply pret_done in N | now apply pnote_done in N]. }
  apply pbind_done in H as ([next1 creds] & t1 & a1 & C & H).
  apply pbind_done in H as (next2 & t2 & a2 & S & H).
  cbn [fst snd] in S.
  pose proof (proj1 (storeCredentials_done _ _ _ _ _ _ _ _ S)) as E. subst a2.
  apply pbind_done in H as (next3 & t3 & a3 & D & H).
  apply pbind_done in H as (next4 & t4 & a4 & G & H).
  apply pret_done in H as [-> ->].
  exists h, next1, creds, next2, next3, a1, a3. do 8 eexists.
  repeat split; eassumption.
Qed.

Lemma configure_edited (env : Env) (cfg0 : JsObject)
                       (answers : list JsValue) (transcript : list PrompterCall)
                       (r : ConfigureResult) (t : list PrompterCall)
                       (rest : list JsValue) :
  configure env cfg0 answers transcript = Done r t rest ->
  edited wizardFields cfg0 (cfg r) /\ accountId r = DEFAULT_ACCOUNT_ID env.
Proof.
  intros H. apply configure_done in H
    as (h & next1 & creds & next2 & next3 & r1 & r3 & t0 & t1 & t2 & t3
        & u1 & u2 & u3 & u4 & _ & C & S & D & G & A).
  split; [|exact A].
  apply chooseCredentials_done in C.
  apply storeCredentials_done in S as [_ S].
  apply chooseDomain_done in D as [D _].
  apply chooseGroups_ends, edited_after_groups in G.
  apply (edited_trans _ _ next1).
  { destruct C as [(_ & [-> | ->] & _) | (-> & _)]; try apply edited_refl.
    apply (edited_weaken [ "enabled" ]); [|apply edited_set].
    intros f [<- | []]; cbn; tauto. }
  apply (edited_trans _ _ next2).
  { destruct S as [-> | (a & s & _ & _ & _ & ->)]; [apply edited_refl|].
    apply (edited_weaken [ "enabled"; "appId"; "appSecret" ]);
      [|apply edited_credentials].
    intros f [<- | [<- | [<- | []]]]; cbn; tauto. }
  apply (edited_trans _ _ next3).
  { apply (edited_weaken [ "domain" ]); [|exact D].
    intros f [<- | []]; cbn; tauto. }
  apply (edited_weaken [ "enabled"; "groupPolicy"; "groupAllowFrom" ]); [|exact G].
  intros f [<- | [<- | [<- | []]]]; cbn; tauto.
Qed.

End WizardFacts.

(** X20.  What [configure] leaves alone.  Whatever the user answers, the
    configuration [configure] returns differs from the one it was given in
    the Feishu channel only, and there only in [enabled], [appId],
    [appSecret], [domain], [groupPolicy] and [groupAllowFrom]: every other
    top-level property, every other channel, and every other field of the
    Feishu channel (the DM policy and the DM allowlist among them) is
    unchanged.  The account it reports is the default account. *)
Theorem configure_leaves_the_rest_alone
  (env : Wizard.Env) (cfg0 : JsObject) (answers : list JsValue)
  (r : Wizard.ConfigureResult) (transcript : list PrompterCall)
  (rest : list JsValue) :
  Wizard.configure env cfg0 answers [] = Done r transcript rest ->
  Wizard.accountId r = Wizard.DEFAULT_ACCOUNT_ID env
  /\ (forall k, k <> "channels" ->
                JsObj.get (Wizard.cfg r) k = JsObj.get cfg0 k)
  /\ (JsObj.plain (JsObj.get cfg0 "channels") = true ->
      forall ch, ch <> "feishu-new" ->
                 JsObj.prop (JsObj.get (Wizard.cfg r) "channels") ch
                 = JsObj.prop (JsObj.get cfg0 "channels") ch)
  /\ (JsObj.plain (Onboarding.channelCfg cfg0) = true ->
      forall f, ~ In f wizardFields ->
                JsObj.prop (Onboarding.channelCfg (Wizard.cfg r)) f
                = JsObj.prop (Onboarding.channelCfg cfg0) f).
Proof.
  intros H. apply WizardFacts.configure_edited in H as [E A].
  split; [exact A|].
  destruct E as [-> | (chCfg & -> & F)]; [now repeat split|].
  repeat split.
  - intros k N. now apply OnboardingFacts.top_withChannel.
  - intros P ch N. now apply OnboardingFacts.channels_withChannel.
  - intros P f N. rewrite OnboardingFacts.channelCfg_withChannel. cbn [JsObj.prop].
    rewrite (F f N). symmetry. now apply JsObjFacts.prop_spread.
Qed.

(** An existing channel asked to replace its credentials. *)
Lemma configure_leaves_the_rest_alone_witness :
  exists r,
    Wizard.accountId r = "default"
    /\ JsObj.prop (Onboarding.channelCfg (Wizard.cfg r)) "allowFrom"
       = JArr [ JStr "ou_1" ]
    /\ JsObj.prop (JsObj.get (Wizard.cfg r) "channels") "telegram"
       = JObj [ ("enabled", JBool true) ].
Proof.
  eexists.
  pose proof (configure_leaves_the_rest_alone
                (WizardSample.env WizardSample.connected) OnboardingSample.cfg
                (JBool false :: WizardSample.answers) _ _ _ eq_refl)
    as (A & _ & C & F).
  split; [exact A|]. split.
  - rewrite (F eq_refl "allowFrom"); [reflexivity|].
    cbv. intuition discriminate.
  - rewrite (C eq_refl "telegram"); [reflexivity | discriminate].
Defined.

(** X21.  Credentials are stored as a pair or not at all.  When [configure]
    returns, the [appId] and [appSecret] of the Feishu channel are either
    both what they were, or both replaced by what the user typed: the texts
    of two consecutive answers of the script, trimmed, the app id first,
    neither empty after trimming; these two answers are the first of the
    script, or follow one answer, a refusal to keep what is there; and in
    that case the channel is enabled.  An answer that trims to nothing never
    overwrites stored credentials, and one credential is never replaced
    without the other. *)
Theorem configure_stores_credentials_in_pairs
  (env : Wizard.Env) (cfg0 : JsObject) (answers : list JsValue)
  (r : Wizard.ConfigureResult) (transcript : list PrompterCall)
  (rest : list JsValue) :
  Wizard.configure env cfg0 answers [] = Done r transcript rest ->
  let before := Onboarding.channelCfg cfg0 in
  let after := Onboarding.channelCfg (Wizard.cfg r) in
  (JsObj.get (JsObj.spread after) "appId" = JsObj.get (JsObj.spread before) "appId"
   /\ JsObj.get (JsObj.spread after) "appSecret"
      = JsObj.get (JsObj.spread before) "appSecret")
  \/ exists refused a s later appId appSecret,
      answers = (refused ++ a :: s :: later)%list
      /\ length refused <= 1
      /\ Forall (fun k => JsObj.truthy k = false) refused
      /\ JSString.toString a = Some appId
      /\ JSString.toString s = Some appSecret
      /\ JsObj.get (JsObj.spread after) "appId" = JStr (Text.trim appId)
      /\ JsObj.get (JsObj.spread after) "appSecret" = JStr (Text.trim appSecret)
      /\ Text.trim appId <> EmptyString /\ Text.trim appSecret <> EmptyString
      /\ JsObj.get (JsObj.spread after) "enabled" = JBool true.
Proof.
  intros H before after. subst before after.
  apply WizardFacts.configure_done in H
    as (h & next1 & creds & next2 & next3 & r1 & r3 & t0 & t1 & t2 & t3
        & u1 & u2 & u3 & u4 & _ & C & S & D & G & _).
  apply WizardFacts.chooseCredentials_done in C.
  apply WizardFacts.storeCredentials_done in S as [_ S].
  apply WizardFacts.chooseDomain_done in D as [D _].
  apply WizardFacts.chooseGroups_ends in G.
  pose proof (WizardFacts.edited_after_groups _ _ G) as EG.
  assert (K : forall f, f = "appId" \/ f = "appSecret" ->
                        JsObj.get (JsObj.spread (Onboarding.channelCfg (Wizard.cfg r))) f
                        = JsObj.get (JsObj.spread (Onboarding.channelCfg next2)) f).
  { intros f Hf.
    rewrite (WizardFacts.edited_field _ _ _ f EG),
            (WizardFacts.edited_field _ _ _ f D); [reflexivity| |];
      cbn [In]; destruct Hf as [-> | ->]; intuition discriminate. }
  destruct S as [-> | (a & s & -> & Na & Ns & ->)].
  - left.
    assert (K1 : forall f, f = "appId" \/ f = "appSecret" ->
                           JsObj.get (JsObj.spread (Onboarding.channelCfg next1)) f
                           = JsObj.get (JsObj.spread (Onboarding.channelCfg cfg0)) f).
    { intros f Hf.
      destruct C as [(_ & [-> | ->] & _) | (-> & _)]; try reflexivity.
      unfold Wizard.enable. rewrite OnboardingFacts.channelCfg_withChannel.
      cbn [JsObj.spread]. apply JsObjFacts.get_set_other.
      destruct Hf as [-> | ->]; discriminate. }
    split; rewrite K, K1; auto.
  - right.
    destruct C as [(N & _) | (-> & refused & x & y & appId & appSecret
                               & -> & L & F & X & Y & [= -> ->])];
      [discriminate N|].
    exists refused, x, y, r1, appId, appSecret.
    destruct (WizardFacts.field_withCredentials cfg0 (Text.trim appId)
                (Text.trim appSecret)) as (Fa & Fs & Fe).
    rewrite !K by auto.
    repeat split; try assumption.
    apply (WizardFacts.groups_keep_enabled next3 _ G).
    rewrite (WizardFacts.edited_field _ _ _ "enabled" D); [exact Fe|].
    cbn [In]. intuition discriminate.
Qed.

(** New credentials typed with white space around the app id. *)
Lemma configure_stores_credentials_in_pairs_witness :
  exists r,
    JsObj.get (JsObj.spread (Onboarding.channelCfg (Wizard.cfg r))) "appId"
    = JStr "cli_b2".
Proof.
  pose proof (configure_stores_credentials_in_pairs
                (WizardSample.env WizardSample.connected) OnboardingSample.cfg
                (JBool false :: WizardSample.answers) _ _ _ eq_refl) as H.
  match type of H with context [Wizard.cfg ?x] => exists x end.
  destruct H as [[A _] | _]; [vm_compute in A; discriminate A | reflexivity].
Defined.

(** X22.  The group allowlist is written only with the allowlist policy, and
    never emptied.  When [configure] returns, the [groupAllowFrom] of the
    Feishu channel is either what it was, or the entries parsed from the
    text of the last answer [configure] read, an answer given right after
    the answer [allowlist] to the policy question: at least one entry, every
    entry clean (not empty, trimmed, free of separators); and in that case
    the group policy stored is [allowlist] and the channel is enabled. *)
Theorem configure_group_allowlist
  (env : Wizard.Env) (cfg0 : JsObject) (answers : list JsValue)
  (r : Wizard.ConfigureResult) (transcript : list PrompterCall)
  (rest : list JsValue) :
  Wizard.configure env cfg0 answers [] = Done r transcript rest ->
  let before := Onboarding.channelCfg cfg0 in
  let after := Onboarding.channelCfg (Wizard.cfg r) in
  JsObj.get (JsObj.spread after) "groupAllowFrom"
  = JsObj.get (JsObj.spread before) "groupAllowFrom"
  \/ exists earlier entry text,
      answers = (earlier ++ JStr "allowlist" :: entry :: rest)%list
      /\ JSString.toString entry = Some text
      /\ JsObj.get (JsObj.spread after) "groupAllowFrom"
         = Onboarding.strings (Onboarding.parseAllowFromInput text)
      /\ Onboarding.parseAllowFromInput text <> []
      /\ forallb cleanEntry (Onboarding.parseAllowFromInput text) = true
      /\ JsObj.get (JsObj.spread after) "groupPolicy" = JStr "allowlist"
      /\ JsObj.get (JsObj.spread after) "enabled" = JBool true.
Proof.
  intros H before after. subst before after.
  apply WizardFacts.configure_done in H
    as (h & next1 & creds & next2 & next3 & r1 & r3 & t0 & t1 & t2 & t3
        & u1 & u2 & u3 & u4 & _ & C & S & D & G & _).
  apply WizardFacts.chooseCredentials_done in C.
  apply WizardFacts.storeCredentials_done in S as [_ S].
  apply WizardFacts.chooseDomain_done in D as [D [domain R1]].
  apply WizardFacts.chooseGroups_done in G.
  assert (K : JsObj.get (JsObj.spread (Onboarding.channelCfg next3)) "groupAllowFrom"
              = JsObj.get (JsObj.spread (Onboarding.channelCfg cfg0)) "groupAllowFrom").
  { rewrite (WizardFacts.edited_field _ _ _ "groupAllowFrom" D)
      by (cbn [In]; intuition discriminate).
    assert (E1 : edited [ "enabled" ] cfg0 next1).
    { destruct C as [(_ & [-> | ->] & _) | (-> & _)];
        try apply WizardFacts.edited_refl. apply WizardFacts.edited_set. }
    assert (E2 : edited [ "enabled"; "appId"; "appSecret" ] next1 next2).
    { destruct S as [-> | (a & s & _ & _ & _ & ->)];
        [apply WizardFacts.edited_refl | apply WizardFacts.edited_credentials]. }
    rewrite (WizardFacts.edited_field _ _ _ "groupAllowFrom" E2)
      by (cbn [In]; intuition discriminate).
    apply (WizardFacts.edited_field _ _ _ "groupAllowFrom" E1).
    cbn [In]. intuition discriminate. }
  destruct G as [-> | [(policy & ->) | (entry & text & R3 & T & X & N & ->)]].
  - now left.
  - left. rewrite <- K. unfold Onboarding.setFeishuGroupPolicy.
    rewrite OnboardingFacts.channelCfg_withChannel. cbn [JsObj.spread].
    rewrite !JsObjFacts.get_set_other by discriminate. reflexivity.
  - right.
    assert (A : exists earlier, answers = (earlier ++ r3)%list).
    { destruct C as [(_ & _ & kept & ->)
                    | (_ & refused & x & y & _ & _ & -> & _)].
      - exists [ kept; domain ]. now rewrite R1.
      - exists (refused ++ [ x; y; domain ])%list.
        rewrite R1, <- app_assoc. reflexivity. }
    destruct A as [earlier ->]. exists earlier, entry, text.
    destruct (WizardFacts.field_groupAllowFrom
                (Onboarding.setFeishuGroupPolicy next3 "allowlist")
                (Onboarding.parseAllowFromInput text)) as [F O].
    destruct (WizardFacts.field_groupPolicy next3 "allowlist") as [FP FE].
    split; [now rewrite R3|]. split; [exact X|]. split; [exact F|].
    split; [exact N|]. split; [|split].
    + apply forallb_forall. intros e I.
      destruct (parsed_entry _ _ I) as (Ne & Te & Se).
      unfold cleanEntry. rewrite Te, String.eqb_refl, Se.
      destruct e; [congruence | reflexivity].
    + rewrite O by discriminate. exact FP.
    + rewrite O by discriminate. exact FE.
Qed.

(** Two chat ids typed for the allowlist. *)
Lemma configure_group_allowlist_witness :
  exists r,
    JsObj.get (JsObj.spread (Onboarding.channelCfg (Wizard.cfg r))) "groupAllowFrom"
    = JArr [ JStr "oc_1"; JStr "oc_2" ].
Proof.
  pose proof (configure_group_allowlist
                (WizardSample.env WizardSample.connected) OnboardingSample.cfg
                (JBool false :: WizardSample.answers) _ _ _ eq_refl) as H.
  match type of H with context [Wizard.cfg ?x] => exists x end.
  destruct H as [A | _]; [vm_compute in A; discriminate A | reflexivity].
Defined.

(** ** The connection test *)

Module AlikeFacts.
Import Wizard.




















End AlikeFacts.



(** ** The status *)



(** ** The length of the dialogue *)

Module DialogueFacts.
Import Wizard.

Lemma dialogue_pret {A : Type} (a : A) : dialogue 0 0 (pret a).
Proof.
  intros answers t. cbn. exists [], []. now rewrite app_nil_r.
Qed.

Lemma dialogue_pnote (message title : string) : dialogue 0 0 (pnote message title).
Proof.
  intros answers t. cbn. exists [], [ Note message title ]. cbn. auto.
Qed.

Lemma dialogue_pask (c : PrompterCall) :
  isPrompt c = true -> dialogue 1 1 (pask c).
Proof.
  intros I answers t. unfold pask. destruct answers as [|a rest]; cbn; [lia|].
  exists [ a ], [ c ]. cbn. rewrite I. cbn. auto.
Qed.

Lemma dialogue_pthrow {A : Type} (lo hi : nat) : dialogue lo hi (@pthrow A).
Proof. intros answers t. exact I. Qed.

Lemma dialogue_puntyped {A : Type} (lo hi : nat) : dialogue lo hi (@puntyped A).
Proof. intros answers t. exact I. Qed.

Lemma dialogue_pstring (v : JsValue) : dialogue 0 0 (pstring v).
Proof.
  unfold pstring. destruct (JSString.toString v);
    [apply dialogue_pret | apply dialogue_pthrow].
Qed.

Lemma dialogue_weaken {A : Type} (lo hi lo' hi' : nat) (m : P A) :
  lo' <= lo -> hi <= hi' -> dialogue lo hi m -> dialogue lo' hi' m.
Proof.
  intros L H D answers t. specialize (D answers t).
  destruct (m answers t); trivial; [|lia].
  destruct D as (used & asked & -> & -> & E & B).
  exists used, asked. repeat split; trivial; lia.
Qed.

Lemma dialogue_pbind {A B : Type} (lo1 hi1 lo2 hi2 : nat)
                     (m : P A) (k : A -> P B) :
  dialogue lo1 hi1 m -> (forall a, dialogue lo2 hi2 (k a)) ->
  dialogue (lo1 + lo2) (hi1 + hi2) (pbind m k).
Proof.
  intros M K answers t. unfold pbind. specialize (M answers t).
  destruct (m answers t) as [a t1 r1|t1|t1|t1]; trivial; [|lia].
  destruct M as (used & asked & -> & -> & E & Bd).
  specialize (K a r1 (t ++ asked)%list).
  destruct (k a r1 (t ++ asked)%list) as [b t2 r2|t2|t2|t2]; trivial.
  - destruct K as (used' & asked' & -> & -> & E' & Bd').
    exists (used ++ used')%list, (asked ++ asked')%list.
    rewrite <- !app_assoc, filter_app, !length_app. repeat split; lia.
  - rewrite length_app. lia.
Qed.

Lemma dialogue_askCredentials : dialogue 2 2 askCredentials.
Proof.
  unfold askCredentials.
  apply (dialogue_pbind 1 1 1 1); [now apply dialogue_pask|]. intros a.
  apply (dialogue_pbind 0 0 1 1); [apply dialogue_pstring|]. intros appId.
  apply (dialogue_pbind 1 1 0 0); [now apply dialogue_pask|]. intros s.
  apply (dialogue_pbind 0 0 0 0); [apply dialogue_pstring|]. intros appSecret.
  apply dialogue_pret.
Qed.

Lemma dialogue_chooseCredentials (env : Env) (cfg : JsObject) (h : bool) :
  dialogue 1 3 (chooseCredentials env cfg h).
Proof.
  unfold chooseCredentials.
  destruct (negb h && envSet (FEISHU_APP_ID env) && envSet (FEISHU_APP_SECRET env));
    [|destruct h].
  - apply (dialogue_pbind 1 1 0 2); [now apply dialogue_pask|]. intros k.
    destruct (JsObj.truthy k).
    + apply (dialogue_weaken 0 0); [lia | lia | apply dialogue_pret].
    + apply (dialogue_weaken (2 + 0) (2 + 0)); [lia | lia |].
      apply dialogue_pbind; [apply dialogue_askCredentials|].
      intros c. apply dialogue_pret.
  - apply (dialogue_pbind 1 1 0 2); [now apply dialogue_pask|]. intros k.
    destruct (JsObj.truthy k).
    + apply (dialogue_weaken 0 0); [lia | lia | apply dialogue_pret].
    + apply (dialogue_weaken (2 + 0) (2 + 0)); [lia | lia |].
      apply dialogue_pbind; [apply dialogue_askCredentials|].
      intros c. apply dialogue_pret.
  - apply (dialogue_weaken (2 + 0) (2 + 0)); [lia | lia |].
    apply dialogue_pbind; [apply dialogue_askCredentials|].
    intros c. apply dialogue_pret.
Qed.

Lemma dialogue_testConnection (env : Env) (testCfg : JsValue) :
  dialogue 0 0 (testConnection env testCfg).
Proof.
  unfold testConnection.
  destruct (probeFeishu env testCfg) as [probe|err].
  - destruct (JsObj.truthy (JsObj.get probe "ok"));
      destruct (JSString.toString _); apply dialogue_pnote.
  - destruct (errorString env err); [apply dialogue_pnote | apply dialogue_pthrow].
Qed.

Lemma dialogue_storeCredentials (env : Env) (next : JsObject)
                                (creds : option (string * string)) :
  dialogue 0 0 (storeCredentials env next creds).
Proof.
  unfold storeCredentials. destruct creds as [[a s]|]; [|apply dialogue_pret].
  destruct (Text.nonEmpty a && Text.nonEmpty s); [|apply dialogue_pret].
  apply (dialogue_pbind 0 0 0 0); [apply dialogue_testConnection|].
  intros _. apply dialogue_pret.
Qed.

Lemma dialogue_chooseDomain (next : JsObject) : dialogue 1 1 (chooseDomain next).
Proof.
  unfold chooseDomain.
  apply (dialogue_pbind 1 1 0 0); [now apply dialogue_pask|]. intros d.
  destruct (JsObj.truthy d); apply dialogue_pret.
Qed.

Lemma dialogue_groupInitialValue (existing : JsValue) :
  dialogue 0 0 (groupInitialValue existing).
Proof.
  unfold groupInitialValue.
  destruct existing as [| | | | |l|]; try apply dialogue_puntyped.
  destruct l as [|x l]; [apply dialogue_pret|].
  destruct (JSString.each (x :: l)); [apply dialogue_pret | apply dialogue_pthrow].
Qed.

Lemma dialogue_chooseGroups (next : JsObject) : dialogue 1 2 (chooseGroups next).
Proof.
  unfold chooseGroups.
  apply (dialogue_pbind 1 1 0 1); [now apply dialogue_pask|]. intros g.
  destruct (JsObj.truthy g);
    [|apply (dialogue_weaken 0 0); [lia | lia | apply dialogue_pret]].
  destruct g; try apply dialogue_puntyped.
  destruct (String.eqb _ _);
    [|apply (dialogue_weaken 0 0); [lia | lia | apply dialogue_pret]].
  apply (dialogue_weaken (0 + (1 + 0)) (0 + (1 + 0))); [lia | lia |].
  apply dialogue_pbind; [apply dialogue_groupInitialValue|]. intros initialValue.
  apply dialogue_pbind; [now apply dialogue_pask|]. intros entry.
  destruct (JsObj.truthy entry); [|apply dialogue_pret].
  apply (dialogue_pbind 0 0 0 0); [apply dialogue_pstring|]. intros text.
  destruct (Onboarding.parseAllowFromInput _); apply dialogue_pret.
Qed.

Lemma dialogue_configure (env : Env) (cfg0 : JsObject) :
  dialogue 3 6 (configure env cfg0).
Proof.
  unfold configure.
  destruct (hasConfigCreds (Onboarding.channelCfg cfg0)) as [h|];
    [|apply dialogue_pthrow].
  apply (dialogue_pbind 0 0 3 6).
  { destruct (JsObj.truthy _); [apply dialogue_pret | apply dialogue_pnote]. }
  intros _.
  apply (dialogue_pbind 1 3 2 3); [apply dialogue_chooseCredentials|]. intros chosen.
  apply (dialogue_pbind 0 0 2 3); [apply dialogue_storeCredentials|]. intros next.
  apply (dialogue_pbind 1 1 1 2); [apply dialogue_chooseDomain|]. intros next'.
  apply (dialogue_pbind 1 2 0 0); [apply dialogue_chooseGroups|]. intros next''.
  apply dialogue_pret.
Qed.

End DialogueFacts.

(** X25.  The length of the dialogue.  When [configure] returns it has asked
    between three and six questions, has taken its answers from the front of
    the script in order, one for each prompt it made, and has left the other
    answers unread; and it is never left waiting for an answer when six
    answers are at hand. *)
Theorem configure_asks_three_to_six
  (env : Wizard.Env) (cfg0 : JsObject) (answers : list JsValue) :
  (forall r transcript rest,
      Wizard.configure env cfg0 answers [] = Done r transcript rest ->
      exists used,
        answers = (used ++ rest)%list
        /\ length (filter isPrompt transcript) = length used
        /\ 3 <= length used <= 6)
  /\ (forall transcript,
         Wizard.configure env cfg0 answers [] = Starved transcript ->
         length answers < 6).
Proof.
  pose proof (DialogueFacts.dialogue_configure env cfg0 answers []) as D.
  split.
  - intros r t rest E. rewrite E in D.
    destruct D as (used & asked & -> & -> & F & B). now exists used.
  - intros t E. now rewrite E in D.
Qed.

(** Six answers of which all are read. *)
Lemma configure_asks_three_to_six_witness :
  exists used,
    (JBool false :: WizardSample.answers) = (used ++ [])%list
    /\ 3 <= length used <= 6.
Proof.
  destruct (proj1 (configure_asks_three_to_six
                     (WizardSample.env WizardSample.connected) OnboardingSample.cfg
                     (JBool false :: WizardSample.answers))
                  _ _ _ eq_refl) as (used & E & _ & B).
  now exists used.
Defined.
